(** * Personal expense tracker (todo.py): model and verified properties

    The program is a single Python script that keeps expense records in
    the CSV file [expenses.csv].  This development embeds

    - the pieces of the Python runtime the script relies on
      ([str] methods, [float], [datetime.strptime], [dict], [sorted],
      the [csv] module with the [excel] dialect, text files), and
    - the five functions of the script itself ([init_file],
      [add_expense], [view_expenses], [search_expenses],
      [get_monthly_summary]) over an explicit world made of the backing
      file, the lines still to be read from standard input and the lines
      printed so far,

    and then states and proves the properties of the specification.

    Text is modelled by [string]; its characters are treated as ASCII
    (case mapping, digits and white space are those of ASCII).  Floats are
    IEEE binary64 values, taken from [SpecFloat]. *)

From Stdlib Require Import ZArith Lia Bool List String Ascii DecimalString.
From Stdlib Require Import Sorted Permutation.
From Stdlib Require Import Floats.SpecFloat.
Import ListNotations.

Local Open Scope string_scope.
Local Open Scope Z_scope.

(* ================================================================== *)
(** * Python strings *)
(* ================================================================== *)

Module PyStr.

Definition code (c : ascii) : Z := Z.of_N (N_of_ascii c).

Definition chr (z : Z) : ascii := ascii_of_N (Z.to_N z).

Definition is_upper (c : ascii) : bool := (65 <=? code c) && (code c <=? 90).

Definition is_lower (c : ascii) : bool := (97 <=? code c) && (code c <=? 122).

Definition is_digit (c : ascii) : bool := (48 <=? code c) && (code c <=? 57).

Definition lower_char (c : ascii) : ascii :=
  if is_upper c then chr (code c + 32) else c.

Definition upper_char (c : ascii) : ascii :=
  if is_lower c then chr (code c - 32) else c.

(** [s.lower()] *)
Fixpoint lower (s : string) : string :=
  match s with
  | EmptyString => EmptyString
  | String c s' => String (lower_char c) (lower s')
  end.

(** [s.capitalize()]: the first character is upper-cased and every
    other character is lower-cased. *)
Definition capitalize (s : string) : string :=
  match s with
  | EmptyString => EmptyString
  | String c s' => String (upper_char c) (lower s')
  end.

(** [s.startswith(p)] *)
Fixpoint startswith (s p : string) : bool :=
  match p with
  | EmptyString => true
  | String a p' =>
      match s with
      | EmptyString => false
      | String b s' => Ascii.eqb a b && startswith s' p'
      end
  end.

Fixpoint all_chars (p : ascii -> bool) (s : string) : bool :=
  match s with
  | EmptyString => true
  | String c s' => p c && all_chars p s'
  end.

(** The spec's reading of the category rule: only the first letter is
    touched and the rest is kept as typed. *)
Definition first_letter_only (s : string) : string :=
  match s with
  | EmptyString => EmptyString
  | String c s' => String (upper_char c) s'
  end.

End PyStr.

(* ================================================================== *)
(** * Python floats (IEEE binary64) *)
(* ================================================================== *)

Module PyFloat.
Import PyStr.

Definition prec : Z := 53.
Definition emax : Z := 1024.

Definition float := spec_float.

Definition zero : float := S754_zero false.
Definition nan : float := S754_nan.
Definition inf (neg : bool) : float := S754_infinity neg.

Definition add (x y : float) : float := SFadd prec emax x y.
Definition eqb (x y : float) : bool := SFeqb x y.
Definition ltb (x y : float) : bool := SFltb x y.
Definition leb (x y : float) : bool := SFleb x y.

Definition is_nan (x : float) : bool :=
  match x with S754_nan => true | _ => false end.

(** The float nearest to the integer [z]. *)
Definition of_Z (z : Z) : float := binary_normalize prec emax z 0 false.

(** The float nearest to [(-1)^neg * m * 10^k], ties to even. *)
Definition of_decimal (neg : bool) (m k : Z) : float :=
  if m <=? 0 then S754_zero neg
  else if 0 <=? k then binary_normalize prec emax (cond_Zopp neg (m * 10 ^ k)) 0 false
  else
    let '(q, e, l) := SFdiv_core_binary prec emax m 0 (10 ^ (- k)) 0 in
    binary_round_aux prec emax neg q e l.

(** ** [float(s)] *)

(** The white space [float] skips at both ends of an ASCII text: TAB,
    LF, VT, FF, CR and SPACE.  The separators FS, GS, RS and US, which
    [str.strip] removes, are not skipped: [float] refuses a text that
    begins or ends with one of them. *)
Definition is_space (c : ascii) : bool :=
  ((9 <=? code c) && (code c <=? 13)) || (code c =? 32).

Fixpoint lstrip (s : string) : string :=
  match s with
  | String c s' => if is_space c then lstrip s' else s
  | EmptyString => EmptyString
  end.

Fixpoint rstrip (s : string) : string :=
  match s with
  | EmptyString => EmptyString
  | String c s' =>
      match rstrip s' with
      | EmptyString => if is_space c then EmptyString else String c EmptyString
      | r => String c r
      end
  end.

Definition strip (s : string) : string := rstrip (lstrip s).

(** Underscores may only stand between two digits; they are dropped
    before the number is read. *)
Fixpoint remove_underscores (prev : ascii) (s : string) : option string :=
  match s with
  | EmptyString =>
      if Ascii.eqb prev "_" then None else Some EmptyString
  | String c s' =>
      if Ascii.eqb c "_" then
        if is_digit prev then remove_underscores c s' else None
      else if Ascii.eqb prev "_" && negb (is_digit c) then None
      else option_map (String c) (remove_underscores c s')
  end.

(** Reads a run of digits: the value accumulated, how many digits were
    read, and the rest of the text. *)
Fixpoint read_digits (acc cnt : Z) (s : string) : Z * Z * string :=
  match s with
  | String c s' =>
      if is_digit c then read_digits (10 * acc + (code c - 48)) (cnt + 1) s'
      else (acc, cnt, s)
  | EmptyString => (acc, cnt, s)
  end.

Definition read_sign (s : string) : bool * string :=
  match s with
  | String "-" s' => (true, s')
  | String "+" s' => (false, s')
  | _ => (false, s)
  end.

(** The exponent part: nothing, or [e]/[E], an optional sign and at
    least one digit, up to the end of the text. *)
Definition read_exponent (s : string) : option Z :=
  match s with
  | EmptyString => Some 0
  | String c s' =>
      if Ascii.eqb (lower_char c) "e" then
        let '(neg, s1) := read_sign s' in
        let '(x, n, rest) := read_digits 0 0 s1 in
        match rest with
        | EmptyString => if n =? 0 then None else Some (cond_Zopp neg x)
        | _ => None
        end
      else None
  end.

Definition read_decimal (neg : bool) (s : string) : option float :=
  let '(ip, ni, r1) := read_digits 0 0 s in
  let '(m, nf, r2) :=
    match r1 with
    | String "." r => read_digits ip 0 r
    | _ => (ip, 0, r1)
    end in
  if ni + nf =? 0 then None
  else
    match read_exponent r2 with
    | Some x => Some (of_decimal neg m (x - nf))
    | None => None
    end.

Definition float_of_string (s : string) : option float :=
  match remove_underscores "000" s with
  | None => None
  | Some t =>
      let '(neg, body) := read_sign (strip t) in
      let l := lower body in
      if String.eqb l "inf" || String.eqb l "infinity" then Some (inf neg)
      else if String.eqb l "nan" then Some nan
      else read_decimal neg body
  end.

(** ** [str(x)] for a float: the shortest decimal text that reads back
    as [x] *)

Definition digits_of (z : Z) : string :=
  NilZero.string_of_uint (N.to_uint (Z.to_N z)).

Fixpoint zeros (n : nat) : string :=
  match n with
  | O => EmptyString
  | S n' => String "0" (zeros n')
  end.

(** [10^k <= m * 2^e], on integers. *)
Definition pow10_le (k : Z) (m e : Z) : bool :=
  10 ^ Z.max k 0 * 2 ^ Z.max (- e) 0 <=? m * 2 ^ Z.max e 0 * 10 ^ Z.max (- k) 0.

(** [floor (log10 (m * 2^e))] *)
Definition floor_log10 (m e : Z) : Z :=
  let k0 := ((Z.log2 m + e) * 1233) / 4096 in
  let k1 := if pow10_le k0 m e then k0 else k0 - 1 in
  let k2 := if pow10_le k1 m e then k1 else k1 - 1 in
  if pow10_le (k2 + 1) m e then k2 + 1 else k2.

(** The decimal [c * 10^p] with [n] digits nearest to [m * 2^e] that
    still rounds to it, if there is one. *)
Definition short_candidate (m e k : Z) (n : Z) : option (Z * Z) :=
  let p := k - n + 1 in
  let sh := Z.max 0 (2 - e) in
  let v := m * 2 ^ (e + sh) in
  let hu := 2 ^ (e + sh - 1) in
  let hd := if (m =? 2 ^ (prec - 1)) && (emin prec emax <? e)
            then 2 ^ (e + sh - 2) else hu in
  let a := v * 10 ^ Z.max (- p) 0 in
  let b := 2 ^ sh * 10 ^ Z.max p 0 in
  let hu' := hu * 10 ^ Z.max (- p) 0 in
  let hd' := hd * 10 ^ Z.max (- p) 0 in
  let inside (c : Z) : bool :=
    if Z.even m then (a - hd' <=? c * b) && (c * b <=? a + hu')
    else (a - hd' <? c * b) && (c * b <? a + hu') in
  let lo := a / b in
  let r := a mod b in
  match inside lo, inside (lo + 1) with
  | true, true =>
      if 2 * r <? b then Some (lo, p)
      else if b <? 2 * r then Some (lo + 1, p)
      else Some (if Z.even lo then lo else lo + 1, p)
  | true, false => Some (lo, p)
  | false, true => Some (lo + 1, p)
  | false, false => None
  end.

Fixpoint shortest (m e k : Z) (n : Z) (fuel : nat) : Z * Z :=
  match fuel with
  | O => (m * 2 ^ Z.max e 0, 0)
  | S fuel' =>
      match short_candidate m e k n with
      | Some cp => cp
      | None => shortest m e k (n + 1) fuel'
      end
  end.

Fixpoint strip_zeros (c p : Z) (fuel : nat) : Z * Z :=
  match fuel with
  | O => (c, p)
  | S fuel' =>
      if (0 <? c) && (c mod 10 =? 0) then strip_zeros (c / 10) (p + 1) fuel'
      else (c, p)
  end.

Definition repr_finite (m e : Z) : string :=
  let k := floor_log10 m e in
  let '(c0, p0) := shortest m e k 1 17 in
  let '(c, p) := strip_zeros c0 p0 400 in
  let ds := digits_of c in
  let nd := Z.of_nat (String.length ds) in
  let decpt := nd + p in
  if (decpt <=? -4) || (16 <? decpt) then
    let x := decpt - 1 in
    let mant :=
      match ds with
      | String d EmptyString => ds
      | String d rest => String d (String "." rest)
      | EmptyString => ds
      end in
    let xs := digits_of (Z.abs x) in
    let xs2 := if Z.abs x <? 10 then String "0" xs else xs in
    mant ++ "e" ++ (if x <? 0 then "-" else "+") ++ xs2
  else if decpt <=? 0 then
    "0." ++ zeros (Z.to_nat (- decpt)) ++ ds
  else if decpt <? nd then
    substring 0 (Z.to_nat decpt) ds ++ "."
      ++ substring (Z.to_nat decpt) (Z.to_nat (nd - decpt)) ds
  else
    ds ++ zeros (Z.to_nat (decpt - nd)) ++ ".0".

Definition float_repr (x : float) : string :=
  match x with
  | S754_nan => "nan"
  | S754_infinity false => "inf"
  | S754_infinity true => "-inf"
  | S754_zero false => "0.0"
  | S754_zero true => "-0.0"
  | S754_finite s m e =>
      (if s then "-" else "") ++ repr_finite (Zpos m) e
  end.

End PyFloat.

(* ================================================================== *)
(** * [datetime.datetime.strptime] for the two formats the script uses *)
(* ================================================================== *)

Module PyDate.
Import PyStr.

Definition digit_val (c : ascii) : Z := code c - 48.

Definition in_range (lo hi c : ascii) : bool :=
  (code lo <=? code c) && (code c <=? code hi).

Definition is_leap (y : Z) : bool :=
  ((y mod 4 =? 0) && negb (y mod 100 =? 0)) || (y mod 400 =? 0).

Definition days_in_month (y m : Z) : Z :=
  if m =? 2 then (if is_leap y then 29 else 28)
  else if (m =? 4) || (m =? 6) || (m =? 9) || (m =? 11) then 30
  else 31.

(** What the [date] constructor accepts. *)
Definition valid_date (y m d : Z) : bool :=
  (1 <=? y) && (y <=? 9999) && (1 <=? m) && (m <=? 12)
  && (1 <=? d) && (d <=? days_in_month y m).

(** The directives are compiled to regular expressions whose
    alternatives are tried in order; [k] is the rest of the pattern. *)
Definition orelse {A} (x y : option A) : option A :=
  match x with Some _ => x | None => y end.

(** [%Y] is [\d\d\d\d]. *)
Definition re_Y {A} (s : string) (k : Z -> string -> option A) : option A :=
  match s with
  | String a (String b (String c (String d r))) =>
      if is_digit a && is_digit b && is_digit c && is_digit d
      then k (1000 * digit_val a + 100 * digit_val b + 10 * digit_val c + digit_val d) r
      else None
  | _ => None
  end.

(** A literal character of the format. *)
Definition re_lit {A} (x : ascii) (s : string) (k : string -> option A) : option A :=
  match s with
  | String c r => if Ascii.eqb c x then k r else None
  | EmptyString => None
  end.

(** One or two characters taken from given ranges. *)
Definition re_one {A} (lo hi : ascii) (s : string) (k : Z -> string -> option A) : option A :=
  match s with
  | String c r => if in_range lo hi c then k (digit_val c) r else None
  | EmptyString => None
  end.

Definition re_two {A} (lo1 hi1 lo2 hi2 : ascii) (s : string)
    (k : Z -> string -> option A) : option A :=
  match s with
  | String c1 (String c2 r) =>
      if in_range lo1 hi1 c1 && in_range lo2 hi2 c2
      then k (10 * digit_val c1 + digit_val c2) r else None
  | _ => None
  end.

(** [%m] is [1[0-2]|0[1-9]|[1-9]]. *)
Definition re_m {A} (s : string) (k : Z -> string -> option A) : option A :=
  orelse (re_two "1" "1" "0" "2" s k)
    (orelse (re_two "0" "0" "1" "9" s k)
       (re_one "1" "9" s k)).

(** [%d] is [3[0-1]|[1-2]\d|0[1-9]|[1-9]| [1-9]]. *)
Definition re_d {A} (s : string) (k : Z -> string -> option A) : option A :=
  orelse (re_two "3" "3" "0" "1" s k)
    (orelse (re_two "1" "2" "0" "9" s k)
       (orelse (re_two "0" "0" "1" "9" s k)
          (orelse (re_one "1" "9" s k)
             (re_lit " " s (fun r => re_one "1" "9" r k))))).

(** [strptime(s, '%Y-%m-%d')]: the pattern must match at the start,
    nothing may remain after the match, and the fields must form a
    date.  [None] stands for [ValueError]. *)
Definition strptime_ymd (s : string) : option (Z * Z * Z) :=
  match
    re_Y s (fun y r1 => re_lit "-" r1 (fun r2 =>
    re_m r2 (fun m r3 => re_lit "-" r3 (fun r4 =>
    re_d r4 (fun d r5 => Some (y, m, d, r5))))))
  with
  | Some (y, m, d, EmptyString) =>
      if valid_date y m d then Some (y, m, d) else None
  | _ => None
  end.

(** [strptime(s, '%Y-%m')]; the day defaults to 1. *)
Definition strptime_ym (s : string) : option (Z * Z) :=
  match
    re_Y s (fun y r1 => re_lit "-" r1 (fun r2 =>
    re_m r2 (fun m r3 => Some (y, m, r3))))
  with
  | Some (y, m, EmptyString) =>
      if valid_date y m 1 then Some (y, m) else None
  | _ => None
  end.

End PyDate.

(* ================================================================== *)
(** * Python dictionaries and [sorted] *)
(* ================================================================== *)

Module PyDict.
Section Dict.
Context {K V : Type}.
Variable keq : K -> K -> bool.

(** A dictionary keeps its keys in the order of their first
    insertion. *)
Definition dict := list (K * V).

Fixpoint get (d : dict) (k : K) : option V :=
  match d with
  | [] => None
  | (k', v) :: d' => if keq k' k then Some v else get d' k
  end.

(** [d[k] = v]: replaces the value of an existing key in place,
    appends a new key at the end. *)
Fixpoint set (d : dict) (k : K) (v : V) : dict :=
  match d with
  | [] => [(k, v)]
  | (k', v') :: d' =>
      if keq k' k then (k', v) :: d' else (k', v') :: set d' k v
  end.

(** [dict(pairs)] *)
Definition of_pairs (l : list (K * V)) : dict :=
  fold_left (fun d kv => set d (fst kv) (snd kv)) l [].

Definition keys (d : dict) : list K := map fst d.
End Dict.

Section Sorted.
Context {A : Type}.
Variable lt : A -> A -> bool.

(** [list.sort] compares with [<] only.  It first measures the run the
    list begins with ([count_run]): when the second item is below the
    first, the longest prefix in which every item is below the one
    before it, and otherwise the longest prefix in which no item is
    below the one before it. *)
Fixpoint ascending_run (prev : A) (l : list A) : list A * list A :=
  match l with
  | [] => ([], [])
  | x :: l' =>
      if lt x prev then ([], l)
      else let (run, rest) := ascending_run x l' in (x :: run, rest)
  end.

Fixpoint descending_run (prev : A) (l : list A) : list A * list A :=
  match l with
  | [] => ([], [])
  | x :: l' =>
      if lt x prev then
        let (run, rest) := descending_run x l' in (x :: run, rest)
      else ([], l)
  end.

(** The run, put in ascending order (a descending run is reversed in
    place), and the items behind it. *)
Definition count_run (l : list A) : list A * list A :=
  match l with
  | x :: y :: l' =>
      if lt y x then
        let (run, rest) := descending_run y l' in (rev (x :: y :: run), rest)
      else
        let (run, rest) := ascending_run y l' in (x :: y :: run, rest)
  | _ => (l, [])
  end.

(** [binarysort] then inserts the items behind the run one by one.  The
    place of [pivot] among the items [a] already in order is found by
    bisection: between [l] and [r], the middle item is compared with
    [pivot], and the search goes on below it when [pivot] is below it
    and above it otherwise. *)
Fixpoint bisect (steps : nat) (pivot : A) (a : list A) (l r : nat) : nat :=
  match steps with
  | O => l
  | S steps' =>
      if (l <? r)%nat then
        let p := (l + Nat.div2 (r - l))%nat in
        match nth_error a p with
        | Some x =>
            if lt pivot x then bisect steps' pivot a l p
            else bisect steps' pivot a (S p) r
        | None => l
        end
      else l
  end.

Definition insert_pivot (a : list A) (pivot : A) : list A :=
  let i := bisect (List.length a) pivot a 0 (List.length a) in
  (firstn i a ++ pivot :: skipn i a)%list.

Definition binarysort (run rest : list A) : list A :=
  fold_left insert_pivot rest run.

(** [l.sort()], as CPython (3.11) sorts a list of fewer than 64 items:
    the first run, then binary insertion of the rest.  This is followed
    to the letter because the outcome depends on it when [lt] does not
    order the items, as with a NaN among floats.  A list of 64 items or
    more is sorted in such runs, which are then merged; the sort being
    stable, that gives the same list as here whenever [lt] orders the
    items, and the merge of items that [lt] does not order is left
    out. *)
Definition list_sort (l : list A) : list A :=
  let (run, rest) := count_run l in binarysort run rest.

(** [sorted(l, reverse=True)] reverses the list, sorts it in ascending
    order and reverses the result. *)
Definition sorted_reverse (l : list A) : list A :=
  rev (list_sort (rev l)).
End Sorted.
End PyDict.

(* ================================================================== *)
(** * Text files and the [csv] module (dialect [excel]) *)
(* ================================================================== *)

Module Csv.

Definition CR : ascii := "013".
Definition LF : ascii := "010".
Definition quotechar : ascii := "034".
Definition delimiter : ascii := ",".

(** The line terminator the writer uses. *)
Definition lineterminator : string := String CR (String LF EmptyString).

(** ** Writer *)

(** A field is quoted when it holds the delimiter, the quote character
    or a character of the line terminator. *)
Definition special (c : ascii) : bool :=
  Ascii.eqb c delimiter || Ascii.eqb c quotechar
  || Ascii.eqb c CR || Ascii.eqb c LF.

Fixpoint needs_quotes (s : string) : bool :=
  match s with
  | EmptyString => false
  | String c s' => special c || needs_quotes s'
  end.

(** Inside quotes every quote character is written twice. *)
Fixpoint double_quotes (s : string) : string :=
  match s with
  | EmptyString => EmptyString
  | String c s' =>
      if Ascii.eqb c quotechar then String c (String c (double_quotes s'))
      else String c (double_quotes s')
  end.

Definition write_field (s : string) : string :=
  if needs_quotes s
  then String quotechar (double_quotes s ++ String quotechar EmptyString)
  else s.

Fixpoint join_fields (fs : list string) : string :=
  match fs with
  | [] => EmptyString
  | [f] => write_field f
  | f :: fs' => write_field f ++ String delimiter (join_fields fs')
  end.

(** [writer.writerow(fs)]: the text added to the file.  A row made of
    one empty field is written as a pair of quotes. *)
Definition writerow (fs : list string) : string :=
  match fs with
  | [EmptyString] => String quotechar (String quotechar lineterminator)
  | _ => join_fields fs ++ lineterminator
  end.

(** ** Reading a text file *)

(** A file opened for reading without [newline=''] is decoded with
    universal newlines: [CR LF] and a lone [CR] both arrive as [LF].
    [pending] tells that the previous character was a [CR]. *)
Fixpoint universal_newlines (pending : bool) (s : string) : string :=
  match s with
  | EmptyString => EmptyString
  | String c s' =>
      if Ascii.eqb c CR then String LF (universal_newlines true s')
      else if Ascii.eqb c LF then
        if pending then universal_newlines false s'
        else String LF (universal_newlines false s')
      else String c (universal_newlines false s')
  end.

(** Iterating over the file yields its lines, each with its newline. *)
Fixpoint lines (s : string) : list string :=
  match s with
  | EmptyString => []
  | String c s' =>
      if Ascii.eqb c LF then String c EmptyString :: lines s'
      else
        match lines s' with
        | [] => [String c EmptyString]
        | l :: ls => String c l :: ls
        end
  end.

(** ** Reader *)

Inductive parser_state :=
| START_RECORD | START_FIELD | IN_FIELD
| IN_QUOTED_FIELD | QUOTE_IN_QUOTED_FIELD | EAT_CRNL.

Record reader := mkReader {
  state : parser_state;
  field : string;
  fields : list string
}.

Definition fresh : reader := mkReader START_RECORD EmptyString [].

Definition parse_save_field (r : reader) : reader :=
  mkReader (state r) EmptyString (fields r ++ [field r]).

Definition parse_add_char (r : reader) (c : ascii) : reader :=
  mkReader (state r) (field r ++ String c EmptyString) (fields r).

Definition set_state (r : reader) (s : parser_state) : reader :=
  mkReader s (field r) (fields r).

Definition is_newline (c : ascii) : bool := Ascii.eqb c LF || Ascii.eqb c CR.

(** One step of the parser; [None] as character is the end of the
    line, [None] as result is [csv.Error]. *)
Definition start_field (r : reader) (c : option ascii) : option reader :=
  match c with
  | None => Some (set_state (parse_save_field r) START_RECORD)
  | Some ch =>
      if is_newline ch then Some (set_state (parse_save_field r) EAT_CRNL)
      else if Ascii.eqb ch quotechar then Some (set_state r IN_QUOTED_FIELD)
      else if Ascii.eqb ch delimiter then Some (parse_save_field r)
      else Some (set_state (parse_add_char r ch) IN_FIELD)
  end.

Definition parse_process_char (r : reader) (c : option ascii) : option reader :=
  match state r with
  | START_RECORD =>
      match c with
      | None => Some r
      | Some ch =>
          if is_newline ch then Some (set_state r EAT_CRNL)
          else start_field (set_state r START_FIELD) c
      end
  | START_FIELD => start_field r c
  | IN_FIELD =>
      match c with
      | None => Some (set_state (parse_save_field r) START_RECORD)
      | Some ch =>
          if is_newline ch then Some (set_state (parse_save_field r) EAT_CRNL)
          else if Ascii.eqb ch delimiter
          then Some (set_state (parse_save_field r) START_FIELD)
          else Some (parse_add_char r ch)
      end
  | IN_QUOTED_FIELD =>
      match c with
      | None => Some r
      | Some ch =>
          if Ascii.eqb ch quotechar then Some (set_state r QUOTE_IN_QUOTED_FIELD)
          else Some (parse_add_char r ch)
      end
  | QUOTE_IN_QUOTED_FIELD =>
      match c with
      | None => Some (set_state (parse_save_field r) START_RECORD)
      | Some ch =>
          if Ascii.eqb ch quotechar
          then Some (set_state (parse_add_char r ch) IN_QUOTED_FIELD)
          else if Ascii.eqb ch delimiter
          then Some (set_state (parse_save_field r) START_FIELD)
          else if is_newline ch
          then Some (set_state (parse_save_field r) EAT_CRNL)
          else Some (set_state (parse_add_char r ch) IN_FIELD)
      end
  | EAT_CRNL =>
      match c with
      | None => Some (set_state r START_RECORD)
      | Some ch => if is_newline ch then Some r else None
      end
  end.

(** The characters of one line, then the end of the line. *)
Fixpoint feed_line (r : reader) (line : string) : option reader :=
  match line with
  | EmptyString => parse_process_char r None
  | String c line' =>
      match parse_process_char r (Some c) with
      | Some r' => feed_line r' line'
      | None => None
      end
  end.

Definition at_start (r : reader) : bool :=
  match state r with START_RECORD => true | _ => false end.

Definition in_quotes (r : reader) : bool :=
  match state r with IN_QUOTED_FIELD => true | _ => false end.

(** The records of the reader: lines are consumed until the parser is
    back at the start of a record; when the input ends inside a quoted
    field the unfinished record is returned. *)
Fixpoint read_records (r : reader) (ls : list string) : option (list (list string)) :=
  match ls with
  | [] => if in_quotes r then Some [fields (parse_save_field r)] else Some []
  | l :: ls' =>
      match feed_line r l with
      | None => None
      | Some r' =>
          if at_start r'
          then option_map (cons (fields r')) (read_records fresh ls')
          else read_records r' ls'
      end
  end.

(** [csv.reader(f)] on a file opened with [open(name, 'r')].  The limit
    the module puts on the size of a field (131072 characters) and the
    refusal of NUL characters by older versions are left out. *)
Definition reader_of_file (content : string) : option (list (list string)) :=
  read_records fresh (lines (universal_newlines false content)).

(** ** DictReader *)

(** A cell of a row is a string, or [None] when the line was short. *)
Definition cell := option string.
Definition row := @PyDict.dict string cell.

Fixpoint zip_row (names : list string) (values : list string) : list (string * cell) :=
  match names with
  | [] => []
  | n :: names' =>
      match values with
      | [] => (n, None) :: zip_row names' []
      | v :: values' => (n, Some v) :: zip_row names' values'
      end
  end.

Definition is_empty {A} (l : list A) : bool :=
  match l with [] => true | _ => false end.

(** The first record gives the field names; empty records are skipped;
    every other record becomes a dictionary, the missing cells of a
    short record being [None].  (The surplus cells of a long record go
    under the key [None], which the script never looks up; they are
    left out.) *)
Definition dict_rows (records : list (list string)) : list row :=
  match records with
  | [] => []
  | names :: rest =>
      map (fun values => PyDict.of_pairs String.eqb (zip_row names values))
          (filter (fun values => negb (is_empty values)) rest)
  end.

End Csv.

(* ================================================================== *)
(** * The script *)
(* ================================================================== *)

Module Todo.
Import PyStr PyFloat PyDate Csv.

(** The one file the script touches; the world below holds its
    content. *)
Definition FILE_NAME : string := "expenses.csv".

Definition FIELD_NAMES : list string :=
  ["Date"; "Category"; "Amount"; "Description"].

(** ** The world the script runs in *)

Inductive exn :=
| ValueError | KeyError | AttributeError | TypeError
| EOFError | FileNotFoundError | CsvError.

(** A printed line.  Fixed texts are told apart by name; lines that
    show data carry the data shown (amounts before their formatting
    with two decimals). *)
Inductive message :=
| MsgInitialized
| MsgAddTitle | MsgInvalidDate | MsgAmountNotPositive | MsgInvalidAmount
| MsgAdded
| MsgViewTitle | MsgNoneRecorded | MsgNoneFound
| MsgExpense (date category : cell) (amount : float) (description : cell)
| MsgSearchTitle | MsgSearchResults | MsgNoMatching
| MsgSummaryTitle | MsgInvalidMonth
| MsgNoExpensesFor (month : string)
| MsgSummaryFor (month : string)
| MsgTotal (total : float)
| MsgByCategoryTitle
| MsgCategory (category : cell) (total : float)
| MsgTopTitle | MsgNotEnoughData
| MsgTop (rank : nat) (category : cell) (total : float)
| MsgMenu | MsgGoodbye | MsgInvalidChoice.

(** [file] is the content of [expenses.csv], [None] while the file does
    not exist; [stdin] holds the lines [input()] will return; [stdout]
    the lines printed so far (prompts are not recorded). *)
Record world := mkWorld {
  file : option string;
  stdin : list string;
  stdout : list message
}.

Inductive outcome (A : Type) :=
| Ok (a : A)
| Raise (e : exn).
Arguments Ok {A} a.
Arguments Raise {A} e.

Definition io (A : Type) : Type := world -> outcome A * world.

Definition ret {A} (a : A) : io A := fun w => (Ok a, w).

Definition raise {A} (e : exn) : io A := fun w => (Raise e, w).

Definition bind {A B} (m : io A) (k : A -> io B) : io B :=
  fun w =>
    match m w with
    | (Ok a, w') => k a w'
    | (Raise e, w') => (Raise e, w')
    end.

Notation "x <- m ;; k" := (bind m (fun x => k))
  (at level 61, m at next level, right associativity).
Notation "m ;;; k" := (bind m (fun _ => k))
  (at level 61, right associativity).

Definition print (m : message) : io unit :=
  fun w => (Ok tt, mkWorld (file w) (stdin w) (stdout w ++ [m])).

(** [input()]: the next line, [EOFError] when there is none. *)
Definition input : io string :=
  fun w =>
    match stdin w with
    | [] => (Raise EOFError, w)
    | l :: rest => (Ok l, mkWorld (file w) rest (stdout w))
    end.

Definition lift {A} (o : outcome A) : io A := fun w => (o, w).

Fixpoint for_each {A} (l : list A) (body : A -> io unit) : io unit :=
  match l with
  | [] => ret tt
  | x :: l' => body x ;;; for_each l' body
  end.

(** [os.path.exists(FILE_NAME)] *)
Definition path_exists : io bool :=
  fun w => (Ok (match file w with Some _ => true | None => false end), w).

(** [not os.path.exists(FILE_NAME) or os.stat(FILE_NAME).st_size == 0] *)
Definition missing_or_empty : io bool :=
  fun w =>
    (Ok (match file w with
         | None => true
         | Some EmptyString => true
         | Some _ => false
         end), w).

(** [open(FILE_NAME, 'w', newline='')] followed by one write. *)
Definition write_new_file (text : string) : io unit :=
  fun w => (Ok tt, mkWorld (Some text) (stdin w) (stdout w)).

(** [open(FILE_NAME, 'a', newline='')] followed by one write; the file
    is created when it does not exist. *)
Definition append_to_file (text : string) : io unit :=
  fun w =>
    (Ok tt,
     mkWorld (Some (match file w with
                    | Some old => old ++ text
                    | None => text
                    end))
             (stdin w) (stdout w)).

(** [open(FILE_NAME, 'r')] and [csv.DictReader(f)], read to the end. *)
Definition read_rows : io (list row) :=
  fun w =>
    match file w with
    | None => (Raise FileNotFoundError, w)
    | Some content =>
        match reader_of_file content with
        | Some records => (Ok (dict_rows records), w)
        | None => (Raise CsvError, w)
        end
    end.

(** [row[key]] *)
Definition getitem (r : row) (key : string) : outcome cell :=
  match PyDict.get String.eqb r key with
  | Some v => Ok v
  | None => Raise KeyError
  end.

(** [float(v)] for a cell *)
Definition float_of_cell (v : cell) : outcome float :=
  match v with
  | None => Raise TypeError
  | Some s =>
      match float_of_string s with
      | Some x => Ok x
      | None => Raise ValueError
      end
  end.

Definition obind {A B} (o : outcome A) (k : A -> outcome B) : outcome B :=
  match o with
  | Ok a => k a
  | Raise e => Raise e
  end.

(** ** [init_file] *)

Definition init_file : io unit :=
  e <- path_exists ;;
  if negb e then
    write_new_file (writerow FIELD_NAMES) ;;;
    print MsgInitialized
  else ret tt.

(** ** [add_expense] *)

(** The record built from the validated input. *)
Record expense := mkExpense {
  Date : string;
  Category : string;
  Amount : float;
  Description : string
}.

(** First loop: lines are read until one is accepted by
    [strptime(_, '%Y-%m-%d')]. *)
Fixpoint read_date (ins : list string) (out : list message)
  : outcome string * list string * list message :=
  match ins with
  | [] => (Raise EOFError, [], out)
  | l :: ins' =>
      match strptime_ymd l with
      | Some _ => (Ok l, ins', out)
      | None => read_date ins' (out ++ [MsgInvalidDate])
      end
  end.

(** Second loop: lines are read until one converts to a float that is
    not [<= 0]. *)
Fixpoint read_amount (ins : list string) (out : list message)
  : outcome float * list string * list message :=
  match ins with
  | [] => (Raise EOFError, [], out)
  | l :: ins' =>
      match float_of_string l with
      | Some amount =>
          if leb amount zero
          then read_amount ins' (out ++ [MsgAmountNotPositive])
          else (Ok amount, ins', out)
      | None => read_amount ins' (out ++ [MsgInvalidAmount])
      end
  end.

Definition input_loop {A}
    (loop : list string -> list message -> outcome A * list string * list message)
  : io A :=
  fun w =>
    let '(r, ins, out) := loop (stdin w) (stdout w) in
    (r, mkWorld (file w) ins out).

Definition new_expense (date_str : string) (amount : float)
    (category description : string) : expense :=
  mkExpense date_str (capitalize category) amount description.

(** [DictWriter.writerow]: the values in the order of [FIELD_NAMES],
    the float through [str]. *)
Definition expense_cells (e : expense) : list string :=
  [Date e; Category e; float_repr (Amount e); Description e].

Definition add_expense : io unit :=
  print MsgAddTitle ;;;
  date_str <- input_loop read_date ;;
  amount <- input_loop read_amount ;;
  category <- input ;;
  description <- input ;;
  append_to_file
    (writerow (expense_cells (new_expense date_str amount category description))) ;;;
  print MsgAdded.

(** ** [view_expenses] *)

(** The line printed for one row; the four look-ups and the conversion
    of the amount happen before anything is printed. *)
Definition expense_line (r : row) : outcome message :=
  obind (getitem r "Date") (fun d =>
  obind (getitem r "Category") (fun c =>
  obind (getitem r "Amount") (fun a =>
  obind (float_of_cell a) (fun x =>
  obind (getitem r "Description") (fun desc =>
  Ok (MsgExpense d c x desc)))))).

Definition print_expense (r : row) : io unit :=
  m <- lift (expense_line r) ;; print m.

Definition view_expenses : io unit :=
  print MsgViewTitle ;;;
  none <- missing_or_empty ;;
  if none then print MsgNoneRecorded
  else
    data <- read_rows ;;
    if is_empty data then print MsgNoneFound
    else for_each data print_expense.

(** ** [search_expenses] *)

Definition cell_eqb (a b : cell) : bool :=
  match a, b with
  | Some x, Some y => String.eqb x y
  | None, None => true
  | _, _ => false
  end.

(** [v.lower()] on a cell; [None] has no such method. *)
Definition cell_lower (v : cell) : outcome string :=
  match v with
  | Some s => Ok (lower s)
  | None => Raise AttributeError
  end.

(** The test made on one row; the second comparison is only evaluated
    when the first branch is not taken. *)
Definition row_matches (search_by search_term : string) (r : row) : outcome bool :=
  obind (if String.eqb search_by "date"
         then obind (getitem r "Date") (fun d => Ok (cell_eqb d (Some search_term)))
         else Ok false)
    (fun by_date =>
       if by_date then Ok true
       else if String.eqb search_by "category"
       then obind (getitem r "Category") (fun c =>
            obind (cell_lower c) (fun lc =>
            Ok (String.eqb lc (lower search_term))))
       else Ok false).

(** The loop that fills [found_expenses]. *)
Fixpoint search_loop (search_by search_term : string) (rows : list row)
    (found_expenses : list row) : outcome (list row) :=
  match rows with
  | [] => Ok found_expenses
  | r :: rows' =>
      obind (row_matches search_by search_term r) (fun hit =>
        search_loop search_by search_term rows'
          (if hit then found_expenses ++ [r] else found_expenses))
  end.

Definition search_expenses : io unit :=
  print MsgSearchTitle ;;;
  none <- missing_or_empty ;;
  if none then print MsgNoneRecorded
  else
    answer <- input ;;
    let search_by := lower answer in
    search_term <- input ;;
    rows <- read_rows ;;
    found_expenses <- lift (search_loop search_by search_term rows []) ;;
    if negb (is_empty found_expenses) then
      print MsgSearchResults ;;;
      for_each found_expenses print_expense
    else print MsgNoMatching.

(** ** [get_monthly_summary] *)

Definition totals := @PyDict.dict cell float.

(** [v.startswith(p)] on a cell *)
Definition cell_startswith (v : cell) (p : string) : outcome bool :=
  match v with
  | Some s => Ok (startswith s p)
  | None => Raise AttributeError
  end.

(** [category_totals[category] += amount] on a [defaultdict(float)] *)
Definition add_to (d : totals) (category : cell) (amount : float) : totals :=
  let old := match PyDict.get cell_eqb d category with
             | Some t => t
             | None => zero
             end in
  PyDict.set cell_eqb d category (add old amount).

(** The loop that accumulates [monthly_total] and [category_totals]. *)
Fixpoint summary_loop (month_year_str : string) (rows : list row)
    (monthly_total : float) (category_totals : totals)
  : outcome (float * totals) :=
  match rows with
  | [] => Ok (monthly_total, category_totals)
  | r :: rows' =>
      obind (getitem r "Date") (fun d =>
      obind (cell_startswith d month_year_str) (fun hit =>
        if hit then
          obind (getitem r "Amount") (fun a =>
          obind (float_of_cell a) (fun amount =>
          obind (getitem r "Category") (fun category =>
            summary_loop month_year_str rows'
              (add monthly_total amount)
              (add_to category_totals category amount))))
        else summary_loop month_year_str rows' monthly_total category_totals))
  end.

(** The key of the ranking is the subtotal. *)
Definition by_total (a b : cell * float) : bool := ltb (snd a) (snd b).

Definition sorted_categories (category_totals : totals) : list (cell * float) :=
  PyDict.sorted_reverse by_total category_totals.

(** [enumerate(l)], from [i]. *)
Fixpoint enumerate {A} (i : nat) (l : list A) : list (nat * A) :=
  match l with
  | [] => []
  | x :: l' => (i, x) :: enumerate (S i) l'
  end.

(** What is printed once the totals are known. *)
Definition report (month_year_str : string) (monthly_total : float)
    (category_totals : totals) : io unit :=
  if eqb monthly_total zero then print (MsgNoExpensesFor month_year_str)
  else
    print (MsgSummaryFor month_year_str) ;;;
    print (MsgTotal monthly_total) ;;;
    print MsgByCategoryTitle ;;;
    for_each category_totals (fun ct => print (MsgCategory (fst ct) (snd ct))) ;;;
    let sorted := sorted_categories category_totals in
    print MsgTopTitle ;;;
    (if (List.length sorted <? 3)%nat then print MsgNotEnoughData else ret tt) ;;;
    for_each (enumerate 0 (firstn 3 sorted))
      (fun it => print (MsgTop (fst it + 1) (fst (snd it)) (snd (snd it)))).

Definition get_monthly_summary : io unit :=
  print MsgSummaryTitle ;;;
  none <- missing_or_empty ;;
  if none then print MsgNoneRecorded
  else
    month_year_str <- input ;;
    match strptime_ym month_year_str with
    | None => print MsgInvalidMonth
    | Some _ =>
        rows <- read_rows ;;
        sums <- lift (summary_loop month_year_str rows zero []) ;;
        report month_year_str (fst sums) (snd sums)
    end.

(** ** [main] *)

(** One turn of the menu loop; [again] is the rest of the loop, which
    only the choice 5 leaves. *)
Definition menu_turn (again : io unit) : io unit :=
  print MsgMenu ;;;
  choice <- input ;;
  if String.eqb choice "1" then add_expense ;;; again
  else if String.eqb choice "2" then view_expenses ;;; again
  else if String.eqb choice "3" then search_expenses ;;; again
  else if String.eqb choice "4" then get_monthly_summary ;;; again
  else if String.eqb choice "5" then print MsgGoodbye
  else print MsgInvalidChoice ;;; again.

(** The menu loop.  Every turn reads at least one line, so a number of
    turns above the number of lines left is never exhausted. *)
Fixpoint main_loop (turns : nat) : io unit :=
  match turns with
  | O => raise EOFError
  | S turns' => menu_turn (main_loop turns')
  end.

Definition main : io unit :=
  fun w => (init_file ;;; main_loop (S (List.length (stdin w)))) w.

(** ** Stored records, as the specification speaks of them *)

(** A stored record: the four cells of a data line of the file. *)
Record stored := mkStored {
  sDate : string;
  sCategory : string;
  sAmount : string;
  sDescription : string
}.

(** The dictionary [DictReader] builds for it under the header of
    [init_file]. *)
Definition row_of (s : stored) : row :=
  [("Date", Some (sDate s)); ("Category", Some (sCategory s));
   ("Amount", Some (sAmount s)); ("Description", Some (sDescription s))].

Definition stored_cells (s : stored) : list string :=
  [sDate s; sCategory s; sAmount s; sDescription s].

Definition stored_of (e : expense) : stored :=
  mkStored (Date e) (Category e) (float_repr (Amount e)) (Description e).

End Todo.

(* ================================================================== *)
(** * Notions used in the statements *)
(* ================================================================== *)

Import PyStr PyFloat PyDate Csv Todo.

(** The world after one more printed line. *)
Definition say (w : world) (ms : list message) : world :=
  mkWorld (file w) (stdin w) (stdout w ++ ms).

(** The header line [init_file] writes. *)
Definition header_text : string := writerow FIELD_NAMES.

(** A carriage return inside a line of input. *)
Definition text_with_cr : string := String "a" (String CR (String "b" EmptyString)).
Definition text_with_lf : string := String "a" (String LF (String "b" EmptyString)).

(** An action that leaves the backing file as it found it, whatever it
    returns or raises. *)
Definition keeps_file {A} (m : io A) : Prop :=
  forall w, file (snd (m w)) = file w.

(** The text [add_expense] appends for the record it built. *)
Definition row_text (e : expense) : string := writerow (expense_cells e).

(** Equality of two texts up to the case of their letters, as the
    category search compares them. *)
Definition same_ignoring_case (a b : string) : Prop := lower a = lower b.

(** A line as the iteration over a text file yields it: no newline
    character before its last character. *)
Fixpoint line_ok (l : string) : bool :=
  match l with
  | EmptyString => true
  | String c EmptyString => true
  | String c l' => negb (is_newline c) && line_ok l'
  end.

Definition no_cr (s : string) : bool :=
  all_chars (fun c => negb (Ascii.eqb c CR)) s.

Definition not_eating (r : reader) : bool :=
  match state r with EAT_CRNL => false | _ => true end.

Definition between_lines (r : reader) : bool := at_start r || in_quotes r.

(** The amount of a stored record, as [float] reads it from the file. *)
Definition amount_of (s : stored) : float :=
  match float_of_string (sAmount s) with
  | Some x => x
  | None => zero
  end.

Definition category_of (s : stored) : cell := Some (sCategory s).

(** The records of a month: those whose date begins with the text
    given. *)
Definition in_month (month : string) (s : stored) : bool :=
  startswith (sDate s) month.

(** A sum as the script accumulates it: from [0.0], left to right. *)
Definition fsum (l : list float) : float := fold_left add l zero.

(** The distinct elements of a list in the order of their first
    occurrence. *)
Definition see (seen : list cell) (c : cell) : list cell :=
  if existsb (cell_eqb c) seen then seen else seen ++ [c].

Definition first_seen (l : list cell) : list cell := fold_left see l [].

(** The three records of the specification's example. *)
Definition example_records : list stored :=
  [mkStored "2025-09-01" "Food" "10.00" "groceries";
   mkStored "2025-09-02" "Transport" "5.00" "bus";
   mkStored "2025-10-01" "Food" "99.00" "dinner"].

(** Three records of one month, the second with the amount nan, as
    [add_expense] writes them. *)
Definition nan_records : list stored :=
  [mkStored "2025-09-01" "A" "1.0" "x";
   mkStored "2025-09-02" "B" "nan" "y";
   mkStored "2025-09-03" "C" "2.0" "z"].

(** The totals after the loop has gone through a list of selected
    records, from given totals. *)
Definition accumulate (sel : list stored) (d : totals) : totals :=
  fold_left (fun d s => add_to d (category_of s) (amount_of s)) sel d.

(** ** Order *)

(** No element is followed by one that is below it. *)
Definition ascending_by {A} (lt : A -> A -> bool) : list A -> Prop :=
  StronglySorted (fun a b => lt b a = false).

(** Plain insertion sort, the yardstick for [list.sort]: every item is
    put behind the items that are not greater. *)
Fixpoint insert_asc {A} (lt : A -> A -> bool) (x : A) (l : list A) : list A :=
  match l with
  | [] => [x]
  | y :: l' => if lt x y then x :: y :: l' else y :: insert_asc lt x l'
  end.

Definition sort_asc {A} (lt : A -> A -> bool) (l : list A) : list A :=
  fold_left (fun acc x => insert_asc lt x acc) l [].

(** ** Order of floats *)

(** A float that is a number is placed by a triple ordered
    lexicographically: the sign class, then exponent and mantissa. *)
Definition order_key (x : float) : Z * Z * Z :=
  match x with
  | S754_zero _ => (0, 0, 0)
  | S754_nan => (0, 0, 0)
  | S754_infinity false => (2, 0, 0)
  | S754_infinity true => (-2, 0, 0)
  | S754_finite false m e => (1, e, Zpos m)
  | S754_finite true m e => (-1, - e, Zneg m)
  end.

Definition key_lt (a b : Z * Z * Z) : Prop :=
  let '(a1, a2, a3) := a in
  let '(b1, b2, b3) := b in
  a1 < b1 \/ (a1 = b1 /\ (a2 < b2 \/ (a2 = b2 /\ a3 < b3))).

(** Two subtotals neither of which is below the other. *)
Definition tie (x y : float) : bool := negb (ltb x y) && negb (ltb y x).

Definition tied_with (x : float) (it : cell * float) : bool := tie x (snd it).

(** From the largest subtotal down: no category is followed by one
    with a larger subtotal. *)
Definition descending (l : list (cell * float)) : Prop :=
  StronglySorted (fun a b => ltb (snd a) (snd b) = false) l.

Definition is_number (it : cell * float) : Prop := is_nan (snd it) = false.

(** [ranking] ranks the categories [cats]: it holds the same
    categories with the same subtotals, from the largest subtotal down,
    and categories with equal subtotals come in the order they have in
    [cats], which is the order in which they were first met. *)
Definition ranks (ranking cats : list (cell * float)) : Prop :=
  Permutation ranking cats
  /\ descending ranking
  /\ (forall x, is_nan x = false ->
                filter (tied_with x) ranking = filter (tied_with x) cats).

(** The lines under the title of the top categories, for a ranking:
    the first three with their ranks, and the notice before them when
    there are fewer than three. *)
Definition top_section (ranking : list (cell * float)) : list message :=
  match ranking with
  | [] => [MsgNotEnoughData]
  | [a] => [MsgNotEnoughData; MsgTop 1 (fst a) (snd a)]
  | [a; b] =>
      [MsgNotEnoughData; MsgTop 1 (fst a) (snd a); MsgTop 2 (fst b) (snd b)]
  | a :: b :: c :: _ =>
      [MsgTop 1 (fst a) (snd a); MsgTop 2 (fst b) (snd b);
       MsgTop 3 (fst c) (snd c)]
  end.

Definition category_lines (l : list (cell * float)) : list message :=
  map (fun ct => MsgCategory (fst ct) (snd ct)) l.

(** Everything the report prints when the total is not zero, with the
    categories in first-seen order and under a given ranking. *)
Definition full_report (month : string) (total : float)
    (cats ranking : list (cell * float)) : list message :=
  [MsgSummaryFor month; MsgTotal total; MsgByCategoryTitle]
  ++ category_lines cats
  ++ [MsgTopTitle]
  ++ top_section ranking.

(** ** Positive floats *)

(** The exponent of a finite float is not below the smallest one of the
    format; every float that comes out of a rounding is so. *)
Definition well_scaled (x : float) : Prop :=
  match x with
  | S754_finite _ _ e => emin prec emax <= e
  | _ => True
  end.

(** A float strictly above zero. *)
Definition above_zero (x : float) : Prop := ltb zero x = true /\ well_scaled x.

(** The data-model invariant on a stored amount: its text reads as a
    float strictly greater than zero. *)
Definition positive_amount (s : stored) : Prop :=
  exists a, float_of_string (sAmount s) = Some a /\ ltb zero a = true.

(** ** The record store as text *)

(** The parser run over decoded text: after every line feed the end of
    the line is processed, and a record is given out when the parser is
    back at the start of a record.  Returns the records given out and
    the parser as it stands. *)
Fixpoint run (r : reader) (t : string) : option (list (list string) * reader) :=
  match t with
  | EmptyString => Some ([], r)
  | String c t' =>
      match parse_process_char r (Some c) with
      | None => None
      | Some r1 =>
          if Ascii.eqb c LF then
            match parse_process_char r1 None with
            | None => None
            | Some r2 =>
                if at_start r2
                then option_map (fun out => (fields r2 :: fst out, snd out)) (run fresh t')
                else run r2 t'
            end
          else run r1 t'
      end
  end.

(** A text as it comes back from the file. *)
Definition decoded (s : string) : string := universal_newlines false s.

Definition read_back (s : stored) : stored :=
  mkStored (decoded (sDate s)) (decoded (sCategory s))
           (decoded (sAmount s)) (decoded (sDescription s)).

(** The lines of the records of a store, in the order of insertion, and
    the whole file after [init_file] and these insertions. *)
Fixpoint rows_text (recs : list stored) : string :=
  match recs with
  | [] => EmptyString
  | s :: recs' => writerow (stored_cells s) ++ rows_text recs'
  end.

Definition file_text (recs : list stored) : string := header_text ++ rows_text recs.

(** No carriage return in any text of the record. *)
Definition cr_free (s : stored) : Prop :=
  no_cr (sDate s) = true /\ no_cr (sCategory s) = true
  /\ no_cr (sAmount s) = true /\ no_cr (sDescription s) = true.

(** The line [view_expenses] and [search_expenses] print for a stored
    record. *)
Definition shown (s : stored) : message :=
  MsgExpense (Some (sDate s)) (Some (sCategory s)) (amount_of s)
             (Some (sDescription s)).

(** An action that never leaves more lines of input than it found. *)
Definition uses_input {A} (m : io A) : Prop :=
  forall w, (List.length (stdin (snd (m w))) <= List.length (stdin w))%nat.

(** ** Notions for the remaining paths of the script *)

(** A line the date prompt turns down, and one the amount prompt turns
    down, with the message the latter gets. *)
Definition date_rejected (l : string) : bool :=
  match strptime_ymd l with Some _ => false | None => true end.

Definition amount_rejected (l : string) : bool :=
  match float_of_string l with
  | Some x => leb x zero
  | None => true
  end.

Definition amount_message (l : string) : message :=
  match float_of_string l with
  | Some _ => MsgAmountNotPositive
  | None => MsgInvalidAmount
  end.

(** The content of the file after an append. *)
Definition appended_to (old : option string) (text : string) : string :=
  match old with
  | Some content => content ++ text
  | None => text
  end.

(** The lines written for a list of records, one after the other. *)
Fixpoint rows_of_expenses (es : list expense) : string :=
  match es with
  | [] => EmptyString
  | e :: es' => row_text e ++ rows_of_expenses es'
  end.

(** What the file holds once [main] has called [init_file]. *)
Definition initial_content (w : world) : string :=
  match file w with
  | Some content => content
  | None => header_text
  end.

(** The test of the search on a stored record, by mode. *)
Definition selects (search_by term : string) (s : stored) : bool :=
  if String.eqb search_by "date" then String.eqb (sDate s) term
  else if String.eqb search_by "category"
       then String.eqb (lower (sCategory s)) (lower term)
       else false.

(** The row [DictReader] builds for a line that holds a date and nothing
    else. *)
Definition short_row (d : string) : row :=
  PyDict.of_pairs String.eqb (zip_row FIELD_NAMES [d]).

(** The answers typed for one entry, and the menu lines that enter it. *)
Record typed := mkTyped {
  tDate : string;
  tAmount : string;
  tCategory : string;
  tDescription : string
}.

Definition typed_ok (e : typed) : Prop :=
  strptime_ymd (tDate e) <> None
  /\ exists x, float_of_string (tAmount e) = Some x /\ leb x zero = false.

Definition typed_lines (e : typed) : list string :=
  ["1"; tDate e; tAmount e; tCategory e; tDescription e].

(** The record [add_expense] stores for these answers. *)
Definition typed_record (e : typed) : stored :=
  mkStored (tDate e) (capitalize (tCategory e))
           (match float_of_string (tAmount e) with
            | Some x => float_repr x
            | None => EmptyString
            end)
           (tDescription e).

(** The last line printed. *)
Definition ends_with (m : message) (out : list message) : Prop :=
  exists before, out = (before ++ [m])%list.

(** A record as [add_expense] can write it: the date passed [strptime],
    the amount passed the test [amount <= 0] (so it is above zero, or
    not a number), and the category is a capitalized text. *)
Definition checked (e : expense) : Prop :=
  strptime_ymd (Date e) <> None
  /\ (ltb zero (Amount e) = true \/ is_nan (Amount e) = true)
  /\ exists c, Category e = capitalize c.

(** What one accepted entry prints between two menus. *)
Definition entry_messages (e : typed) : list message :=
  [MsgMenu; MsgAddTitle; MsgAdded].

(* ================================================================== *)
(** * Properties of Entry Capture *)
(* ================================================================== *)

Lemma capitalize_foOD : capitalize "foOD" = "Food".
Proof. reflexivity. Qed.

(** The case mappings move a letter by 32 and leave every other
    character alone. *)
Lemma lower_char_spec (c : ascii) :
  code (lower_char c) = if is_upper c then code c + 32 else code c.
Proof.
  unfold lower_char. destruct (is_upper c) eqn:E; [|reflexivity].
  unfold is_upper in E. apply andb_true_iff in E. destruct E as [H1 H2].
  apply Z.leb_le in H1, H2. unfold chr, code in *.
  rewrite N_ascii_embedding; lia.
Qed.

Lemma upper_char_spec (c : ascii) :
  code (upper_char c) = if is_lower c then code c - 32 else code c.
Proof.
  unfold upper_char. destruct (is_lower c) eqn:E; [|reflexivity].
  unfold is_lower in E. apply andb_true_iff in E. destruct E as [H1 H2].
  apply Z.leb_le in H1, H2. unfold chr, code in *.
  rewrite N_ascii_embedding; lia.
Qed.

(** The two checks of Entry Capture on sample input. *)
Example dates_accepted_and_rejected :
  strptime_ymd "2025-09-15" = Some (2025, 9, 15)
  /\ strptime_ymd "2025-13-01" = None
  /\ strptime_ymd "09-15-2025" = None
  /\ strptime_ymd "2025-02-30" = None
  /\ strptime_ymd "2024-02-29" = Some (2024, 2, 29)
  /\ strptime_ymd "2025-9-5" = Some (2025, 9, 5)
  /\ strptime_ymd "2025-09- 5" = Some (2025, 9, 5)
  /\ strptime_ymd "0000-01-01" = None.
Proof. vm_compute. repeat split. Qed.

Example amounts_accepted_and_rejected :
  read_amount ["-5"; "abc"; "0"; "5.5"; "next"] []
  = (Ok (of_decimal false 55 (-1)), ["next"],
     [MsgAmountNotPositive; MsgInvalidAmount; MsgAmountNotPositive]).
Proof. vm_compute. reflexivity. Qed.

(** [float] skips TAB to CR and SPACE at both ends, and nothing else:
    a text that begins with the separator FS is refused. *)
Example float_white_space :
  float_of_string (String (chr 11) "5 ") = Some (of_Z 5)
  /\ float_of_string (String (chr 28) "5") = None
  /\ float_of_string (String (chr 28) "-5") = None
  /\ read_amount [String (chr 28) "-5"; "5"] []
     = (Ok (of_Z 5), [], [MsgInvalidAmount]).
Proof. vm_compute. repeat split. Qed.

Example float_texts :
  map (fun s => option_map float_repr (float_of_string s))
      ["5.5"; "10.00"; "1e16"; "0.1"; " 1_000.5 "; "inf"; "NaN"; "1e"; "abc"]
  = [Some "5.5"; Some "10.0"; Some "1e+16"; Some "0.1"; Some "1000.5";
     Some "inf"; Some "nan"; None; None].
Proof. vm_compute. reflexivity. Qed.

(** What [add_expense] does on four lines of input of which the first is
    an accepted date and the second an accepted amount. *)
Lemma add_expense_accepts (old : option string) (ins : list string)
    (out : list message) (d a c t : string) (x : float) :
  strptime_ymd d <> None ->
  float_of_string a = Some x ->
  leb x zero = false ->
  add_expense (mkWorld old (d :: a :: c :: t :: ins) out)
  = (Ok tt,
     mkWorld
       (Some (match old with
              | Some content =>
                  content ++ writerow [d; capitalize c; float_repr x; t]
              | None => writerow [d; capitalize c; float_repr x; t]
              end))
       ins (out ++ [MsgAddTitle] ++ [MsgAdded])).
Proof.
  intros Hd Ha Hx.
  unfold add_expense, bind, print, input_loop, input, append_to_file.
  cbn [file stdin stdout read_date].
  destruct (strptime_ymd d) as [ymd|]; [|congruence].
  cbn [file stdin stdout read_amount]. rewrite Ha, Hx.
  cbn [file stdin stdout new_expense expense_cells Date Category Amount Description].
  rewrite <- app_assoc. reflexivity.
Qed.

(** C1 (as amended): the category stored by [add_expense] is the typed
    text with its first character upper-cased and every other character
    lower-cased; the row written holds that text as its second cell. *)
Theorem category_is_capitalized (old : string) (ins : list string)
    (out : list message) (d a c t : string) (x : float) :
  strptime_ymd d <> None ->
  float_of_string a = Some x ->
  leb x zero = false ->
  let stored_category :=
    match c with
    | EmptyString => EmptyString
    | String first rest => String (upper_char first) (lower rest)
    end in
  Category (new_expense d x c t) = stored_category
  /\ add_expense (mkWorld (Some old) (d :: a :: c :: t :: ins) out)
     = (Ok tt,
        mkWorld (Some (old ++ writerow [d; stored_category; float_repr x; t]))
                ins (out ++ [MsgAddTitle; MsgAdded])).
Proof.
  intros Hd Ha Hx stored_category.
  split; [reflexivity|].
  now rewrite (add_expense_accepts (Some old) ins out d a c t x Hd Ha Hx).
Qed.

Lemma category_is_capitalized_witness :
  Category (new_expense "2025-09-15" (of_decimal false 55 (-1)) "foOD" "lunch") = "Food"
  /\ add_expense (mkWorld (Some header_text) ["2025-09-15"; "5.5"; "foOD"; "lunch"] [])
     = (Ok tt,
        mkWorld (Some (header_text ++ writerow ["2025-09-15"; "Food"; "5.5"; "lunch"]))
                [] [MsgAddTitle; MsgAdded]).
Proof.
  apply (category_is_capitalized header_text [] [] "2025-09-15" "5.5" "foOD" "lunch"
           (of_decimal false 55 (-1))).
  - vm_compute. discriminate.
  - vm_compute. reflexivity.
  - vm_compute. reflexivity.
Defined.

(** C1 (as stated) fails: the category typed as foOD is not stored with
    only its first letter changed. *)
Lemma category_not_first_letter_only :
  Category (new_expense "2025-09-15" (of_decimal false 55 (-1)) "foOD" "lunch")
  <> first_letter_only "foOD".
Proof. vm_compute. discriminate. Qed.

(** Every amount the second loop lets through is a float that is not
    [<= 0]: a positive number, or not a number at all. *)
Lemma read_amount_accepts (ins : list string) :
  forall (out : list message) (x : float) (ins' : list string) (out' : list message),
    read_amount ins out = (Ok x, ins', out') ->
    ltb zero x = true \/ is_nan x = true.
Proof.
  induction ins as [|l ins IH]; intros out x ins' out' H; cbn [read_amount] in H.
  - discriminate.
  - destruct (float_of_string l) as [amount|]; [|now apply IH in H].
    destruct (leb amount zero) eqn:Hle; [now apply IH in H|].
    injection H as -> _ _.
    destruct x as [s|[|]| |[|] m e]; cbn in Hle |- *; auto; discriminate.
Qed.

(** Every date the first loop lets through is accepted by [strptime]. *)
Lemma read_date_accepts (ins : list string) :
  forall (out : list message) (d : string) (ins' : list string) (out' : list message),
    read_date ins out = (Ok d, ins', out') ->
    strptime_ymd d <> None.
Proof.
  induction ins as [|l ins IH]; intros out d ins' out' H; cbn [read_date] in H.
  - discriminate.
  - destruct (strptime_ymd l) eqn:Hl; [|now apply IH in H].
    injection H as <- _ _. congruence.
Qed.

(** C2: typing nan at the amount prompt passes the test [amount <= 0];
    the record is written with an amount that is not greater than zero,
    and that is what is read back from the file. *)
Theorem nan_amount_is_stored :
  let w := mkWorld (Some header_text) ["2025-09-15"; "nan"; "Food"; "lunch"] [] in
  let w' := snd (add_expense w) in
  fst (add_expense w) = Ok tt
  /\ file w' = Some (header_text ++ writerow ["2025-09-15"; "Food"; "nan"; "lunch"])
  /\ fst (read_rows w')
     = Ok [row_of (mkStored "2025-09-15" "Food" "nan" "lunch")]
  /\ float_of_string "nan" = Some nan
  /\ ltb zero nan = false.
Proof. vm_compute. repeat split. Qed.

(* ================================================================== *)
(** * The read-only operations leave the file alone *)
(* ================================================================== *)

Section Frame.

Lemma keeps_ret {A} (a : A) : keeps_file (ret a).
Proof. intros w. reflexivity. Qed.

Lemma keeps_lift {A} (o : outcome A) : keeps_file (lift o).
Proof. intros w. reflexivity. Qed.

Lemma keeps_print (m : message) : keeps_file (print m).
Proof. intros w. reflexivity. Qed.

Lemma keeps_input : keeps_file input.
Proof. intros w. unfold input. now destruct (stdin w). Qed.

Lemma keeps_missing_or_empty : keeps_file missing_or_empty.
Proof. intros w. reflexivity. Qed.

Lemma keeps_read_rows : keeps_file read_rows.
Proof.
  intros w. unfold read_rows.
  destruct (file w) as [content|] eqn:E; [|exact E].
  destruct (reader_of_file content); exact E.
Qed.

Lemma keeps_bind {A B} (m : io A) (k : A -> io B) :
  keeps_file m -> (forall a, keeps_file (k a)) -> keeps_file (bind m k).
Proof.
  intros Hm Hk w. unfold bind.
  specialize (Hm w). destruct (m w) as [[a|e] w']; cbn [snd] in *.
  - now rewrite Hk.
  - exact Hm.
Qed.

Lemma keeps_if {A} (b : bool) (m1 m2 : io A) :
  keeps_file m1 -> keeps_file m2 -> keeps_file (if b then m1 else m2).
Proof. now destruct b. Qed.

Lemma keeps_for_each {A} (l : list A) (body : A -> io unit) :
  (forall x, keeps_file (body x)) -> keeps_file (for_each l body).
Proof.
  intros Hb. induction l as [|x l IH]; cbn [for_each].
  - apply keeps_ret.
  - apply keeps_bind; auto.
Qed.

Lemma keeps_print_expense (r : row) : keeps_file (print_expense r).
Proof.
  apply keeps_bind; [apply keeps_lift|intros m; apply keeps_print].
Qed.

Lemma keeps_report (m : string) (total : float) (cats : totals) :
  keeps_file (report m total cats).
Proof.
  unfold report.
  repeat first
    [ apply keeps_if | apply keeps_print | apply keeps_ret
    | apply keeps_for_each; intros ?
    | apply keeps_bind; [|intros ?] ].
Qed.

End Frame.

Create HintDb frame.

#[local] Hint Resolve keeps_ret keeps_lift keeps_print keeps_input
  keeps_missing_or_empty keeps_read_rows keeps_print_expense keeps_report
  : frame.

Ltac frame :=
  repeat first
    [ progress auto with frame
    | apply keeps_if
    | apply keeps_for_each; intros ?
    | apply keeps_bind; [|intros ?] ].

Lemma keeps_view_expenses : keeps_file view_expenses.
Proof. unfold view_expenses. frame. Qed.

Lemma keeps_search_expenses : keeps_file search_expenses.
Proof. unfold search_expenses. frame. Qed.

Lemma keeps_get_monthly_summary : keeps_file get_monthly_summary.
Proof.
  unfold get_monthly_summary. frame.
  match goal with |- keeps_file (match ?o with _ => _ end) => destruct o end; frame.
Qed.

(** What the two writing operations do to the file. *)
Lemma init_file_effect (w : world) :
  file (snd (init_file w))
  = Some (match file w with Some content => content | None => header_text end).
Proof.
  unfold init_file, bind, path_exists, write_new_file, print, ret.
  destruct (file w) eqn:E; cbn; rewrite ?E; reflexivity.
Qed.

Lemma input_loop_file {A}
    (loop : list string -> list message -> outcome A * list string * list message)
    (w : world) :
  file (snd (input_loop loop w)) = file w.
Proof.
  unfold input_loop. now destruct (loop (stdin w) (stdout w)) as [[r ins] out].
Qed.

Lemma add_expense_effect (w : world) :
  file (snd (add_expense w)) = file w
  \/ exists e : expense,
       file (snd (add_expense w))
       = Some (match file w with
               | Some content => content ++ row_text e
               | None => row_text e
               end).
Proof.
  unfold add_expense, bind.
  cbn [print].
  set (w1 := mkWorld (file w) (stdin w) (stdout w ++ [MsgAddTitle])).
  pose proof (input_loop_file read_date w1) as H1.
  change (file w1) with (file w) in H1.
  destruct (input_loop read_date w1) as [[d|e] w2]; cbn [snd] in *; [|now left].
  pose proof (input_loop_file read_amount w2) as H2.
  destruct (input_loop read_amount w2) as [[x|e] w3]; cbn [snd] in *;
    [|left; congruence].
  pose proof (keeps_input w3) as H3.
  destruct (input w3) as [[c|e] w4]; cbn [snd] in *; [|left; congruence].
  pose proof (keeps_input w4) as H4.
  destruct (input w4) as [[t|e] w5]; cbn [snd] in *; [|left; congruence].
  right. exists (new_expense d x c t).
  unfold append_to_file, row_text. cbn [file snd].
  replace (file w5) with (file w) by congruence. reflexivity.
Qed.

(** C10: viewing, searching and summarising never change the backing
    file, whatever it holds and however the operation ends; the file
    only changes when [init_file] creates it with its header or when
    [add_expense] appends the line of one record. *)
Theorem read_only_operations_keep_file (w : world) :
  file (snd (view_expenses w)) = file w
  /\ file (snd (search_expenses w)) = file w
  /\ file (snd (get_monthly_summary w)) = file w
  /\ file (snd (init_file w))
     = Some (match file w with Some content => content | None => header_text end)
  /\ (file (snd (add_expense w)) = file w
      \/ exists e : expense,
           file (snd (add_expense w))
           = Some (match file w with
                   | Some content => content ++ row_text e
                   | None => row_text e
                   end)).
Proof.
  repeat split.
  - apply keeps_view_expenses.
  - apply keeps_search_expenses.
  - apply keeps_get_monthly_summary.
  - apply init_file_effect.
  - apply add_expense_effect.
Qed.

(* ================================================================== *)
(** * Search *)
(* ================================================================== *)

Lemma row_matches_date (term : string) (s : stored) :
  row_matches "date" term (row_of s) = Ok (String.eqb (sDate s) term).
Proof.
  unfold row_matches. cbn. now destruct (String.eqb (sDate s) term).
Qed.

Lemma row_matches_category (term : string) (s : stored) :
  row_matches "category" term (row_of s)
  = Ok (String.eqb (lower (sCategory s)) (lower term)).
Proof. reflexivity. Qed.

(** The loop under a test that never fails is a filter, in file order. *)
Lemma search_loop_filter (search_by term : string) (test : stored -> bool) :
  (forall s, row_matches search_by term (row_of s) = Ok (test s)) ->
  forall (recs : list stored) (found : list row),
    search_loop search_by term (map row_of recs) found
    = Ok (found ++ map row_of (filter test recs))%list.
Proof.
  intros Htest recs. induction recs as [|s recs IH]; intros found; cbn.
  - now rewrite app_nil_r.
  - rewrite Htest. cbn [obind]. rewrite IH.
    destruct (test s); cbn [map]; [now rewrite <- app_assoc|reflexivity].
Qed.

(** C3: searching by date returns, in file order, exactly the stored
    records whose date is the very text of the search term; a record
    dated 2025-09-5 is not found under 2025-09-05. *)
Theorem search_by_date_exact (recs : list stored) (term : string) :
  let found := filter (fun s => String.eqb (sDate s) term) recs in
  search_loop "date" term (map row_of recs) [] = Ok (map row_of found)
  /\ (forall s, In s found <-> In s recs /\ sDate s = term)
  /\ search_loop "date" "2025-09-05"
       [row_of (mkStored "2025-09-5" "Food" "5.5" "lunch")] [] = Ok [].
Proof.
  intros found. split; [|split].
  - apply (search_loop_filter "date" term (fun s => String.eqb (sDate s) term)).
    intros s. apply row_matches_date.
  - intros s. unfold found. rewrite filter_In, String.eqb_eq. tauto.
  - reflexivity.
Qed.

(** C4: searching by category returns, in file order, exactly the stored
    records whose category equals the term up to the case of letters;
    the term food finds the categories Food and FOOD. *)
Theorem search_by_category_ignores_case (recs : list stored) (term : string) :
  let found :=
    filter (fun s => String.eqb (lower (sCategory s)) (lower term)) recs in
  search_loop "category" term (map row_of recs) [] = Ok (map row_of found)
  /\ (forall s, In s found <-> In s recs /\ same_ignoring_case (sCategory s) term)
  /\ search_loop "category" "food"
       [row_of (mkStored "2025-09-01" "Food" "10.0" "a");
        row_of (mkStored "2025-09-02" "Transport" "5.0" "b");
        row_of (mkStored "2025-09-03" "FOOD" "7.0" "c")] []
     = Ok [row_of (mkStored "2025-09-01" "Food" "10.0" "a");
           row_of (mkStored "2025-09-03" "FOOD" "7.0" "c")].
Proof.
  intros found. split; [|split].
  - apply (search_loop_filter "category" term
             (fun s => String.eqb (lower (sCategory s)) (lower term))).
    intros s. apply row_matches_category.
  - intros s. unfold found, same_ignoring_case.
    rewrite filter_In, String.eqb_eq. tauto.
  - reflexivity.
Qed.

(** ** The reader never fails on a text file *)

Lemma universal_newlines_no_cr (s : string) :
  forall pending, no_cr (universal_newlines pending s) = true.
Proof.
  induction s as [|c s IH]; intros pending; cbn [universal_newlines].
  - reflexivity.
  - destruct (Ascii.eqb c CR) eqn:Hcr; [cbn; apply IH|].
    destruct (Ascii.eqb c LF) eqn:Hlf.
    + destruct pending; [apply IH|cbn; apply IH].
    + unfold no_cr. cbn [all_chars]. rewrite Hcr. cbn. apply IH.
Qed.

Lemma lines_ok (s : string) :
  no_cr s = true -> Forall (fun l => line_ok l = true) (lines s).
Proof.
  induction s as [|c s IH]; cbn [lines]; intros H.
  - constructor.
  - unfold no_cr in H. cbn [all_chars] in H.
    apply andb_true_iff in H. destruct H as [Hc Hs]. specialize (IH Hs).
    destruct (Ascii.eqb c LF) eqn:Hlf.
    + constructor; [reflexivity|exact IH].
    + destruct (lines s) as [|l ls].
      * constructor; [reflexivity|constructor].
      * inversion IH as [|? ? Hl Hls]; subst. constructor; [|exact Hls].
        cbn [line_ok]. destruct l as [|c' l']; [reflexivity|].
        unfold is_newline. rewrite Hlf.
        apply negb_true_iff in Hc. rewrite Hc. exact Hl.
Qed.

Lemma process_plain_char (r : reader) (c : ascii) :
  not_eating r = true -> is_newline c = false ->
  exists r', parse_process_char r (Some c) = Some r' /\ not_eating r' = true.
Proof.
  intros Hr Hc. unfold parse_process_char, start_field, not_eating in *.
  destruct r as [st f fs]. cbn [state] in *.
  destruct st; try discriminate; rewrite ?Hc;
    cbn [set_state parse_save_field parse_add_char state field fields];
    rewrite ?Hc;
    repeat match goal with
    | |- context [if ?b then _ else _] => destruct b
    end; eexists; split; reflexivity.
Qed.

Lemma process_last_char (r : reader) (c : ascii) :
  not_eating r = true ->
  exists r1 r2, parse_process_char r (Some c) = Some r1
                /\ parse_process_char r1 None = Some r2
                /\ between_lines r2 = true.
Proof.
  intros Hr. unfold parse_process_char, start_field, not_eating in *.
  destruct r as [st f fs]. cbn [state] in *.
  destruct st; try discriminate;
    cbn [set_state parse_save_field parse_add_char state field fields];
    repeat match goal with
    | |- context [if ?b then _ else _] => destruct b
    end; do 2 eexists; repeat split; reflexivity.
Qed.

Lemma process_end_of_line (r : reader) :
  exists r', parse_process_char r None = Some r' /\ between_lines r' = true.
Proof.
  unfold parse_process_char, start_field.
  destruct r as [st f fs]. cbn [state].
  destruct st; eexists; split; reflexivity.
Qed.

Lemma feed_line_ok (l : string) :
  line_ok l = true ->
  forall r, not_eating r = true ->
  exists r', feed_line r l = Some r' /\ between_lines r' = true.
Proof.
  induction l as [|c l IH]; intros Hl r Hr.
  - apply process_end_of_line.
  - destruct l as [|c' l'].
    + destruct (process_last_char r c Hr) as (r1 & r2 & H1 & H2 & H3).
      exists r2. cbn [feed_line]. now rewrite H1.
    + cbn [line_ok] in Hl. apply andb_true_iff in Hl. destruct Hl as [Hc Hl].
      apply negb_true_iff in Hc.
      destruct (process_plain_char r c Hr Hc) as (r1 & H1 & Hr1).
      destruct (IH Hl r1 Hr1) as (r' & H' & Hb).
      exists r'. change (feed_line r (String c (String c' l')))
        with (match parse_process_char r (Some c) with
              | Some r0 => feed_line r0 (String c' l')
              | None => None
              end).
      now rewrite H1.
Qed.

Lemma between_lines_not_eating (r : reader) :
  between_lines r = true -> not_eating r = true.
Proof.
  unfold between_lines, at_start, in_quotes, not_eating.
  now destruct (state r).
Qed.

Lemma read_records_ok (ls : list string) :
  Forall (fun l => line_ok l = true) ls ->
  forall r, not_eating r = true -> read_records r ls <> None.
Proof.
  induction 1 as [|l ls Hl Hls IH]; intros r Hr; cbn [read_records].
  - now destruct (in_quotes r).
  - destruct (feed_line_ok l Hl r Hr) as (r' & -> & Hb).
    destruct (at_start r').
    + specialize (IH fresh eq_refl).
      now destruct (read_records fresh ls).
    + apply IH. now apply between_lines_not_eating.
Qed.

Lemma reader_of_file_total (content : string) :
  exists records, reader_of_file content = Some records.
Proof.
  unfold reader_of_file.
  pose proof (read_records_ok _
                (lines_ok _ (universal_newlines_no_cr content false))
                fresh eq_refl) as H.
  destruct (read_records fresh (lines (universal_newlines false content)));
    [eauto|congruence].
Qed.

(** ** An unknown search mode *)

Lemma row_matches_unknown (search_by term : string) (r : row) :
  search_by <> "date" -> search_by <> "category" ->
  row_matches search_by term r = Ok false.
Proof.
  intros Hd Hc. unfold row_matches.
  apply String.eqb_neq in Hd. apply String.eqb_neq in Hc.
  now rewrite Hd, Hc.
Qed.

Lemma search_loop_unknown (search_by term : string) (rows found : list row) :
  search_by <> "date" -> search_by <> "category" ->
  search_loop search_by term rows found = Ok found.
Proof.
  intros Hd Hc. induction rows as [|r rows IH]; cbn [search_loop].
  - reflexivity.
  - now rewrite row_matches_unknown.
Qed.

(** C9: with a mode that is neither the date mode nor the category mode
    the search selects nothing, whatever the file holds (well formed or
    not) and whatever the term: the operation ends normally and prints
    what it prints when nothing matches.  The mode is not checked. *)
Theorem unknown_mode_finds_nothing (content mode term : string)
    (ins : list string) (out : list message) (rows : list row) :
  content <> EmptyString ->
  lower mode <> "date" ->
  lower mode <> "category" ->
  search_loop (lower mode) term rows [] = Ok []
  /\ search_expenses (mkWorld (Some content) (mode :: term :: ins) out)
     = (Ok tt, mkWorld (Some content) ins (out ++ [MsgSearchTitle; MsgNoMatching])).
Proof.
  intros Hne Hd Hc. split; [now apply search_loop_unknown|].
  destruct content as [|c0 content']; [congruence|].
  destruct (reader_of_file_total (String c0 content')) as [records Hrec].
  unfold search_expenses, bind, print, missing_or_empty, input, read_rows, lift.
  cbn -[reader_of_file lower search_loop]. rewrite Hrec.
  rewrite (search_loop_unknown _ _ _ _ Hd Hc).
  cbn. now rewrite <- app_assoc.
Qed.

Lemma unknown_mode_finds_nothing_witness :
  search_loop (lower "Amount") "5.5"
    [row_of (mkStored "2025-09-15" "Food" "5.5" "lunch")] [] = Ok []
  /\ search_expenses
       (mkWorld (Some (header_text ++ writerow ["2025-09-15"; "Food"; "5.5"; "lunch"]))
                ["Amount"; "5.5"] [])
     = (Ok tt,
        mkWorld (Some (header_text ++ writerow ["2025-09-15"; "Food"; "5.5"; "lunch"]))
                [] [MsgSearchTitle; MsgNoMatching]).
Proof.
  apply (unknown_mode_finds_nothing
           (header_text ++ writerow ["2025-09-15"; "Food"; "5.5"; "lunch"])
           "Amount" "5.5" [] []
           [row_of (mkStored "2025-09-15" "Food" "5.5" "lunch")]).
  - vm_compute. discriminate.
  - vm_compute. discriminate.
  - vm_compute. discriminate.
Defined.

(* ================================================================== *)
(** * Monthly summary: selection and totals *)
(* ================================================================== *)

Lemma cell_eqb_eq (a b : cell) : cell_eqb a b = true <-> a = b.
Proof.
  destruct a as [x|], b as [y|]; cbn; try (split; congruence).
  rewrite String.eqb_eq. split; congruence.
Qed.

Lemma cell_eqb_refl (a : cell) : cell_eqb a a = true.
Proof. now apply cell_eqb_eq. Qed.

Lemma cell_eqb_sym (a b : cell) : cell_eqb a b = cell_eqb b a.
Proof.
  destruct (cell_eqb a b) eqn:H1, (cell_eqb b a) eqn:H2; try reflexivity.
  - apply cell_eqb_eq in H1. subst. now rewrite cell_eqb_refl in H2.
  - apply cell_eqb_eq in H2. subst. now rewrite cell_eqb_refl in H1.
Qed.

Lemma startswith_prefix (s p : string) :
  startswith s p = true <-> exists rest, s = p ++ rest.
Proof.
  revert s. induction p as [|a p IH]; intros s.
  - split; [intros _; now exists s|intros _; now destruct s].
  - destruct s as [|b s]; cbn [startswith].
    + split; [discriminate|intros [rest H]; discriminate].
    + rewrite andb_true_iff, Ascii.eqb_eq, IH. split.
      * intros [-> [rest ->]]. now exists rest.
      * intros [rest H]. cbn in H. injection H as -> ->. split; eauto.
Qed.

Section DictFacts.
Context {V : Type}.
Implicit Types (d : @PyDict.dict cell V) (k : cell) (v : V).

Lemma get_set_same d k v : PyDict.get cell_eqb (PyDict.set cell_eqb d k v) k = Some v.
Proof.
  induction d as [|[k' v'] d IH]; cbn.
  - now rewrite cell_eqb_refl.
  - destruct (cell_eqb k' k) eqn:E; cbn; rewrite E; [reflexivity|exact IH].
Qed.

Lemma get_set_other d k k' v :
  cell_eqb k k' = false ->
  PyDict.get cell_eqb (PyDict.set cell_eqb d k v) k' = PyDict.get cell_eqb d k'.
Proof.
  intros Hk. induction d as [|[k0 v0] d IH]; cbn.
  - now rewrite Hk.
  - destruct (cell_eqb k0 k) eqn:E; cbn.
    + apply cell_eqb_eq in E. subst k0. now rewrite Hk.
    + now rewrite IH.
Qed.

Lemma keys_set d k v :
  PyDict.keys (PyDict.set cell_eqb d k v) = see (PyDict.keys d) k.
Proof.
  unfold see, PyDict.keys. induction d as [|[k0 v0] d IH]; cbn.
  - reflexivity.
  - rewrite (cell_eqb_sym k k0).
    destruct (cell_eqb k0 k) eqn:E; cbn; [reflexivity|].
    rewrite IH. now destruct (existsb (cell_eqb k) (map fst d)).
Qed.
End DictFacts.

Lemma summary_loop_fold (month : string) (recs : list stored) :
  (forall s, In s recs -> in_month month s = true ->
             float_of_string (sAmount s) <> None) ->
  forall (total : float) (d : totals),
    summary_loop month (map row_of recs) total d
    = Ok (fold_left add (map amount_of (filter (in_month month) recs)) total,
          accumulate (filter (in_month month) recs) d).
Proof.
  induction recs as [|s recs IH]; intros Hok total d; cbn [map filter].
  - reflexivity.
  - assert (Hrest : forall s', In s' recs -> in_month month s' = true ->
                               float_of_string (sAmount s') <> None)
      by (intros s' Hin; apply Hok; now right).
    specialize (IH Hrest).
    cbn -[getitem float_of_string add add_to in_month].
    change (getitem (row_of s) "Date") with (@Ok cell (Some (sDate s))).
    change (getitem (row_of s) "Amount") with (@Ok cell (Some (sAmount s))).
    change (getitem (row_of s) "Category") with (@Ok cell (Some (sCategory s))).
    cbn [obind cell_startswith].
    change (startswith (sDate s) month) with (in_month month s).
    destruct (in_month month s) eqn:Hin; [|apply IH].
    specialize (Hok s (or_introl eq_refl) Hin).
    unfold float_of_cell, amount_of at 1.
    cbn [map fold_left accumulate]. unfold amount_of at 1.
    destruct (float_of_string (sAmount s)) as [x|] eqn:Hx; [|congruence].
    cbn [obind]. rewrite IH. unfold accumulate, category_of, amount_of.
    now rewrite Hx.
Qed.

Lemma keys_accumulate (sel : list stored) :
  forall d : totals,
    PyDict.keys (accumulate sel d) = fold_left see (map category_of sel) (PyDict.keys d).
Proof.
  induction sel as [|s sel IH]; intros d; cbn [accumulate fold_left map].
  - reflexivity.
  - fold (accumulate sel (add_to d (category_of s) (amount_of s))).
    rewrite IH. unfold add_to. now rewrite keys_set.
Qed.

Lemma get_accumulate (c : cell) (sel : list stored) :
  forall d : totals,
    PyDict.get cell_eqb (accumulate sel d) c
    = match PyDict.get cell_eqb d c with
      | Some t =>
          Some (fold_left add
                  (map amount_of (filter (fun s => cell_eqb (category_of s) c) sel)) t)
      | None =>
          if existsb (fun s => cell_eqb (category_of s) c) sel
          then Some (fsum (map amount_of (filter (fun s => cell_eqb (category_of s) c) sel)))
          else None
      end.
Proof.
  induction sel as [|s sel IH]; intros d; cbn [accumulate fold_left map filter existsb].
  - now destruct (PyDict.get cell_eqb d c).
  - fold (accumulate sel (add_to d (category_of s) (amount_of s))).
    rewrite IH. unfold add_to.
    destruct (cell_eqb (category_of s) c) eqn:E.
    + apply cell_eqb_eq in E. rewrite <- E. rewrite get_set_same.
      cbn [orb map fold_left fsum].
      now destruct (PyDict.get cell_eqb d (category_of s)).
    + rewrite (get_set_other _ _ _ _ E). cbn [orb]. reflexivity.
Qed.

(** C5: the summary takes exactly the stored records whose date begins
    with the month text (a prefix test on the text), adds their amounts
    into the grand total, and keeps one subtotal per category text, the
    categories in the order they were first met; on the three records of
    the example the month 2025-09 gives the total 15.0 and the subtotals
    Food 10.0 and Transport 5.0. *)
Theorem summary_selects_and_totals (recs : list stored) (month : string) :
  (forall s, In s recs -> in_month month s = true ->
             float_of_string (sAmount s) <> None) ->
  let selected := filter (in_month month) recs in
  (forall s, In s selected <-> In s recs /\ exists rest, sDate s = month ++ rest)
  /\ (exists category_totals : totals,
        summary_loop month (map row_of recs) zero []
        = Ok (fsum (map amount_of selected), category_totals)
        /\ PyDict.keys category_totals = first_seen (map category_of selected)
        /\ forall c : string,
             PyDict.get cell_eqb category_totals (Some c)
             = if existsb (fun s => String.eqb (sCategory s) c) selected
               then Some (fsum (map amount_of
                            (filter (fun s => String.eqb (sCategory s) c) selected)))
               else None)
  /\ summary_loop "2025-09" (map row_of example_records) zero []
     = Ok (of_Z 15, [(Some "Food", of_Z 10); (Some "Transport", of_Z 5)]).
Proof.
  intros Hok selected. split; [|split].
  - intros s. unfold selected, in_month.
    now rewrite filter_In, startswith_prefix.
  - exists (accumulate selected []). split; [|split].
    + now rewrite (summary_loop_fold month recs Hok).
    + now rewrite keys_accumulate.
    + intros c. rewrite get_accumulate. reflexivity.
  - vm_compute. reflexivity.
Qed.

Lemma summary_selects_and_totals_witness :
  let selected := filter (in_month "2025-09") example_records in
  (forall s, In s selected
             <-> In s example_records /\ exists rest, sDate s = "2025-09" ++ rest)
  /\ (exists category_totals : totals,
        summary_loop "2025-09" (map row_of example_records) zero []
        = Ok (fsum (map amount_of selected), category_totals)
        /\ PyDict.keys category_totals = first_seen (map category_of selected)
        /\ forall c : string,
             PyDict.get cell_eqb category_totals (Some c)
             = if existsb (fun s => String.eqb (sCategory s) c) selected
               then Some (fsum (map amount_of
                            (filter (fun s => String.eqb (sCategory s) c) selected)))
               else None)
  /\ summary_loop "2025-09" (map row_of example_records) zero []
     = Ok (of_Z 15, [(Some "Food", of_Z 10); (Some "Transport", of_Z 5)]).
Proof.
  apply (summary_selects_and_totals example_records "2025-09").
  intros s Hin _.
  repeat (destruct Hin as [<-|Hin]; [vm_compute; discriminate|]).
  destruct Hin.
Defined.

(* ================================================================== *)
(** * Monthly summary: the ranking *)
(* ================================================================== *)

Lemma ltb_key_lt (x y : float) :
  is_nan x = false -> is_nan y = false ->
  (ltb x y = true <-> key_lt (order_key x) (order_key y)).
Proof.
  intros Hx Hy.
  destruct x as [sx|sx| |sx mx ex]; try discriminate;
  destruct y as [sy|sy| |sy my ey]; try discriminate;
  unfold ltb, SFltb, SFcompare, order_key, key_lt;
  try (destruct sx); try (destruct sy);
  try (split; [discriminate|lia]); try (split; [lia|reflexivity]).
  - change (Pos.compare_cont Eq mx my) with (Pos.compare mx my).
    destruct (Z.compare_spec ex ey); destruct (Pos.compare_spec mx my);
      cbn [CompOpp]; split; (discriminate || lia || reflexivity).
  - change (Pos.compare_cont Eq mx my) with (Pos.compare mx my).
    destruct (Z.compare_spec ex ey); destruct (Pos.compare_spec mx my);
      split; (discriminate || lia || reflexivity).
Qed.

Lemma ltb_false_key (x y : float) :
  is_nan x = false -> is_nan y = false ->
  (ltb x y = false <-> ~ key_lt (order_key x) (order_key y)).
Proof.
  intros Hx Hy. rewrite <- (ltb_key_lt x y Hx Hy).
  destruct (ltb x y); split; congruence.
Qed.

Ltac order_keys :=
  repeat match goal with
  | H : ltb ?x ?y = true |- _ => apply ltb_key_lt in H; [|assumption|assumption]
  | H : ltb ?x ?y = false |- _ => apply ltb_false_key in H; [|assumption|assumption]
  | |- ltb ?x ?y = true => apply ltb_key_lt; [assumption|assumption|]
  | |- ltb ?x ?y = false => apply ltb_false_key; [assumption|assumption|]
  end;
  repeat match goal with
  | |- context [order_key ?x] =>
      let a := fresh "a" in let b := fresh "b" in let c := fresh "c" in
      destruct (order_key x) as [[a b] c]
  | H : context [order_key ?x] |- _ =>
      let a := fresh "a" in let b := fresh "b" in let c := fresh "c" in
      destruct (order_key x) as [[a b] c]
  end;
  unfold key_lt in *; lia.

Lemma ltb_asym (x y : float) :
  is_nan x = false -> is_nan y = false -> ltb x y = true -> ltb y x = false.
Proof. intros Hx Hy H. order_keys. Qed.

Lemma ltb_lt_le (x y z : float) :
  is_nan x = false -> is_nan y = false -> is_nan z = false ->
  ltb x y = true -> ltb z y = false -> ltb x z = true.
Proof. intros Hx Hy Hz H1 H2. order_keys. Qed.

Section SortFacts.
Context {A : Type}.
Variable lt : A -> A -> bool.
Variable ok : A -> Prop.

Hypothesis lt_asym : forall a b, ok a -> ok b -> lt a b = true -> lt b a = false.
Hypothesis lt_le_trans :
  forall a b c, ok a -> ok b -> ok c -> lt a b = true -> lt c b = false -> lt a c = true.

Lemma not_below_trans (a b c : A) :
  ok a -> ok b -> ok c -> lt b a = false -> lt c b = false -> lt c a = false.
Proof.
  intros Ha Hb Hc H1 H2. destruct (lt c a) eqn:E; [|reflexivity].
  rewrite (lt_le_trans c a b Hc Ha Hb E H1) in H2. discriminate.
Qed.

Lemma insert_asc_perm (x : A) (l : list A) :
  Permutation (insert_asc lt x l) (x :: l).
Proof.
  induction l as [|y l IH]; cbn.
  - reflexivity.
  - destruct (lt x y); [reflexivity|].
    rewrite IH. apply perm_swap.
Qed.

Lemma insert_asc_ok (x : A) (l : list A) :
  ok x -> Forall ok l -> Forall ok (insert_asc lt x l).
Proof.
  intros Hx Hl.
  apply (Permutation_Forall (Permutation_sym (insert_asc_perm x l))).
  now constructor.
Qed.

Lemma insert_asc_sorted (x : A) (l : list A) :
  ok x -> Forall ok l -> ascending_by lt l -> ascending_by lt (insert_asc lt x l).
Proof.
  intros Hx Hok Hs. unfold ascending_by in *.
  induction Hs as [|y l Hs IH Hy]; cbn.
  - repeat constructor.
  - inversion Hok as [|? ? Hoky Hokl]; subst.
    destruct (lt x y) eqn:E.
    + constructor; [now constructor|].
      constructor; [now apply lt_asym|].
      rewrite Forall_forall in *. intros z Hz.
      apply (not_below_trans x y z); auto.
    + constructor; [now apply IH|].
      apply (Permutation_Forall (Permutation_sym (insert_asc_perm x l))).
      now constructor.
Qed.

(** Inserting does not change the order among the elements that a test
    compatible with the order picks out. *)
Lemma insert_asc_stable (same : A -> bool) (x : A) (l : list A) :
  (forall y z, ok y -> ok z -> same x = true -> lt x y = true ->
               lt z y = false -> same z = false) ->
  ok x -> Forall ok l -> ascending_by lt l ->
  filter same (insert_asc lt x l) = filter same (l ++ [x]).
Proof.
  intros Hsame Hx Hok Hs. unfold ascending_by in *.
  induction Hs as [|y l Hs IH Hy]; cbn.
  - reflexivity.
  - inversion Hok as [|? ? Hoky Hokl]; subst.
    destruct (lt x y) eqn:E.
    + cbn [filter]. destruct (same x) eqn:Ex.
      * assert (Hnone : forall z, In z (y :: l) -> same z = false).
        { intros z [<-|Hz].
          - apply (Hsame y y); auto.
            destruct (lt y y) eqn:Ey; [|reflexivity].
            now rewrite (lt_asym y y Hoky Hoky Ey) in Ey.
          - rewrite Forall_forall in Hy, Hokl.
            apply (Hsame y z); auto. }
        rewrite (Hnone y (or_introl eq_refl)).
        rewrite filter_app. cbn [filter]. rewrite Ex.
        assert (Hl : filter same l = []).
        { clear -Hnone. induction l as [|z l IHl]; [reflexivity|].
          cbn. rewrite (Hnone z (or_intror (or_introl eq_refl))).
          apply IHl. intros z' [<-|Hz']; apply Hnone; [now left|now right; right]. }
        now rewrite Hl.
      * rewrite filter_app. cbn [filter]. rewrite Ex. now rewrite app_nil_r.
    + cbn [filter]. rewrite (IH Hokl). reflexivity.
Qed.

Lemma sort_asc_from (l acc : list A) :
  Forall ok l -> Forall ok acc -> ascending_by lt acc ->
  let r := fold_left (fun acc x => insert_asc lt x acc) l acc in
  Permutation r (acc ++ l) /\ Forall ok r /\ ascending_by lt r.
Proof.
  revert acc. induction l as [|x l IH]; intros acc Hl Hacc Hs; cbn.
  - rewrite app_nil_r. auto.
  - inversion Hl as [|? ? Hx Hl']; subst.
    destruct (IH (insert_asc lt x acc) Hl'
                (insert_asc_ok x acc Hx Hacc)
                (insert_asc_sorted x acc Hx Hacc Hs)) as (Hp & Ho & Ha).
    split; [|split]; auto.
    rewrite Hp. rewrite (insert_asc_perm x acc).
    apply Permutation_middle.
Qed.

Lemma sort_asc_stable_from (same : A -> bool) (l acc : list A) :
  (forall x y z, ok x -> ok y -> ok z -> same x = true -> lt x y = true ->
                 lt z y = false -> same z = false) ->
  Forall ok l -> Forall ok acc -> ascending_by lt acc ->
  filter same (fold_left (fun acc x => insert_asc lt x acc) l acc)
  = filter same (acc ++ l).
Proof.
  intros Hsame. revert acc. induction l as [|x l IH]; intros acc Hl Hacc Hs; cbn.
  - now rewrite app_nil_r.
  - inversion Hl as [|? ? Hx Hl']; subst.
    rewrite (IH (insert_asc lt x acc) Hl'
               (insert_asc_ok x acc Hx Hacc)
               (insert_asc_sorted x acc Hx Hacc Hs)).
    rewrite filter_app, (insert_asc_stable same x acc); auto.
    + rewrite <- filter_app, <- app_assoc. reflexivity.
    + intros y z Hy Hz. now apply Hsame.
Qed.

(** ** The run at the head of the list *)

Lemma descending_run_sorted (l : list A) :
  forall prev acc run rest,
    PyDict.descending_run lt prev l = (run, rest) ->
    l = (run ++ rest)%list
    /\ fold_left (fun acc x => insert_asc lt x acc) run (prev :: acc)
       = (rev run ++ prev :: acc)%list.
Proof.
  induction l as [|x l IH]; intros prev acc run rest; cbn.
  - intros H. injection H as <- <-. auto.
  - destruct (lt x prev) eqn:E.
    + destruct (PyDict.descending_run lt x l) as [run' rest'] eqn:E'.
      intros H. injection H as <- <-.
      destruct (IH x (prev :: acc) run' rest' E') as [-> Hf].
      split; [reflexivity|].
      cbn [fold_left insert_asc]. rewrite E, Hf. cbn [rev].
      now rewrite <- app_assoc.
    + intros H. injection H as <- <-. auto.
Qed.

Lemma insert_asc_last (x prev : A) (acc : list A) :
  ok x -> Forall ok (acc ++ [prev])%list -> ascending_by lt (acc ++ [prev])%list ->
  lt x prev = false ->
  insert_asc lt x (acc ++ [prev])%list = ((acc ++ [prev]) ++ [x])%list.
Proof.
  intros Hx Hok Hs E. induction acc as [|a acc IH]; cbn.
  - now rewrite E.
  - cbn in Hok, Hs. inversion Hok as [|? ? Ha Hok']; subst.
    inversion Hs as [|? ? Hs' Hall]; subst.
    rewrite Forall_forall in Hall.
    assert (Hp : lt prev a = false) by (apply Hall, in_or_app; right; now left).
    assert (Hprev : ok prev).
    { rewrite Forall_forall in Hok'. apply Hok', in_or_app. right. now left. }
    rewrite (not_below_trans a prev x Ha Hprev Hx Hp E).
    now rewrite (IH Hok' Hs').
Qed.

Lemma ascending_run_sorted (l : list A) :
  forall prev acc run rest,
    PyDict.ascending_run lt prev l = (run, rest) ->
    Forall ok l -> Forall ok (acc ++ [prev])%list -> ascending_by lt (acc ++ [prev])%list ->
    l = (run ++ rest)%list
    /\ fold_left (fun acc x => insert_asc lt x acc) run (acc ++ [prev])%list
       = ((acc ++ [prev]) ++ run)%list.
Proof.
  induction l as [|x l IH]; intros prev acc run rest; cbn.
  - intros H _ _ _. injection H as <- <-. cbn. now rewrite app_nil_r.
  - intros H Hl Hok Hs. inversion Hl as [|? ? Hx Hl']; subst.
    destruct (lt x prev) eqn:E.
    + injection H as <- <-. cbn. now rewrite app_nil_r.
    + destruct (PyDict.ascending_run lt x l) as [run' rest'] eqn:E'.
      injection H as <- <-.
      pose proof (insert_asc_last x prev acc Hx Hok Hs E) as Hi.
      destruct (IH x (acc ++ [prev])%list run' rest' E' Hl') as [-> Hf].
      * apply Forall_app. split; [exact Hok|now constructor].
      * rewrite <- Hi. now apply insert_asc_sorted.
      * split; [reflexivity|].
        cbn [fold_left]. rewrite Hi, Hf. now rewrite <- !app_assoc.
Qed.

Lemma count_run_sorted (l run rest : list A) :
  PyDict.count_run lt l = (run, rest) -> Forall ok l ->
  exists head,
    l = (head ++ rest)%list /\ run = sort_asc lt head.
Proof.
  unfold PyDict.count_run, sort_asc.
  destruct l as [|x [|y l]].
  - intros H _. injection H as <- <-. now exists [].
  - intros H _. injection H as <- <-. now exists [x].
  - intros H Hl. inversion Hl as [|? ? Hx Hl']; subst.
    inversion Hl' as [|? ? Hy Hl'']; subst.
    destruct (lt y x) eqn:E.
    + destruct (PyDict.descending_run lt y l) as [run' rest'] eqn:E'.
      injection H as <- <-.
      destruct (descending_run_sorted l y [x] run' rest' E') as [-> Hf].
      exists (x :: y :: run'). split; [reflexivity|].
      cbn [fold_left insert_asc]. rewrite E, Hf. cbn [rev].
      now rewrite <- !app_assoc.
    + destruct (PyDict.ascending_run lt y l) as [run' rest'] eqn:E'.
      injection H as <- <-.
      destruct (ascending_run_sorted l y [x] run' rest' E' Hl'') as [-> Hf].
      * now repeat constructor.
      * repeat constructor. exact E.
      * exists (x :: y :: run'). split; [reflexivity|].
        cbn [fold_left insert_asc]. rewrite E. symmetry. exact Hf.
Qed.

(** ** Binary insertion *)

Lemma insert_asc_at (x : A) (a1 a2 : list A) :
  Forall (fun y => lt x y = false) a1 ->
  match a2 with [] => True | y :: _ => lt x y = true end ->
  insert_asc lt x (a1 ++ a2)%list = (a1 ++ x :: a2)%list.
Proof.
  intros H1 H2. induction H1 as [|y a1 Hy H1 IH]; cbn.
  - destruct a2 as [|y a2]; cbn; [reflexivity|now rewrite H2].
  - now rewrite Hy, IH.
Qed.

Lemma bisect_spec (pivot : A) (a : list A) :
  (forall i j x y, (i <= j)%nat -> nth_error a i = Some x -> nth_error a j = Some y ->
                   lt pivot x = true -> lt pivot y = true) ->
  forall steps l r,
    (r - l <= steps)%nat -> (l <= r)%nat -> (r <= List.length a)%nat ->
    (forall i x, (i < l)%nat -> nth_error a i = Some x -> lt pivot x = false) ->
    (forall i x, (r <= i)%nat -> nth_error a i = Some x -> lt pivot x = true) ->
    let k := PyDict.bisect lt steps pivot a l r in
    (k <= List.length a)%nat
    /\ (forall i x, (i < k)%nat -> nth_error a i = Some x -> lt pivot x = false)
    /\ (forall i x, (k <= i)%nat -> nth_error a i = Some x -> lt pivot x = true).
Proof.
  intros Hmono. induction steps as [|steps IH]; intros l r Hs Hlr Hr Hlow Hhigh;
    cbv zeta; cbn [PyDict.bisect].
  - assert (l = r) by lia. subst. repeat split; auto.
  - destruct (Nat.ltb_spec l r) as [Hlt|Hge].
    + assert (Hd : (Nat.div2 (r - l) < r - l)%nat) by (apply Nat.lt_div2; lia).
      remember (Nat.div2 (r - l)) as d eqn:Ed. clear Ed.
      destruct (nth_error a (l + d)) as [x|] eqn:Hp.
      * destruct (lt pivot x) eqn:E.
        -- apply IH; try lia; try assumption.
           intros i y Hi Hy. apply (Hmono (l + d)%nat i x y); auto.
        -- apply IH; try lia; try assumption.
           intros i y Hi Hy.
           destruct (lt pivot y) eqn:Ey; [|reflexivity].
           rewrite (Hmono i (l + d)%nat y x) in E; auto. lia.
      * apply nth_error_None in Hp. lia.
    + assert (l = r) by lia. subst. repeat split; auto.
Qed.

Lemma ascending_nth (a : list A) :
  ascending_by lt a ->
  forall i j x y, (i < j)%nat -> nth_error a i = Some x -> nth_error a j = Some y ->
                  lt y x = false.
Proof.
  induction 1 as [|z a Hs IH Hz]; intros i j x y Hij Hi Hj.
  - now destruct i.
  - destruct j as [|j]; [lia|]. cbn in Hj.
    destruct i as [|i]; cbn in Hi.
    + injection Hi as ->. rewrite Forall_forall in Hz.
      apply Hz. now apply nth_error_In in Hj.
    + apply (IH i j); auto. lia.
Qed.

Lemma insert_pivot_ordered (a : list A) (pivot : A) :
  ok pivot -> Forall ok a -> ascending_by lt a ->
  PyDict.insert_pivot lt a pivot = insert_asc lt pivot a.
Proof.
  intros Hp Hok Hs. unfold PyDict.insert_pivot.
  destruct (bisect_spec pivot a) with (steps := List.length a) (l := 0%nat)
                                      (r := List.length a)
    as (Hk & Hlow & Hhigh); try lia.
  - intros i j x y Hij Hi Hj Hx.
    destruct (Nat.eq_dec i j) as [->|Hne]; [congruence|].
    rewrite Forall_forall in Hok.
    apply (lt_le_trans pivot x y); auto.
    + apply Hok. now apply nth_error_In in Hi.
    + apply Hok. now apply nth_error_In in Hj.
    + apply (ascending_nth a Hs i j); auto. lia.
  - intros i x Hi Hx. apply nth_error_None in Hi. congruence.
  - set (k := PyDict.bisect lt (List.length a) pivot a 0 (List.length a)) in *.
    rewrite <- (firstn_skipn k a) at 3.
    symmetry. apply insert_asc_at.
    + rewrite Forall_forall. intros y Hy.
      apply In_nth_error in Hy. destruct Hy as [i Hi].
      assert (Hik : (i < k)%nat).
      { assert (i < List.length (firstn k a))%nat
          by (apply nth_error_Some; congruence).
        rewrite length_firstn in H. lia. }
      apply (Hlow i); auto.
      rewrite nth_error_firstn in Hi.
      destruct (Nat.ltb_spec i k); [exact Hi|lia].
    + destruct (skipn k a) as [|y rest] eqn:Hsk; [exact I|].
      apply (Hhigh k); [lia|].
      rewrite <- (Nat.add_0_r k), <- nth_error_skipn, Hsk. reflexivity.
Qed.

Lemma binarysort_ordered (rest run : list A) :
  Forall ok rest -> Forall ok run -> ascending_by lt run ->
  PyDict.binarysort lt run rest
  = fold_left (fun acc x => insert_asc lt x acc) rest run.
Proof.
  unfold PyDict.binarysort. revert run.
  induction rest as [|x rest IH]; intros run Hrest Hrun Hs; cbn [fold_left].
  - reflexivity.
  - inversion Hrest as [|? ? Hx Hrest']; subst.
    rewrite (insert_pivot_ordered run x Hx Hrun Hs).
    apply IH; auto.
    + now apply insert_asc_ok.
    + now apply insert_asc_sorted.
Qed.

(** On items that [lt] orders, [list.sort] returns what the plain
    insertion sort returns. *)
Lemma list_sort_ordered (l : list A) :
  Forall ok l -> PyDict.list_sort lt l = sort_asc lt l.
Proof.
  intros Hl. unfold PyDict.list_sort.
  destruct (PyDict.count_run lt l) as [run rest] eqn:E.
  destruct (count_run_sorted l run rest E Hl) as (head & -> & ->).
  apply Forall_app in Hl. destruct Hl as [Hhead Hrest].
  destruct (sort_asc_from head [] Hhead (Forall_nil _) (SSorted_nil _))
    as (_ & Hok & Hs).
  cbn in Hok, Hs. unfold sort_asc.
  rewrite (binarysort_ordered rest _ Hrest Hok Hs).
  now rewrite fold_left_app.
Qed.

Lemma strongly_sorted_app (R : A -> A -> Prop) (l1 l2 : list A) :
  StronglySorted R l1 -> StronglySorted R l2 ->
  (forall a b, In a l1 -> In b l2 -> R a b) ->
  StronglySorted R (l1 ++ l2).
Proof.
  intros H1 H2 H12. induction H1 as [|a l1 H1 IH Ha]; cbn; [exact H2|].
  constructor.
  - apply IH. intros x y Hx Hy. apply H12; [now right|exact Hy].
  - apply Forall_app. split; [exact Ha|].
    rewrite Forall_forall. intros y Hy. apply H12; [now left|exact Hy].
Qed.

Lemma strongly_sorted_rev (R : A -> A -> Prop) (l : list A) :
  StronglySorted R l -> StronglySorted (fun a b => R b a) (rev l).
Proof.
  induction 1 as [|a l Hl IH Ha]; cbn; [constructor|].
  apply strongly_sorted_app; [exact IH|repeat constructor|].
  intros x y Hx [<-|[]]. apply in_rev in Hx.
  rewrite Forall_forall in Ha. now apply Ha.
Qed.

(** [sorted(l, reverse=True)] on elements that [lt] orders: the same
    elements, none followed by a greater one, equal ones in their
    original order. *)
Lemma sorted_reverse_spec (same : A -> bool) (l : list A) :
  (forall x y z, ok x -> ok y -> ok z -> same x = true -> lt x y = true ->
                 lt z y = false -> same z = false) ->
  Forall ok l ->
  Permutation (PyDict.sorted_reverse lt l) l
  /\ StronglySorted (fun a b => lt a b = false) (PyDict.sorted_reverse lt l)
  /\ filter same (PyDict.sorted_reverse lt l) = filter same l.
Proof.
  intros Hsame Hok. unfold PyDict.sorted_reverse.
  assert (Hrev : Forall ok (rev l)).
  { apply (Permutation_Forall (Permutation_rev l) Hok). }
  rewrite (list_sort_ordered (rev l) Hrev). unfold sort_asc.
  destruct (sort_asc_from (rev l) [] Hrev (Forall_nil _) (SSorted_nil _))
    as (Hp & _ & Hs).
  split; [|split].
  - rewrite <- Permutation_rev. cbn in Hp. rewrite Hp. apply Permutation_sym, Permutation_rev.
  - apply (strongly_sorted_rev _ _ Hs).
  - rewrite filter_rev.
    rewrite (sort_asc_stable_from same (rev l) [] Hsame Hrev (Forall_nil _) (SSorted_nil _)).
    cbn [app]. now rewrite filter_rev, rev_involutive.
Qed.

End SortFacts.

Lemma run_perm {A} (lt : A -> A -> bool) (l : list A) :
  forall prev,
    (let (run, rest) := PyDict.ascending_run lt prev l in (run ++ rest)%list = l)
    /\ (let (run, rest) := PyDict.descending_run lt prev l in (run ++ rest)%list = l).
Proof.
  induction l as [|x l IH]; intros prev; cbn; [auto|].
  destruct (IH x) as [Ha Hd].
  destruct (lt x prev).
  - split; [reflexivity|].
    destruct (PyDict.descending_run lt x l). cbn. now rewrite Hd.
  - split; [|reflexivity].
    destruct (PyDict.ascending_run lt x l). cbn. now rewrite Ha.
Qed.

Lemma list_sort_perm {A} (lt : A -> A -> bool) (l : list A) :
  Permutation (PyDict.list_sort lt l) l.
Proof.
  unfold PyDict.list_sort.
  assert (Hb : forall rest run,
             Permutation (PyDict.binarysort lt run rest) (run ++ rest)%list).
  { unfold PyDict.binarysort.
    induction rest as [|x rest IH]; intros run; cbn [fold_left].
    - now rewrite app_nil_r.
    - rewrite IH. unfold PyDict.insert_pivot.
      set (k := PyDict.bisect _ _ _ _ _ _).
      rewrite <- (firstn_skipn k run) at 3.
      rewrite <- !app_assoc. apply Permutation_app_head.
      cbn. rewrite <- Permutation_middle. reflexivity. }
  destruct (PyDict.count_run lt l) as [run rest] eqn:E.
  rewrite Hb. unfold PyDict.count_run in E.
  destruct l as [|x [|y l]]; try (injection E as <- <-; now rewrite app_nil_r).
  destruct (run_perm lt l y) as [Ha Hd].
  destruct (lt y x).
  - destruct (PyDict.descending_run lt y l) as [run' rest'].
    injection E as <- <-. rewrite <- Hd.
    change (x :: y :: (run' ++ rest')%list) with ((x :: y :: run') ++ rest')%list.
    apply Permutation_app_tail. apply Permutation_sym, Permutation_rev.
  - destruct (PyDict.ascending_run lt y l) as [run' rest'].
    injection E as <- <-. now rewrite <- Ha.
Qed.

Lemma sorted_reverse_perm {A} (lt : A -> A -> bool) (l : list A) :
  Permutation (PyDict.sorted_reverse lt l) l.
Proof.
  unfold PyDict.sorted_reverse.
  rewrite <- Permutation_rev, list_sort_perm.
  apply Permutation_sym, Permutation_rev.
Qed.

Lemma tie_breaks (k x y z : float) :
  is_nan k = false -> is_nan x = false -> is_nan y = false -> is_nan z = false ->
  tie k x = true -> ltb x y = true -> ltb z y = false -> tie k z = false.
Proof.
  intros Hk Hx Hy Hz Ht Hxy Hzy. unfold tie in *.
  apply andb_true_iff in Ht. destruct Ht as [H1 H2].
  apply negb_true_iff in H1, H2.
  assert (H : ltb k z = true) by order_keys.
  now rewrite H.
Qed.

Lemma for_each_print {A} (f : A -> message) (l : list A) :
  forall w, for_each l (fun x => print (f x)) w = (Ok tt, say w (map f l)).
Proof.
  induction l as [|x l IH]; intros w; cbn [for_each map].
  - unfold ret, say. rewrite app_nil_r. now destruct w.
  - unfold bind. cbn [print]. rewrite IH. unfold say. cbn [file stdin stdout].
    now rewrite <- app_assoc.
Qed.

Lemma report_zero (month : string) (total : float) (cats : totals) (w : world) :
  eqb total zero = true ->
  report month total cats w = (Ok tt, say w [MsgNoExpensesFor month]).
Proof. intros H. unfold report. now rewrite H. Qed.

Lemma top_section_lines (l : list (cell * float)) :
  ((if (List.length l <? 3)%nat then [MsgNotEnoughData] else [])
   ++ map (fun it => MsgTop (fst it + 1) (fst (snd it)) (snd (snd it)))
          (enumerate 0 (firstn 3 l)))%list
  = top_section l.
Proof. destruct l as [|a [|b [|c l]]]; reflexivity. Qed.

Lemma report_nonzero (month : string) (total : float) (cats : totals) (w : world) :
  eqb total zero = false ->
  report month total cats w
  = (Ok tt, say w (full_report month total cats (sorted_categories cats))).
Proof.
  intros H. unfold report. rewrite H.
  unfold bind. cbn [print]. cbv zeta.
  rewrite for_each_print.
  unfold full_report, category_lines, say.
  cbn [file stdin stdout].
  rewrite <- top_section_lines.
  destruct (List.length (sorted_categories cats) <? 3)%nat; cbn [print ret];
    rewrite for_each_print; unfold say; cbn [file stdin stdout];
    repeat rewrite <- app_assoc; reflexivity.
Qed.

(** What [sorted] returns for subtotals that are numbers is their
    ranking. *)
Lemma sorted_categories_ranks (cats : totals) :
  Forall is_number cats -> ranks (sorted_categories cats) cats.
Proof.
  intros Hnum.
  assert (Hspec : forall x, is_nan x = false ->
            Permutation (sorted_categories cats) cats
            /\ descending (sorted_categories cats)
            /\ filter (tied_with x) (sorted_categories cats)
               = filter (tied_with x) cats).
  { intros x Hx. unfold sorted_categories, descending.
    apply (sorted_reverse_spec by_total is_number).
    - intros a b Ha Hb. now apply ltb_asym.
    - intros a b c Ha Hb Hc. now apply ltb_lt_le.
    - intros a b c Ha Hb Hc. unfold tied_with, by_total.
      now apply tie_breaks.
    - exact Hnum. }
  destruct (Hspec zero eq_refl) as (Hperm & Hdesc & _).
  split; [exact Hperm|]. split; [exact Hdesc|].
  intros x Hx. now apply Hspec.
Qed.

(** X21: with a total that is not zero and subtotals that are numbers,
    the report lists the categories in first-seen order and then, under
    the title of the top categories, their ranking: from the largest
    subtotal down, categories with equal subtotals in the order they
    were first met, at most the first three; with fewer than three
    categories the notice is printed first and all of them follow. *)
Theorem top_categories_ranked (month : string) (total : float)
    (cats : totals) (w : world) :
  eqb total zero = false ->
  Forall is_number cats ->
  exists ranking,
    ranks ranking cats
    /\ report month total cats w
       = (Ok tt, say w (full_report month total cats ranking)).
Proof.
  intros Hnz Hnum. exists (sorted_categories cats).
  split; [now apply sorted_categories_ranks|now apply report_nonzero].
Qed.

Lemma top_categories_ranked_witness :
  let cats : totals :=
    [(Some "Transport", of_Z 5); (Some "Food", of_Z 10); (Some "Rent", of_Z 5)] in
  let w := mkWorld (Some header_text) [] [] in
  exists ranking,
    ranks ranking cats
    /\ report "2025-09" (of_Z 20) cats w
       = (Ok tt, say w (full_report "2025-09" (of_Z 20) cats ranking)).
Proof.
  apply (top_categories_ranked "2025-09" (of_Z 20)
           [(Some "Transport", of_Z 5); (Some "Food", of_Z 10);
            (Some "Rent", of_Z 5)]
           (mkWorld (Some header_text) [] [])).
  - vm_compute. reflexivity.
  - repeat constructor.
Defined.

(** Equal subtotals keep the order in which their categories were first
    met, and only three lines are shown. *)
Example ranking_with_ties :
  let cats : totals :=
    [(Some "Rent", of_Z 5); (Some "Food", of_Z 7);
     (Some "Bills", of_Z 5); (Some "Travel", of_Z 7)] in
  sorted_categories cats
  = [(Some "Food", of_Z 7); (Some "Travel", of_Z 7);
     (Some "Rent", of_Z 5); (Some "Bills", of_Z 5)]
  /\ snd (report "2025-09" (of_Z 24) cats (mkWorld None [] []))
     = mkWorld None [] 
         [MsgSummaryFor "2025-09"; MsgTotal (of_Z 24); MsgByCategoryTitle;
          MsgCategory (Some "Rent") (of_Z 5); MsgCategory (Some "Food") (of_Z 7);
          MsgCategory (Some "Bills") (of_Z 5); MsgCategory (Some "Travel") (of_Z 7);
          MsgTopTitle;
          MsgTop 1 (Some "Food") (of_Z 7); MsgTop 2 (Some "Travel") (of_Z 7);
          MsgTop 3 (Some "Rent") (of_Z 5)].
Proof. vm_compute. split; reflexivity. Qed.

(** The records the script holds after the amounts 1, nan and 2 have
    been entered for three categories of one month. *)
Lemma store_with_nan_entered :
  main (mkWorld None
          ["1"; "2025-09-01"; "1"; "a"; "x";
           "1"; "2025-09-02"; "nan"; "b"; "y";
           "1"; "2025-09-03"; "2"; "c"; "z"; "5"] [])
  = (Ok tt,
     mkWorld (Some (file_text nan_records)) []
       [MsgInitialized;
        MsgMenu; MsgAddTitle; MsgAdded;
        MsgMenu; MsgAddTitle; MsgAdded;
        MsgMenu; MsgAddTitle; MsgAdded;
        MsgMenu; MsgGoodbye]).
Proof. vm_compute. reflexivity. Qed.

(** C6: on the records the script itself has written after the amounts
    1, nan and 2 were entered (the amount prompt lets nan through), the
    summary of the month has a total that is not zero and lists the
    top categories as A (1.0), B (nan), C (2.0): C, whose subtotal is
    the largest, comes last, behind A, whose subtotal is smaller. *)
Theorem nan_subtotal_breaks_ranking :
  let w := mkWorld (Some (file_text nan_records)) ["2025-09"] [] in
  get_monthly_summary w
  = (Ok tt,
     mkWorld (Some (file_text nan_records)) []
       [MsgSummaryTitle;
        MsgSummaryFor "2025-09"; MsgTotal nan; MsgByCategoryTitle;
        MsgCategory (Some "A") (of_Z 1); MsgCategory (Some "B") nan;
        MsgCategory (Some "C") (of_Z 2);
        MsgTopTitle;
        MsgTop 1 (Some "A") (of_Z 1); MsgTop 2 (Some "B") nan;
        MsgTop 3 (Some "C") (of_Z 2)])
  /\ eqb nan zero = false
  /\ ltb (of_Z 1) (of_Z 2) = true
  /\ ~ descending [(Some "A", of_Z 1); (Some "B", nan); (Some "C", of_Z 2)].
Proof.
  split; [vm_compute; reflexivity|].
  split; [reflexivity|]. split; [reflexivity|].
  intros H. inversion H as [|? ? _ Hall]; subst.
  inversion Hall as [|? ? _ Hall']; subst.
  inversion Hall' as [|? ? Hc _]; subst.
  vm_compute in Hc. discriminate.
Qed.

(* ================================================================== *)
(** * Sums of positive amounts *)
(* ================================================================== *)

Lemma shr_1_m (mrs : shr_record) :
  0 <= shr_m mrs -> shr_m (shr_1 mrs) = shr_m mrs / 2.
Proof.
  destruct mrs as [m r s]. cbn [shr_m]. intros Hm.
  rewrite <- Z.div2_div.
  destruct m as [|[p|p|]|p]; try reflexivity; lia.
Qed.

Lemma iter_shr_m (p : positive) :
  forall mrs, 0 <= shr_m mrs ->
    shr_m (iter_pos shr_1 p mrs) = shr_m mrs / 2 ^ Zpos p.
Proof.
  induction p as [p IH|p IH|]; intros mrs Hm; cbn [iter_pos].
  - assert (H1 : 0 <= shr_m (shr_1 mrs))
      by (rewrite shr_1_m by exact Hm; apply Z.div_pos; lia).
    assert (H2 : 0 <= shr_m (iter_pos shr_1 p (shr_1 mrs)))
      by (rewrite IH by exact H1; apply Z.div_pos; [exact H1|lia]).
    rewrite (IH _ H2), (IH _ H1), (shr_1_m _ Hm).
    rewrite !Z.div_div by lia.
    f_equal. replace (Zpos p~1) with (1 + Zpos p + Zpos p) by lia.
    rewrite !Z.pow_add_r by lia. change (2 ^ 1) with 2. ring.
  - assert (H1 : 0 <= shr_m (iter_pos shr_1 p mrs))
      by (rewrite IH by exact Hm; apply Z.div_pos; [exact Hm|lia]).
    rewrite (IH _ H1), (IH _ Hm).
    rewrite !Z.div_div by lia.
    f_equal. replace (Zpos p~0) with (Zpos p + Zpos p) by lia.
    now rewrite Z.pow_add_r by lia.
  - rewrite (shr_1_m _ Hm). reflexivity.
Qed.

Lemma digits2_lower (m : positive) :
  2 ^ (Zpos (digits2_pos m) - 1) <= Zpos m.
Proof.
  induction m as [m IH|m IH|]; cbn [digits2_pos].
  - rewrite Pos2Z.inj_succ.
    replace (Z.succ (Zpos (digits2_pos m)) - 1)
      with (Zpos (digits2_pos m) - 1 + 1) by lia.
    rewrite Z.pow_add_r by lia. lia.
  - rewrite Pos2Z.inj_succ.
    replace (Z.succ (Zpos (digits2_pos m)) - 1)
      with (Zpos (digits2_pos m) - 1 + 1) by lia.
    rewrite Z.pow_add_r by lia. lia.
  - cbn. lia.
Qed.

Lemma shr_record_of_loc_m (m : Z) (l : location) :
  shr_m (shr_record_of_loc m l) = m.
Proof. destruct l as [|[| |]]; reflexivity. Qed.

(** Shifting to the exponent of the format never goes below [emin]. *)
Lemma shr_fexp_scaled (m e : Z) (l : location) :
  emin prec emax <= snd (shr_fexp prec emax m e l).
Proof.
  unfold shr_fexp, shr, fexp, emin, prec, emax.
  destruct (Z.max (Zdigits2 m + e - 53) (3 - 1024 - 53) - e) eqn:E;
    cbn [snd]; lia.
Qed.

(** A positive mantissa stays positive when shifted. *)
Lemma shr_fexp_positive (m : positive) (e : Z) (l : location) :
  emin prec emax <= e ->
  0 < shr_m (fst (shr_fexp prec emax (Zpos m) e l)).
Proof.
  unfold shr_fexp, shr, fexp, emin, prec, emax. intros He.
  cbn [Zdigits2].
  pose proof (digits2_lower m) as Hd.
  destruct (Z.max (Zpos (digits2_pos m) + e - 53) (3 - 1024 - 53) - e) as [|n|n] eqn:E;
    cbn [fst]; rewrite ?shr_record_of_loc_m; try lia.
  rewrite iter_shr_m by (rewrite shr_record_of_loc_m; lia).
  rewrite shr_record_of_loc_m.
  apply Z.div_str_pos. split; [lia|].
  apply Z.le_trans with (2 ^ (Zpos (digits2_pos m) - 1)); [|exact Hd].
  apply Z.pow_le_mono_r; lia.
Qed.

Lemma round_nearest_even_ge (m : Z) (l : location) :
  m <= round_nearest_even m l.
Proof.
  destruct l as [|[| |]]; cbn; try lia. destruct (Z.even m); lia.
Qed.

Lemma binary_round_aux_scaled (s : bool) (m e : Z) (l : location) :
  well_scaled (binary_round_aux prec emax s m e l).
Proof.
  unfold binary_round_aux.
  destruct (shr_fexp prec emax m e l) as [mrs' e'].
  pose proof (shr_fexp_scaled
                (round_nearest_even (shr_m mrs') (loc_of_shr_record mrs'))
                e' loc_Exact) as H.
  destruct (shr_fexp prec emax
              (round_nearest_even (shr_m mrs') (loc_of_shr_record mrs'))
              e' loc_Exact) as [mrs'' e''].
  cbn [snd] in H.
  destruct (shr_m mrs''); [exact I| |exact I].
  destruct (e'' <=? emax - prec); [exact H|exact I].
Qed.

Lemma binary_round_aux_positive (m : positive) (e : Z) (l : location) :
  emin prec emax <= e ->
  above_zero (binary_round_aux prec emax false (Zpos m) e l).
Proof.
  intros He. split; [|apply binary_round_aux_scaled].
  unfold binary_round_aux.
  pose proof (shr_fexp_positive m e l He) as H1.
  pose proof (shr_fexp_scaled (Zpos m) e l) as H2.
  destruct (shr_fexp prec emax (Zpos m) e l) as [mrs' e'].
  cbn [fst snd] in H1, H2.
  pose proof (round_nearest_even_ge (shr_m mrs') (loc_of_shr_record mrs')) as H3.
  destruct (round_nearest_even (shr_m mrs') (loc_of_shr_record mrs'))
    as [|m'|m'] eqn:Em; try lia.
  pose proof (shr_fexp_positive m' e' loc_Exact H2) as H4.
  destruct (shr_fexp prec emax (Zpos m') e' loc_Exact) as [mrs'' e''].
  cbn [fst] in H4.
  destruct (shr_m mrs''); try lia.
  destruct (e'' <=? emax - prec); reflexivity.
Qed.

Lemma binary_round_positive (m : positive) (e : Z) :
  emin prec emax <= e ->
  above_zero (binary_round prec emax false m e).
Proof.
  intros He. unfold binary_round.
  destruct (shl_align m e (fexp prec emax (Zpos (digits2_pos m) + e)))
    as [mz ez] eqn:E.
  apply binary_round_aux_positive.
  unfold shl_align in E.
  pose proof (Z.le_max_r (Zpos (digits2_pos m) + e - prec) (emin prec emax)) as Hf.
  fold (fexp prec emax (Zpos (digits2_pos m) + e)) in Hf.
  destruct (fexp prec emax (Zpos (digits2_pos m) + e) - e) eqn:En;
    injection E as _ <-; first [exact He|exact Hf].
Qed.

Lemma above_zero_shape (x : float) :
  above_zero x ->
  x = S754_infinity false
  \/ exists m e, x = S754_finite false m e /\ emin prec emax <= e.
Proof.
  intros [Hlt Hws]. destruct x as [s|[|]| |[|] m e]; try discriminate.
  - now left.
  - right. now exists m, e.
Qed.

(** Adding a positive float to zero or to a positive float gives a
    positive float: the sum never rounds down to zero. *)
Lemma add_above_zero (acc y : float) :
  acc = zero \/ above_zero acc -> above_zero y -> above_zero (add acc y).
Proof.
  intros Hacc Hy.
  destruct (above_zero_shape y Hy) as [->|(my & ey & -> & Hey)].
  - destruct Hacc as [->|Hacc]; [exact Hy|].
    destruct (above_zero_shape acc Hacc) as [->|(m & e & -> & He)]; exact Hy.
  - destruct Hacc as [->|Hacc]; [exact Hy|].
    destruct (above_zero_shape acc Hacc) as [->|(m & e & -> & He)];
      [exact Hacc|].
    unfold add, SFadd. cbn [cond_Zopp].
    change (Zpos (fst (shl_align m e (Z.min e ey)))
            + Zpos (fst (shl_align my ey (Z.min e ey))))
      with (Zpos (fst (shl_align m e (Z.min e ey))
                  + fst (shl_align my ey (Z.min e ey)))).
    cbn [binary_normalize].
    apply binary_round_positive. lia.
Qed.

Lemma of_decimal_scaled (neg : bool) (m k : Z) : well_scaled (of_decimal neg m k).
Proof.
  unfold of_decimal.
  destruct (m <=? 0); [exact I|].
  destruct (0 <=? k).
  - unfold binary_normalize.
    destruct (cond_Zopp neg (m * 10 ^ k)) as [|p|p]; [exact I| |];
      unfold binary_round;
      match goal with
      | |- context [shl_align ?a ?b ?c] => destruct (shl_align a b c) as [mz ez]
      end; apply binary_round_aux_scaled.
  - destruct (SFdiv_core_binary prec emax m 0 (10 ^ (- k)) 0) as [[q e] l].
    apply binary_round_aux_scaled.
Qed.

Lemma float_of_string_scaled (s : string) (x : float) :
  float_of_string s = Some x -> well_scaled x.
Proof.
  unfold float_of_string.
  destruct (remove_underscores "000" s) as [t|]; [|discriminate].
  destruct (read_sign (strip t)) as [neg body].
  destruct (String.eqb (lower body) "inf" || String.eqb (lower body) "infinity").
  { intros H. injection H as <-. exact I. }
  destruct (String.eqb (lower body) "nan").
  { intros H. injection H as <-. exact I. }
  unfold read_decimal.
  destruct (read_digits 0 0 body) as [[ip ni] r1].
  match goal with
  | |- context [match ?t with pair _ _ => _ end] => destruct t as [[m nf] r2]
  end.
  destruct (ni + nf =? 0); [discriminate|].
  destruct (read_exponent r2) as [k|]; [|discriminate].
  intros H. injection H as <-. apply of_decimal_scaled.
Qed.

Lemma positive_amount_above_zero (s : stored) :
  positive_amount s -> above_zero (amount_of s).
Proof.
  intros (a & Ha & Hpos). unfold amount_of. rewrite Ha.
  split; [exact Hpos|]. now apply (float_of_string_scaled (sAmount s)).
Qed.

Lemma fold_add_above_zero (l : list float) :
  Forall above_zero l -> l <> [] ->
  forall acc, acc = zero \/ above_zero acc -> above_zero (fold_left add l acc).
Proof.
  induction 1 as [|x l Hx Hl IH]; intros Hne acc Hacc; [congruence|].
  cbn [fold_left].
  pose proof (add_above_zero acc x Hacc Hx) as Hstep.
  destruct l as [|y l']; [exact Hstep|].
  apply IH; [discriminate|now right].
Qed.

Lemma above_zero_not_zero (x : float) : above_zero x -> eqb x zero = false.
Proof.
  intros H. destruct (above_zero_shape x H) as [->|(m & e & -> & _)]; reflexivity.
Qed.

Lemma filter_nil_iff {A} (f : A -> bool) (l : list A) :
  filter f l = [] <-> forall x, In x l -> f x = false.
Proof.
  induction l as [|a l IH]; cbn.
  - split; [intros _ x []|reflexivity].
  - destruct (f a) eqn:E.
    + split; [discriminate|]. intros H. specialize (H a (or_introl eq_refl)). congruence.
    + rewrite IH. split.
      * intros H x [<-|Hx]; auto.
      * intros H x Hx. apply H. now right.
Qed.

(** C7: when every stored amount is strictly positive, the grand total
    is zero exactly when no stored record has a date that begins with
    the month text, and the report consists of the single line telling
    that there are no expenses exactly when the total is zero. *)
Theorem no_expenses_iff_nothing_in_month (recs : list stored) (month : string) :
  (forall s, In s recs -> positive_amount s) ->
  exists (total : float) (cats : totals),
    summary_loop month (map row_of recs) zero [] = Ok (total, cats)
    /\ (eqb total zero = true <-> forall s, In s recs -> in_month month s = false)
    /\ (forall w, report month total cats w = (Ok tt, say w [MsgNoExpensesFor month])
                  <-> eqb total zero = true).
Proof.
  intros Hpos.
  set (selected := filter (in_month month) recs).
  exists (fsum (map amount_of selected)), (accumulate selected []).
  split; [|split].
  - apply summary_loop_fold. intros s Hin _.
    destruct (Hpos s Hin) as (a & Ha & _). congruence.
  - rewrite <- filter_nil_iff. fold selected.
    destruct selected as [|s sel] eqn:Esel.
    + split; reflexivity.
    + split; [|discriminate]. intros Hz.
      assert (Habove : above_zero (fsum (map amount_of (s :: sel)))).
      { apply fold_add_above_zero; [|discriminate|now left].
        apply Forall_forall. intros x Hx. apply in_map_iff in Hx.
        destruct Hx as (s' & <- & Hs'). apply positive_amount_above_zero, Hpos.
        assert (Hin : In s' selected) by (rewrite Esel; exact Hs').
        unfold selected in Hin. apply filter_In in Hin. tauto. }
      rewrite (above_zero_not_zero _ Habove) in Hz. discriminate.
  - intros w. split.
    + intros Hrep.
      destruct (eqb (fsum (map amount_of selected)) zero) eqn:Ez; [reflexivity|].
      rewrite (report_nonzero _ _ _ _ Ez) in Hrep.
      injection Hrep as Hout. apply app_inv_head in Hout. discriminate.
    + apply report_zero.
Qed.

Lemma no_expenses_iff_nothing_in_month_witness :
  exists (total : float) (cats : totals),
    summary_loop "2025-11" (map row_of example_records) zero [] = Ok (total, cats)
    /\ (eqb total zero = true
        <-> forall s, In s example_records -> in_month "2025-11" s = false)
    /\ (forall w, report "2025-11" total cats w
                  = (Ok tt, say w [MsgNoExpensesFor "2025-11"])
                  <-> eqb total zero = true).
Proof.
  apply (no_expenses_iff_nothing_in_month example_records "2025-11").
  intros s Hin.
  repeat (destruct Hin as [<-|Hin];
          [eexists; split; vm_compute; reflexivity|]).
  destruct Hin.
Defined.

(* ================================================================== *)
(** * Round trip through the record store *)
(* ================================================================== *)

(** C8: a description typed with a carriage return in it is written as
    typed, inside quotes, but comes back from the file with a line feed
    in its place: the record read is not the record appended. *)
Theorem carriage_return_not_read_back :
  let w := mkWorld (Some header_text) ["2025-09-15"; "5.5"; "food"; text_with_cr] [] in
  let w' := snd (add_expense w) in
  fst (add_expense w) = Ok tt
  /\ file w' = Some (file_text [mkStored "2025-09-15" "Food" "5.5" text_with_cr])
  /\ fst (read_rows w') = Ok [row_of (mkStored "2025-09-15" "Food" "5.5" text_with_lf)]
  /\ text_with_lf <> text_with_cr.
Proof. vm_compute. repeat split. discriminate. Qed.

Lemma string_app_assoc (a b c : string) : (a ++ b) ++ c = a ++ (b ++ c).
Proof. induction a as [|x a IH]; cbn; [reflexivity|now rewrite IH]. Qed.

Lemma string_app_nil_r (a : string) : a ++ "" = a.
Proof. induction a as [|x a IH]; cbn; [reflexivity|now rewrite IH]. Qed.

(** ** Decoding *)

Lemma decode_crlf (s rest : string) :
  forall b,
    universal_newlines b (s ++ String CR (String LF rest))
    = universal_newlines b s ++ String LF (universal_newlines false rest).
Proof.
  induction s as [|c s IH]; intros b.
  - reflexivity.
  - cbn [append universal_newlines].
    destruct (Ascii.eqb c CR); [cbn; now rewrite IH|].
    destruct (Ascii.eqb c LF); [destruct b; cbn; now rewrite IH|].
    cbn. now rewrite IH.
Qed.

Lemma decode_no_cr (s : string) : no_cr s = true -> decoded s = s.
Proof.
  unfold decoded, no_cr. induction s as [|c s IH]; cbn [all_chars universal_newlines].
  - reflexivity.
  - intros H. apply andb_true_iff in H. destruct H as [Hc Hs].
    apply negb_true_iff in Hc. rewrite Hc.
    destruct (Ascii.eqb c LF) eqn:E;
      [apply Ascii.eqb_eq in E; subst c|]; now rewrite IH.
Qed.

Lemma special_false (c : ascii) :
  special c = false ->
  Ascii.eqb c delimiter = false /\ Ascii.eqb c quotechar = false
  /\ Ascii.eqb c CR = false /\ Ascii.eqb c LF = false.
Proof.
  unfold special. intros H.
  repeat (apply orb_false_iff in H; destruct H as [H ?]). auto.
Qed.

Lemma plain_no_cr (f : string) : needs_quotes f = false -> no_cr f = true.
Proof.
  unfold no_cr. induction f as [|c f IH]; cbn [needs_quotes all_chars].
  - reflexivity.
  - intros H. apply orb_false_iff in H. destruct H as [Hc Hf].
    apply special_false in Hc. destruct Hc as (_ & _ & Hcr & _).
    rewrite Hcr. cbn. now apply IH.
Qed.

(** ** Lines and records *)

Lemma lines_nonempty (c : ascii) (s : string) : lines (String c s) <> [].
Proof.
  cbn [lines]. destruct (Ascii.eqb c LF); [discriminate|].
  destruct (lines s); discriminate.
Qed.

Lemma read_records_segment (t rest : string) :
  forall r,
    read_records r (lines (t ++ String LF rest))
    = match run r (t ++ String LF EmptyString) with
      | None => None
      | Some (recs, rf) => option_map (app recs) (read_records rf (lines rest))
      end.
Proof.
  assert (Hlf : Ascii.eqb LF LF = true) by reflexivity.
  induction t as [|c t IH]; intros r.
  - cbn [append lines run]. rewrite Hlf. cbn [read_records feed_line].
    destruct (parse_process_char r (Some LF)) as [r1|]; [|reflexivity].
    destruct (parse_process_char r1 None) as [r2|]; [|reflexivity].
    destruct (at_start r2); cbn.
    + now destruct (read_records fresh (lines rest)).
    + now destruct (read_records r2 (lines rest)).
  - cbn [append run]. destruct (Ascii.eqb c LF) eqn:Ec.
    + cbn [lines]. rewrite Ec. cbn [read_records feed_line].
      destruct (parse_process_char r (Some c)) as [r1|]; [|reflexivity].
      destruct (parse_process_char r1 None) as [r2|]; [|reflexivity].
      destruct (at_start r2).
      * rewrite IH.
        destruct (run fresh (t ++ String LF "")) as [[recs rf]|]; [|reflexivity].
        cbn. now destruct (read_records rf (lines rest)).
      * apply IH.
    + cbn [lines]. rewrite Ec.
      destruct (lines (t ++ String LF rest)) as [|l ls] eqn:El.
      { destruct t as [|a t']; [cbn in El; discriminate|].
        destruct (lines_nonempty a (t' ++ String LF rest) El). }
      cbn [read_records feed_line].
      destruct (parse_process_char r (Some c)) as [r1|]; [|reflexivity].
      rewrite <- IH. reflexivity.
Qed.

(** ** The parser over the text of one field *)

Lemma run_char (r r1 : reader) (c : ascii) (t : string) :
  parse_process_char r (Some c) = Some r1 -> Ascii.eqb c LF = false ->
  run r (String c t) = run r1 t.
Proof. intros H1 H2. cbn [run]. now rewrite H1, H2. Qed.

Lemma run_line_feed (r r1 r2 : reader) (t : string) :
  parse_process_char r (Some LF) = Some r1 ->
  parse_process_char r1 None = Some r2 ->
  run r (String LF t)
  = if at_start r2
    then option_map (fun out => (fields r2 :: fst out, snd out)) (run fresh t)
    else run r2 t.
Proof. intros H1 H2. cbn [run]. now rewrite H1, H2. Qed.

Lemma decode_char (b : bool) (c : ascii) (s : string) :
  Ascii.eqb c CR = false -> Ascii.eqb c LF = false ->
  universal_newlines b (String c s) = String c (universal_newlines false s).
Proof. intros H1 H2. cbn [universal_newlines]. now rewrite H1, H2. Qed.

Lemma quoted_char (acc : string) (fs : list (string)) (c : ascii) :
  Ascii.eqb c quotechar = false ->
  parse_process_char (mkReader IN_QUOTED_FIELD acc fs) (Some c)
  = Some (mkReader IN_QUOTED_FIELD (acc ++ String c EmptyString) fs).
Proof. intros H. unfold parse_process_char. cbn [state]. now rewrite H. Qed.

Lemma run_quoted (f : string) :
  forall (b : bool) (acc : string) (fs : list string) (rest : string),
    run (mkReader IN_QUOTED_FIELD acc fs)
        (universal_newlines b (double_quotes f ++ String quotechar rest))
    = run (mkReader QUOTE_IN_QUOTED_FIELD (acc ++ universal_newlines b f) fs)
          (universal_newlines false rest).
Proof.
  induction f as [|c f IH]; intros b acc fs rest.
  - cbn [double_quotes append].
    rewrite (decode_char b quotechar) by reflexivity.
    rewrite (run_char _ (mkReader QUOTE_IN_QUOTED_FIELD acc fs)) by reflexivity.
    cbn [universal_newlines]. now rewrite string_app_nil_r.
  - cbn [double_quotes].
    destruct (Ascii.eqb c quotechar) eqn:Eq.
    { apply Ascii.eqb_eq in Eq. subst c. cbn [append].
      rewrite !(decode_char _ quotechar) by reflexivity.
      rewrite (run_char _ (mkReader QUOTE_IN_QUOTED_FIELD acc fs)) by reflexivity.
      rewrite (run_char _ (mkReader IN_QUOTED_FIELD (acc ++ String quotechar "") fs))
        by reflexivity.
      rewrite IH, string_app_assoc. reflexivity. }
    cbn [append].
    destruct (Ascii.eqb c CR) eqn:Ecr.
    { apply Ascii.eqb_eq in Ecr. subst c.
      change (universal_newlines b (String CR (double_quotes f ++ String quotechar rest)))
        with (String LF (universal_newlines true (double_quotes f ++ String quotechar rest))).
      change (universal_newlines b (String CR f))
        with (String LF (universal_newlines true f)).
      rewrite (run_line_feed _ (mkReader IN_QUOTED_FIELD (acc ++ String LF "") fs)
                 (mkReader IN_QUOTED_FIELD (acc ++ String LF "") fs))
        by reflexivity.
      cbn [at_start state]. rewrite IH, string_app_assoc. reflexivity. }
    destruct (Ascii.eqb c LF) eqn:Elf.
    { apply Ascii.eqb_eq in Elf. subst c. destruct b.
      - change (universal_newlines true (String LF (double_quotes f ++ String quotechar rest)))
          with (universal_newlines false (double_quotes f ++ String quotechar rest)).
        change (universal_newlines true (String LF f)) with (universal_newlines false f).
        apply IH.
      - change (universal_newlines false (String LF (double_quotes f ++ String quotechar rest)))
          with (String LF (universal_newlines false (double_quotes f ++ String quotechar rest))).
        change (universal_newlines false (String LF f))
          with (String LF (universal_newlines false f)).
        rewrite (run_line_feed _ (mkReader IN_QUOTED_FIELD (acc ++ String LF "") fs)
                   (mkReader IN_QUOTED_FIELD (acc ++ String LF "") fs))
          by reflexivity.
        cbn [at_start state]. rewrite IH, string_app_assoc. reflexivity. }
    rewrite !(decode_char b c) by assumption.
    rewrite (run_char _ _ c _ (quoted_char acc fs c Eq) Elf).
    rewrite IH, string_app_assoc. reflexivity.
Qed.

Lemma field_char (acc : string) (fs : list string) (c : ascii) :
  special c = false ->
  parse_process_char (mkReader IN_FIELD acc fs) (Some c)
  = Some (mkReader IN_FIELD (acc ++ String c EmptyString) fs).
Proof.
  intros H. apply special_false in H. destruct H as (Hd & Hq & Hcr & Hlf).
  unfold parse_process_char, is_newline. cbn [state]. now rewrite Hlf, Hcr, Hd.
Qed.

Lemma run_plain (f : string) :
  needs_quotes f = false ->
  forall (acc : string) (fs : list string) (rest : string),
    run (mkReader IN_FIELD acc fs) (universal_newlines false (f ++ rest))
    = run (mkReader IN_FIELD (acc ++ f) fs) (universal_newlines false rest).
Proof.
  induction f as [|c f IH]; intros Hf acc fs rest.
  - cbn [append]. now rewrite string_app_nil_r.
  - cbn [needs_quotes] in Hf. apply orb_false_iff in Hf. destruct Hf as [Hc Hf].
    pose proof (special_false c Hc) as (Hd & Hq & Hcr & Hlf).
    cbn [append]. rewrite (decode_char false c) by assumption.
    rewrite (run_char _ _ c _ (field_char acc fs c Hc) Hlf).
    rewrite (IH Hf), string_app_assoc. reflexivity.
Qed.

Lemma open_field (st : parser_state) (fs : list string) (c : ascii) :
  st = START_FIELD \/ st = START_RECORD ->
  special c = false ->
  parse_process_char (mkReader st EmptyString fs) (Some c)
  = Some (mkReader IN_FIELD (String c EmptyString) fs).
Proof.
  intros Hst H. apply special_false in H. destruct H as (Hd & Hq & Hcr & Hlf).
  unfold parse_process_char, start_field, is_newline.
  destruct Hst as [-> | ->]; cbn [state set_state field fields];
    now rewrite Hlf, Hcr, Hq, Hd.
Qed.

(** A written field followed by the delimiter: the parser has the field,
    decoded, and waits for the next one. *)
Lemma field_then_delimiter (f : string) (st : parser_state)
    (fs : list string) (rest : string) :
  st = START_FIELD \/ st = START_RECORD ->
  run (mkReader st EmptyString fs)
      (universal_newlines false (write_field f ++ String delimiter rest))
  = run (mkReader START_FIELD EmptyString (fs ++ [decoded f]))
        (universal_newlines false rest).
Proof.
  intros Hst. unfold write_field. destruct (needs_quotes f) eqn:Hq.
  - cbn [append]. rewrite string_app_assoc. cbn [append].
    rewrite (decode_char false quotechar) by reflexivity.
    rewrite (run_char _ (mkReader IN_QUOTED_FIELD EmptyString fs));
      [|destruct Hst as [-> | ->]; reflexivity|reflexivity].
    rewrite run_quoted.
    rewrite (decode_char false delimiter) by reflexivity.
    now rewrite (run_char _ (mkReader START_FIELD EmptyString
                               (fs ++ [decoded f]))) by reflexivity.
  - rewrite (decode_no_cr f (plain_no_cr f Hq)).
    destruct f as [|c f].
    + cbn [append]. rewrite (decode_char false delimiter) by reflexivity.
      rewrite (run_char _ (mkReader START_FIELD EmptyString (fs ++ [EmptyString])));
        [reflexivity|destruct Hst as [-> | ->]; reflexivity|reflexivity].
    + cbn [needs_quotes] in Hq. apply orb_false_iff in Hq. destruct Hq as [Hc Hf].
      pose proof (special_false c Hc) as (Hd & Hqc & Hcr & Hlf).
      cbn [append]. rewrite (decode_char false c) by assumption.
      rewrite (run_char _ _ c _ (open_field st fs c Hst Hc) Hlf).
      rewrite (run_plain f Hf). cbn [append].
      rewrite (decode_char false delimiter) by reflexivity.
      now rewrite (run_char _ (mkReader START_FIELD EmptyString
                                 (fs ++ [String c f]))) by reflexivity.
Qed.

(** The last written field and the line terminator: the record is given
    out and the parser starts afresh. *)
Lemma field_then_end (f : string) (fs : list string) :
  run (mkReader START_FIELD EmptyString fs)
      (universal_newlines false (write_field f ++ lineterminator))
  = Some ([(fs ++ [decoded f])%list], fresh).
Proof.
  unfold write_field. destruct (needs_quotes f) eqn:Hq.
  - cbn [append]. rewrite string_app_assoc. cbn [append].
    rewrite (decode_char false quotechar) by reflexivity.
    rewrite (run_char _ (mkReader IN_QUOTED_FIELD EmptyString fs)) by reflexivity.
    rewrite run_quoted. reflexivity.
  - rewrite (decode_no_cr f (plain_no_cr f Hq)).
    destruct f as [|c f].
    + reflexivity.
    + cbn [needs_quotes] in Hq. apply orb_false_iff in Hq. destruct Hq as [Hc Hf].
      pose proof (special_false c Hc) as (Hd & Hqc & Hcr & Hlf).
      cbn [append]. rewrite (decode_char false c) by assumption.
      rewrite (run_char _ _ c _ (open_field START_FIELD fs c (or_introl eq_refl) Hc) Hlf).
      rewrite (run_plain f Hf). reflexivity.
Qed.

Lemma writerow_four (a b c d : string) :
  writerow [a; b; c; d]
  = write_field a ++ String delimiter
      (write_field b ++ String delimiter
         (write_field c ++ String delimiter
            (write_field d ++ lineterminator))).
Proof.
  assert (H : writerow [a; b; c; d] = join_fields [a; b; c; d] ++ lineterminator)
    by (now destruct a).
  rewrite H. cbn [join_fields].
  rewrite !string_app_assoc. cbn [append].
  rewrite !string_app_assoc. cbn [append].
  rewrite !string_app_assoc. reflexivity.
Qed.

(** The line written for four cells is read as one record of four cells,
    each decoded. *)
Lemma run_written_row (a b c d : string) :
  run fresh (universal_newlines false (writerow [a; b; c; d]))
  = Some ([[decoded a; decoded b; decoded c; decoded d]], fresh).
Proof.
  rewrite writerow_four. unfold fresh.
  rewrite (field_then_delimiter a START_RECORD) by now right.
  rewrite (field_then_delimiter b START_FIELD) by now left.
  rewrite (field_then_delimiter c START_FIELD) by now left.
  rewrite field_then_end. reflexivity.
Qed.

Lemma writerow_ends (cells : list string) :
  exists body, writerow cells = body ++ lineterminator.
Proof.
  unfold writerow.
  destruct cells as [|[|x f] [|g cells]];
    first [now exists (String quotechar (String quotechar EmptyString))
          | eexists; reflexivity].
Qed.

(** Reading a text that begins with the line written for four cells. *)
Lemma read_written_row (a b c d rest : string) :
  read_records fresh (lines (universal_newlines false (writerow [a; b; c; d] ++ rest)))
  = option_map (cons [decoded a; decoded b; decoded c; decoded d])
      (read_records fresh (lines (universal_newlines false rest))).
Proof.
  pose proof (run_written_row a b c d) as Hrun.
  destruct (writerow_ends [a; b; c; d]) as [body Hbody].
  rewrite Hbody in *. unfold lineterminator in *.
  rewrite string_app_assoc. cbn [append].
  rewrite decode_crlf in *. cbn [universal_newlines] in Hrun.
  rewrite read_records_segment, Hrun.
  now destruct (read_records fresh (lines (universal_newlines false rest))).
Qed.

Lemma read_rows_text (recs : list stored) :
  read_records fresh (lines (universal_newlines false (rows_text recs)))
  = Some (map (fun s => stored_cells (read_back s)) recs).
Proof.
  induction recs as [|s recs IH]; cbn [rows_text map].
  - reflexivity.
  - unfold stored_cells at 1. rewrite read_written_row, IH. reflexivity.
Qed.

Lemma dict_rows_stored (recs : list stored) :
  dict_rows (FIELD_NAMES :: map stored_cells recs) = map row_of recs.
Proof.
  unfold dict_rows. induction recs as [|s recs IH]; cbn [map filter].
  - reflexivity.
  - cbn [stored_cells is_empty negb map]. now rewrite IH.
Qed.

Lemma read_rows_on_store (recs : list stored) (ins : list string)
    (out : list message) :
  read_rows (mkWorld (Some (file_text recs)) ins out)
  = (Ok (map row_of (map read_back recs)), mkWorld (Some (file_text recs)) ins out).
Proof.
  unfold read_rows, reader_of_file, file_text, header_text, FIELD_NAMES.
  cbn [file]. rewrite read_written_row, read_rows_text.
  cbn [option_map].
  change [decoded "Date"; decoded "Category"; decoded "Amount"; decoded "Description"]
    with FIELD_NAMES.
  rewrite <- (map_map read_back stored_cells).
  now rewrite dict_rows_stored.
Qed.

(** X18: the whole store: after [init_file] and any number of appended
    records, reading gives as many records, in the order of insertion,
    each with its four texts decoded; records without a carriage return
    come back unchanged. *)
Theorem store_roundtrip (recs : list stored) (ins : list string) (out : list message) :
  let w := mkWorld (Some (file_text recs)) ins out in
  read_rows w = (Ok (map row_of (map read_back recs)), w)
  /\ List.length (map read_back recs) = List.length recs
  /\ (Forall cr_free recs -> map read_back recs = recs).
Proof.
  intros w. split; [|split].
  - apply read_rows_on_store.
  - apply length_map.
  - intros Hfree. induction Hfree as [|s recs Hs Hrecs IH]; cbn [map].
    + reflexivity.
    + rewrite IH. f_equal. destruct Hs as (H1 & H2 & H3 & H4).
      unfold read_back. rewrite !decode_no_cr by assumption. now destruct s.
Qed.

(** ** Entry Capture on the store *)

Lemma rows_text_app (recs : list stored) (s : stored) :
  rows_text (recs ++ [s]) = rows_text recs ++ writerow (stored_cells s).
Proof.
  induction recs as [|r recs IH]; cbn [rows_text app].
  - now rewrite string_app_nil_r.
  - now rewrite IH, string_app_assoc.
Qed.

(** One accepted entry turns the store of [recs] into the store of
    [recs] followed by the new record. *)
Lemma add_expense_extends_store (recs : list stored) (ins : list string)
    (out : list message) (d a c t : string) (x : float) :
  strptime_ymd d <> None ->
  float_of_string a = Some x ->
  leb x zero = false ->
  add_expense (mkWorld (Some (file_text recs)) (d :: a :: c :: t :: ins) out)
  = (Ok tt,
     mkWorld (Some (file_text (recs ++ [stored_of (new_expense d x c t)])))
             ins (out ++ [MsgAddTitle; MsgAdded])).
Proof.
  intros Hd Ha Hx.
  rewrite (add_expense_accepts _ ins out d a c t x Hd Ha Hx).
  unfold file_text. rewrite rows_text_app, string_app_assoc. reflexivity.
Qed.

Lemma input_loop_read_date (w w' : world) (d : string) :
  input_loop read_date w = (Ok d, w') ->
  strptime_ymd d <> None /\ file w' = file w.
Proof.
  unfold input_loop.
  destruct (read_date (stdin w) (stdout w)) as [[r ins] out] eqn:E.
  intros H. injection H as -> <-. split; [|reflexivity].
  now apply (read_date_accepts _ _ _ _ _ E).
Qed.

Lemma input_loop_read_amount (w w' : world) (x : float) :
  input_loop read_amount w = (Ok x, w') ->
  (ltb zero x = true \/ is_nan x = true) /\ file w' = file w.
Proof.
  unfold input_loop.
  destruct (read_amount (stdin w) (stdout w)) as [[r ins] out] eqn:E.
  intros H. injection H as -> <-. split; [|reflexivity].
  now apply (read_amount_accepts _ _ _ _ _ E).
Qed.

(** X19: whenever [add_expense] ends normally it has appended the line of one
    record whose date [strptime] accepts and whose amount is above zero
    or is not a number. *)
Lemma add_expense_writes_checked_record (w w' : world) :
  add_expense w = (Ok tt, w') ->
  exists (d : string) (x : float) (c t : string),
    strptime_ymd d <> None
    /\ (ltb zero x = true \/ is_nan x = true)
    /\ file w'
       = Some (match file w with
               | Some content => content ++ row_text (new_expense d x c t)
               | None => row_text (new_expense d x c t)
               end).
Proof.
  unfold add_expense, bind. cbn [print].
  set (w1 := mkWorld (file w) (stdin w) (stdout w ++ [MsgAddTitle])).
  destruct (input_loop read_date w1) as [[d|e] w2] eqn:E1; [|discriminate].
  apply input_loop_read_date in E1. destruct E1 as [Hd F1].
  change (file w1) with (file w) in F1.
  destruct (input_loop read_amount w2) as [[x|e] w3] eqn:E2; [|discriminate].
  apply input_loop_read_amount in E2. destruct E2 as [Hx F2].
  pose proof (keeps_input w3) as F3.
  destruct (input w3) as [[c|e] w4]; [|discriminate].
  pose proof (keeps_input w4) as F4.
  destruct (input w4) as [[t|e] w5]; [|discriminate].
  cbn [snd] in F3, F4.
  unfold append_to_file, print. cbn [file stdin stdout].
  intros H. injection H as <-. cbn [file].
  exists d, x, c, t. split; [exact Hd|]. split; [exact Hx|].
  unfold row_text. replace (file w5) with (file w) by congruence. reflexivity.
Qed.

(* ================================================================== *)
(** * The operations on a store built by the script *)
(* ================================================================== *)

Lemma file_text_not_empty (recs : list stored) :
  exists c rest, file_text recs = String c rest.
Proof. unfold file_text, header_text. cbn. eauto. Qed.

Lemma missing_or_empty_on_store (recs : list stored) (ins : list string)
    (out : list message) :
  missing_or_empty (mkWorld (Some (file_text recs)) ins out)
  = (Ok false, mkWorld (Some (file_text recs)) ins out).
Proof.
  unfold missing_or_empty. cbn [file].
  destruct (file_text_not_empty recs) as (c & rest & ->). reflexivity.
Qed.

Lemma expense_line_stored (s : stored) :
  float_of_string (sAmount s) <> None ->
  expense_line (row_of s) = Ok (shown s).
Proof.
  intros H. unfold expense_line, shown, amount_of. cbn.
  destruct (float_of_string (sAmount s)); [reflexivity|congruence].
Qed.

Lemma print_expenses_stored (recs : list stored) :
  (forall s, In s recs -> float_of_string (sAmount s) <> None) ->
  forall w, for_each (map row_of recs) print_expense w = (Ok tt, say w (map shown recs)).
Proof.
  induction recs as [|s recs IH]; intros Hok w; cbn [map for_each].
  - unfold ret, say. rewrite app_nil_r. now destruct w.
  - unfold bind, print_expense at 1, bind, lift.
    rewrite (expense_line_stored s) by (apply Hok; now left).
    cbn [print]. rewrite IH by (intros s' Hs'; apply Hok; now right).
    unfold say. cbn [file stdin stdout]. now rewrite <- app_assoc.
Qed.

(** X20: viewing a store shows its records in the order of insertion,
    each with its texts as they are read back and its amount as a
    float; a store that holds the header only gets the line saying that
    no expenses were found. *)
Lemma view_expenses_on_store (recs : list stored) (ins : list string)
    (out : list message) :
  (forall s, In s recs -> float_of_string (sAmount (read_back s)) <> None) ->
  view_expenses (mkWorld (Some (file_text recs)) ins out)
  = (Ok tt,
     mkWorld (Some (file_text recs)) ins
       (out ++ MsgViewTitle
            :: match recs with
               | [] => [MsgNoneFound]
               | _ => map shown (map read_back recs)
               end)).
Proof.
  intros Hok. unfold view_expenses, bind. cbn [print file stdin stdout].
  rewrite missing_or_empty_on_store, read_rows_on_store.
  destruct recs as [|s recs].
  - cbn [map is_empty]. unfold print. cbn [file stdin stdout].
    now rewrite <- app_assoc.
  - cbn [map is_empty].
    rewrite (print_expenses_stored (read_back s :: map read_back recs)).
    + unfold say. cbn [file stdin stdout map]. now rewrite <- app_assoc.
    + intros s' Hs'. change (In s' (map read_back (s :: recs))) in Hs'.
      apply in_map_iff in Hs'. destruct Hs' as (s0 & <- & Hs0). now apply Hok.
Qed.

(** The summary of a store is the report on the totals the loop
    computes over its records. *)
Lemma get_monthly_summary_on_store (recs : list stored) (month : string)
    (ins : list string) (out : list message) :
  strptime_ym month <> None ->
  get_monthly_summary (mkWorld (Some (file_text recs)) (month :: ins) out)
  = match summary_loop month (map row_of (map read_back recs)) zero [] with
    | Ok sums =>
        report month (fst sums) (snd sums)
          (mkWorld (Some (file_text recs)) ins (out ++ [MsgSummaryTitle]))
    | Raise e =>
        (Raise e, mkWorld (Some (file_text recs)) ins (out ++ [MsgSummaryTitle]))
    end.
Proof.
  intros Hm. unfold get_monthly_summary, bind. cbn [print file stdin stdout].
  rewrite missing_or_empty_on_store. cbn [input stdin file stdout].
  destruct (strptime_ym month); [|congruence].
  rewrite read_rows_on_store. unfold lift.
  now destruct (summary_loop month (map row_of (map read_back recs)) zero []).
Qed.

(** The search of a store prints the records the loop selects. *)
Lemma search_expenses_on_store (recs : list stored) (mode term : string)
    (ins : list string) (out : list message) :
  search_expenses (mkWorld (Some (file_text recs)) (mode :: term :: ins) out)
  = match search_loop (lower mode) term (map row_of (map read_back recs)) [] with
    | Ok found =>
        if is_empty found
        then (Ok tt, mkWorld (Some (file_text recs)) ins
                       (out ++ [MsgSearchTitle; MsgNoMatching]))
        else for_each found print_expense
               (mkWorld (Some (file_text recs)) ins
                  (out ++ [MsgSearchTitle; MsgSearchResults]))
    | Raise e =>
        (Raise e, mkWorld (Some (file_text recs)) ins (out ++ [MsgSearchTitle]))
    end.
Proof.
  unfold search_expenses, bind. cbn [print file stdin stdout].
  rewrite missing_or_empty_on_store. cbn [input stdin file stdout].
  rewrite read_rows_on_store. unfold lift.
  destruct (search_loop (lower mode) term (map row_of (map read_back recs)) [])
    as [found|e]; [|reflexivity].
  destruct found; cbn [is_empty negb]; unfold print; cbn [file stdin stdout];
    now rewrite <- app_assoc.
Qed.

(** A whole session: the three records of the example are entered, the
    month 2025-09 is summarised and the program is left. *)
Example session_of_the_example :
  main (mkWorld None
          ["1"; "2025-09-01"; "10.00"; "food"; "groceries";
           "1"; "2025-09-02"; "5.00"; "transport"; "bus";
           "1"; "2025-10-01"; "99.00"; "Food"; "dinner";
           "4"; "2025-09"; "5"] [])
  = (Ok tt,
     mkWorld
       (Some (file_text
                [mkStored "2025-09-01" "Food" "10.0" "groceries";
                 mkStored "2025-09-02" "Transport" "5.0" "bus";
                 mkStored "2025-10-01" "Food" "99.0" "dinner"]))
       []
       [MsgInitialized;
        MsgMenu; MsgAddTitle; MsgAdded;
        MsgMenu; MsgAddTitle; MsgAdded;
        MsgMenu; MsgAddTitle; MsgAdded;
        MsgMenu; MsgSummaryTitle; MsgSummaryFor "2025-09";
        MsgTotal (of_Z 15); MsgByCategoryTitle;
        MsgCategory (Some "Food") (of_Z 10);
        MsgCategory (Some "Transport") (of_Z 5);
        MsgTopTitle; MsgNotEnoughData;
        MsgTop 1 (Some "Food") (of_Z 10);
        MsgTop 2 (Some "Transport") (of_Z 5);
        MsgMenu; MsgGoodbye]).
Proof. vm_compute. reflexivity. Qed.

(* ================================================================== *)
(** * The menu loop has turns enough *)
(* ================================================================== *)

Lemma uses_ret {A} (a : A) : uses_input (ret a).
Proof. intros w. cbn. lia. Qed.

Lemma uses_lift {A} (o : outcome A) : uses_input (lift o).
Proof. intros w. cbn. lia. Qed.

Lemma uses_print (m : message) : uses_input (print m).
Proof. intros w. cbn. lia. Qed.

Lemma uses_input_line : uses_input input.
Proof. intros w. unfold input. destruct (stdin w) eqn:E; cbn; rewrite ?E; cbn; lia. Qed.

Lemma uses_missing_or_empty : uses_input missing_or_empty.
Proof. intros w. cbn. lia. Qed.

Lemma uses_read_rows : uses_input read_rows.
Proof.
  intros w. unfold read_rows. destruct (file w) as [content|]; [|cbn; lia].
  destruct (reader_of_file content); cbn; lia.
Qed.

Lemma uses_append_to_file (text : string) : uses_input (append_to_file text).
Proof. intros w. cbn. lia. Qed.

Lemma uses_bind {A B} (m : io A) (k : A -> io B) :
  uses_input m -> (forall a, uses_input (k a)) -> uses_input (bind m k).
Proof.
  intros Hm Hk w. unfold bind.
  specialize (Hm w). destruct (m w) as [[a|e] w']; cbn [snd] in *.
  - specialize (Hk a w'). lia.
  - exact Hm.
Qed.

Lemma uses_if {A} (b : bool) (m1 m2 : io A) :
  uses_input m1 -> uses_input m2 -> uses_input (if b then m1 else m2).
Proof. now destruct b. Qed.

Lemma uses_for_each {A} (l : list A) (body : A -> io unit) :
  (forall x, uses_input (body x)) -> uses_input (for_each l body).
Proof.
  intros Hb. induction l as [|x l IH]; cbn [for_each].
  - apply uses_ret.
  - apply uses_bind; auto.
Qed.

Lemma read_date_length (ins : list string) :
  forall out, (List.length (snd (fst (read_date ins out))) <= List.length ins)%nat.
Proof.
  induction ins as [|l ins IH]; intros out; cbn [read_date].
  - cbn. lia.
  - destruct (strptime_ymd l); [cbn; lia|]. specialize (IH (out ++ [MsgInvalidDate])%list).
    cbn [List.length]. lia.
Qed.

Lemma read_amount_length (ins : list string) :
  forall out, (List.length (snd (fst (read_amount ins out))) <= List.length ins)%nat.
Proof.
  induction ins as [|l ins IH]; intros out; cbn [read_amount].
  - cbn. lia.
  - destruct (float_of_string l) as [x|].
    + destruct (leb x zero); [|cbn; lia].
      specialize (IH (out ++ [MsgAmountNotPositive])%list). cbn [List.length]. lia.
    + specialize (IH (out ++ [MsgInvalidAmount])%list). cbn [List.length]. lia.
Qed.

Lemma uses_read_date : uses_input (input_loop read_date).
Proof.
  intros w. unfold input_loop. pose proof (read_date_length (stdin w) (stdout w)).
  now destruct (read_date (stdin w) (stdout w)) as [[r ins] out].
Qed.

Lemma uses_read_amount : uses_input (input_loop read_amount).
Proof.
  intros w. unfold input_loop. pose proof (read_amount_length (stdin w) (stdout w)).
  now destruct (read_amount (stdin w) (stdout w)) as [[r ins] out].
Qed.

Create HintDb input_use.

#[local] Hint Resolve uses_ret uses_lift uses_print uses_input_line
  uses_missing_or_empty uses_read_rows uses_append_to_file
  uses_read_date uses_read_amount : input_use.

Ltac input_use :=
  repeat first
    [ progress auto with input_use
    | apply uses_if
    | apply uses_for_each; intros ?
    | apply uses_bind; [|intros ?] ].

Lemma uses_add_expense : uses_input add_expense.
Proof. unfold add_expense. input_use. Qed.

Lemma uses_view_expenses : uses_input view_expenses.
Proof. unfold view_expenses, print_expense. input_use. Qed.

Lemma uses_search_expenses : uses_input search_expenses.
Proof. unfold search_expenses, print_expense. input_use. Qed.

Lemma uses_get_monthly_summary : uses_input get_monthly_summary.
Proof.
  unfold get_monthly_summary, report. input_use.
  match goal with |- uses_input (match ?o with _ => _ end) => destruct o end;
    input_use.
Qed.

Lemma bind_print {B} (m : message) (k : unit -> io B) (w : world) :
  bind (print m) k w = k tt (say w [m]).
Proof. reflexivity. Qed.

Lemma bind_input_nil {B} (k : string -> io B) (w : world) :
  stdin w = [] -> bind input k w = (Raise EOFError, w).
Proof. intros H. unfold bind, input. now rewrite H. Qed.

Lemma bind_input_cons {B} (k : string -> io B) (w : world)
    (l : string) (rest : list string) :
  stdin w = l :: rest ->
  bind input k w = k l (mkWorld (file w) rest (stdout w)).
Proof. intros H. unfold bind, input. now rewrite H. Qed.

Lemma menu_turn_ext (k1 k2 : io unit) (w : world) :
  (forall w1, (List.length (stdin w1) < List.length (stdin w))%nat -> k1 w1 = k2 w1) ->
  menu_turn k1 w = menu_turn k2 w.
Proof.
  intros Hk. unfold menu_turn. rewrite !bind_print.
  destruct (stdin w) as [|choice rest] eqn:E.
  { now rewrite !bind_input_nil. }
  rewrite !(bind_input_cons _ _ choice rest) by exact E.
  assert (Hstep : forall (op : io unit) w1,
            uses_input op -> (List.length (stdin w1) <= List.length rest)%nat ->
            bind op (fun _ => k1) w1 = bind op (fun _ => k2) w1).
  { intros op w1 Hop Hw1. unfold bind. specialize (Hop w1).
    destruct (op w1) as [[[]|e] w2]; [|reflexivity].
    cbn [snd] in Hop. apply Hk. cbn [List.length]. lia. }
  repeat match goal with
  | |- context [String.eqb choice ?s] => destruct (String.eqb choice s)
  end;
  try reflexivity; apply Hstep; cbn [stdin]; try lia.
  - apply uses_add_expense.
  - apply uses_view_expenses.
  - apply uses_search_expenses.
  - apply uses_get_monthly_summary.
  - apply uses_print.
Qed.

(** With more turns than lines of input the loop never runs out of
    turns: one more turn changes nothing. *)
Lemma main_loop_turns (turns : nat) :
  forall w, (List.length (stdin w) < turns)%nat ->
            main_loop turns w = main_loop (S turns) w.
Proof.
  induction turns as [|turns IH]; intros w Hw; [lia|].
  change (main_loop (S (S turns)) w) with (menu_turn (main_loop (S turns)) w).
  change (main_loop (S turns) w) with (menu_turn (main_loop turns) w) at 1.
  apply menu_turn_ext. intros w1 Hw1. apply IH. lia.
Qed.

(* ================================================================== *)
(** * Subtotals of positive amounts are numbers *)
(* ================================================================== *)

Lemma set_keeps {V} (P : V -> Prop) (d : @PyDict.dict cell V) (k : cell) (v : V) :
  Forall (fun kv => P (snd kv)) d -> P v ->
  Forall (fun kv => P (snd kv)) (PyDict.set cell_eqb d k v).
Proof.
  intros Hd Hv. induction Hd as [|[k' v'] d Hkv Hd IH]; cbn.
  - now repeat constructor.
  - destruct (cell_eqb k' k); constructor; auto.
Qed.

Lemma get_keeps {V} (P : V -> Prop) (d : @PyDict.dict cell V) (k : cell) (v : V) :
  Forall (fun kv => P (snd kv)) d -> PyDict.get cell_eqb d k = Some v -> P v.
Proof.
  intros Hd. induction Hd as [|[k' v'] d Hkv Hd IH]; cbn; [discriminate|].
  destruct (cell_eqb k' k); [|exact IH].
  intros H. injection H as <-. exact Hkv.
Qed.

Lemma accumulate_above_zero (sel : list stored) :
  Forall (fun s => above_zero (amount_of s)) sel ->
  forall d : totals,
    Forall (fun kv => above_zero (snd kv)) d ->
    Forall (fun kv => above_zero (snd kv)) (accumulate sel d).
Proof.
  induction 1 as [|s sel Hs Hsel IH]; intros d Hd; cbn [accumulate fold_left].
  - exact Hd.
  - apply IH. unfold add_to. apply set_keeps; [exact Hd|].
    apply add_above_zero; [|exact Hs].
    destruct (PyDict.get cell_eqb d (category_of s)) as [t|] eqn:E; [right|now left].
    exact (get_keeps _ d _ t Hd E).
Qed.

(** With positive amounts in the store, the subtotals the summary ranks
    are all numbers. *)
Lemma subtotals_are_numbers (recs : list stored) (month : string) :
  (forall s, In s recs -> positive_amount s) ->
  Forall is_number (accumulate (filter (in_month month) recs) []).
Proof.
  intros Hpos.
  assert (H : Forall (fun kv : cell * float => above_zero (snd kv))
                (accumulate (filter (in_month month) recs) [])).
  { apply accumulate_above_zero; [|constructor].
    apply Forall_forall. intros s Hs. apply filter_In in Hs.
    apply positive_amount_above_zero, Hpos, Hs. }
  revert H. apply Forall_impl. intros kv Hkv. unfold is_number.
  destruct (above_zero_shape _ Hkv) as [->|(m & e & -> & _)]; reflexivity.
Qed.

(* ================================================================== *)
(** * The remaining paths of the script *)
(* ================================================================== *)

(** ** [init_file] *)

(** X1: [init_file] creates the file with the header line and says so
    when the file is missing, does nothing at all when the file exists,
    and so changes nothing when it is run a second time. *)
Theorem init_file_creates_once (w : world) :
  (file w = None ->
   init_file w
   = (Ok tt, mkWorld (Some header_text) (stdin w) (stdout w ++ [MsgInitialized])))
  /\ (forall content, file w = Some content -> init_file w = (Ok tt, w))
  /\ init_file (snd (init_file w)) = (Ok tt, snd (init_file w)).
Proof.
  assert (Hnone : file w = None ->
            init_file w
            = (Ok tt, mkWorld (Some header_text) (stdin w) (stdout w ++ [MsgInitialized]))).
  { intros H. unfold init_file, bind, path_exists, write_new_file, print.
    rewrite H. reflexivity. }
  assert (Hsome : forall w0 content, file w0 = Some content -> init_file w0 = (Ok tt, w0)).
  { intros w0 content H. unfold init_file, bind, path_exists, ret.
    rewrite H. reflexivity. }
  split; [exact Hnone|]. split; [apply Hsome|].
  destruct (file w) as [content|] eqn:E.
  - rewrite (Hsome w content E). cbn [snd]. now apply (Hsome w content).
  - rewrite (Hnone eq_refl). cbn [snd]. now apply (Hsome _ header_text).
Qed.

(** ** No file, or an empty one *)

(** X2: while the file is missing or empty, viewing, searching and
    summarising each print their title and the line saying that nothing
    is recorded yet; they end normally and read no input. *)
Theorem nothing_recorded_yet (w : world) :
  file w = None \/ file w = Some EmptyString ->
  view_expenses w = (Ok tt, say w [MsgViewTitle; MsgNoneRecorded])
  /\ search_expenses w = (Ok tt, say w [MsgSearchTitle; MsgNoneRecorded])
  /\ get_monthly_summary w = (Ok tt, say w [MsgSummaryTitle; MsgNoneRecorded]).
Proof.
  intros H.
  assert (Hm : forall out, missing_or_empty (mkWorld (file w) (stdin w) out)
                           = (Ok true, mkWorld (file w) (stdin w) out)).
  { intros out. unfold missing_or_empty. cbn [file].
    destruct H as [-> | ->]; reflexivity. }
  unfold view_expenses, search_expenses, get_monthly_summary.
  rewrite !bind_print. unfold say at 1 3 5. unfold bind.
  rewrite !Hm. unfold print, say. cbn [file stdin stdout].
  rewrite <- !app_assoc. repeat split.
Qed.

Lemma nothing_recorded_yet_witness :
  let w := mkWorld None ["date"; "2025-09-15"] [] in
  view_expenses w = (Ok tt, say w [MsgViewTitle; MsgNoneRecorded])
  /\ search_expenses w = (Ok tt, say w [MsgSearchTitle; MsgNoneRecorded])
  /\ get_monthly_summary w = (Ok tt, say w [MsgSummaryTitle; MsgNoneRecorded]).
Proof.
  apply (nothing_recorded_yet (mkWorld None ["date"; "2025-09-15"] [])).
  left. reflexivity.
Defined.

(** ** A store that holds the header only *)

Lemma file_text_nil : file_text [] = header_text.
Proof. reflexivity. Qed.

(** X3: on the file [init_file] has just created, viewing says that no
    expenses were found, a search says that nothing matches whatever the
    mode and the term, and the summary of any well-formed month says
    that the month has no expenses. *)
Theorem fresh_store_reports (ins : list string) (out : list message)
    (mode term month : string) :
  strptime_ym month <> None ->
  init_file (mkWorld None ins out)
  = (Ok tt, mkWorld (Some header_text) ins (out ++ [MsgInitialized]))
  /\ view_expenses (mkWorld (Some header_text) ins out)
     = (Ok tt, mkWorld (Some header_text) ins (out ++ [MsgViewTitle; MsgNoneFound]))
  /\ search_expenses (mkWorld (Some header_text) (mode :: term :: ins) out)
     = (Ok tt, mkWorld (Some header_text) ins (out ++ [MsgSearchTitle; MsgNoMatching]))
  /\ get_monthly_summary (mkWorld (Some header_text) (month :: ins) out)
     = (Ok tt,
        mkWorld (Some header_text) ins
                (out ++ [MsgSummaryTitle; MsgNoExpensesFor month])).
Proof.
  intros Hm. rewrite <- file_text_nil.
  split; [reflexivity|]. split; [|split].
  - unfold view_expenses, bind. cbn [print file stdin stdout].
    rewrite missing_or_empty_on_store, read_rows_on_store.
    cbn [map is_empty]. unfold print. cbn [file stdin stdout].
    now rewrite <- app_assoc.
  - now rewrite (search_expenses_on_store [] mode term ins out).
  - rewrite (get_monthly_summary_on_store [] month ins out Hm).
    cbn [map summary_loop fst snd]. rewrite report_zero by reflexivity.
    unfold say. cbn [file stdin stdout]. now rewrite <- app_assoc.
Qed.

Lemma fresh_store_reports_witness :
  init_file (mkWorld None [] [])
  = (Ok tt, mkWorld (Some header_text) [] ([] ++ [MsgInitialized]))
  /\ view_expenses (mkWorld (Some header_text) [] [])
     = (Ok tt, mkWorld (Some header_text) [] ([] ++ [MsgViewTitle; MsgNoneFound]))
  /\ search_expenses (mkWorld (Some header_text) ["category"; "food"] [])
     = (Ok tt, mkWorld (Some header_text) [] ([] ++ [MsgSearchTitle; MsgNoMatching]))
  /\ get_monthly_summary (mkWorld (Some header_text) ["2025-09"] [])
     = (Ok tt,
        mkWorld (Some header_text) []
                ([] ++ [MsgSummaryTitle; MsgNoExpensesFor "2025-09"])).
Proof.
  apply (fresh_store_reports [] [] "category" "food" "2025-09").
  vm_compute. discriminate.
Defined.

(** ** A month that is not well formed *)

(** X4: when the month typed is not accepted by [strptime(_, '%Y-%m')],
    the summary prints the message about the format and stops: one line
    of input is used and the file is not even read, whatever it holds. *)
Theorem invalid_month_stops (content month : string) (ins : list string)
    (out : list message) :
  content <> EmptyString ->
  strptime_ym month = None ->
  get_monthly_summary (mkWorld (Some content) (month :: ins) out)
  = (Ok tt, mkWorld (Some content) ins (out ++ [MsgSummaryTitle; MsgInvalidMonth])).
Proof.
  intros Hne Hm. unfold get_monthly_summary. rewrite bind_print.
  destruct content as [|c content]; [congruence|].
  unfold bind at 1. unfold missing_or_empty, say. cbn [file stdin stdout].
  rewrite (bind_input_cons _ _ month ins) by reflexivity.
  rewrite Hm. unfold print. cbn [file stdin stdout]. now rewrite <- app_assoc.
Qed.

Lemma invalid_month_stops_witness :
  get_monthly_summary (mkWorld (Some "not a csv file") ["2025-13"; "5"] [])
  = (Ok tt, mkWorld (Some "not a csv file") ["5"]
                    ([] ++ [MsgSummaryTitle; MsgInvalidMonth])).
Proof.
  apply (invalid_month_stops "not a csv file" "2025-13" ["5"] []).
  - discriminate.
  - vm_compute. reflexivity.
Defined.

(** ** The prompts of [add_expense] *)

Lemma read_date_skips (bad : list string) (d : string) (rest : list string) :
  forallb date_rejected bad = true ->
  strptime_ymd d <> None ->
  forall out,
    read_date (bad ++ d :: rest) out
    = (Ok d, rest, (out ++ map (fun _ => MsgInvalidDate) bad)%list).
Proof.
  intros Hbad Hd. induction bad as [|l bad IH]; intros out; cbn [app map read_date].
  - destruct (strptime_ymd d); [now rewrite app_nil_r|congruence].
  - cbn [forallb] in Hbad. apply andb_true_iff in Hbad. destruct Hbad as [Hl Hbad].
    unfold date_rejected in Hl. destruct (strptime_ymd l); [discriminate|].
    rewrite (IH Hbad). now rewrite <- app_assoc.
Qed.

Lemma read_amount_skips (bad : list string) (a : string) (x : float)
    (rest : list string) :
  forallb amount_rejected bad = true ->
  float_of_string a = Some x -> leb x zero = false ->
  forall out,
    read_amount (bad ++ a :: rest) out
    = (Ok x, rest, (out ++ map amount_message bad)%list).
Proof.
  intros Hbad Ha Hx. induction bad as [|l bad IH]; intros out;
    cbn [app map read_amount].
  - rewrite Ha, Hx. now rewrite app_nil_r.
  - cbn [forallb] in Hbad. apply andb_true_iff in Hbad. destruct Hbad as [Hl Hbad].
    unfold amount_rejected in Hl. unfold amount_message at 1.
    destruct (float_of_string l) as [y|]; [rewrite Hl|];
      rewrite (IH Hbad); now rewrite <- app_assoc.
Qed.

(** X5: [add_expense] asks again as long as it takes: every line the
    date prompt turns down costs one message about the date, every line
    the amount prompt turns down one message about the amount (not a
    number, or not positive), and the record is built from the first
    date and the first amount that pass, followed by the two free texts;
    exactly one line is appended to the file. *)
Theorem add_expense_asks_again (old : option string)
    (bad_dates bad_amounts ins : list string) (out : list message)
    (d a c t : string) (x : float) :
  forallb date_rejected bad_dates = true ->
  strptime_ymd d <> None ->
  forallb amount_rejected bad_amounts = true ->
  float_of_string a = Some x ->
  leb x zero = false ->
  add_expense
    (mkWorld old (bad_dates ++ d :: bad_amounts ++ a :: c :: t :: ins) out)
  = (Ok tt,
     mkWorld (Some (appended_to old (row_text (new_expense d x c t)))) ins
       (out ++ [MsgAddTitle]
            ++ map (fun _ => MsgInvalidDate) bad_dates
            ++ map amount_message bad_amounts
            ++ [MsgAdded])).
Proof.
  intros Hbd Hd Hba Ha Hx.
  unfold add_expense. rewrite bind_print.
  unfold bind at 1. unfold input_loop at 1. unfold say. cbn [file stdin stdout].
  rewrite (read_date_skips bad_dates d _ Hbd Hd).
  unfold bind at 1. unfold input_loop at 1. cbn [file stdin stdout].
  rewrite (read_amount_skips bad_amounts a x _ Hba Ha Hx).
  rewrite (bind_input_cons _ _ c (t :: ins)) by reflexivity.
  rewrite (bind_input_cons _ _ t ins) by reflexivity.
  unfold bind, append_to_file, print, appended_to, row_text.
  cbn [file stdin stdout].
  now rewrite <- !app_assoc.
Qed.

Lemma add_expense_asks_again_witness :
  add_expense
    (mkWorld (Some header_text)
       (["2025-13-01"; "09-15-2025"] ++ "2025-09-15"
          :: ["abc"; "-5"; "0"] ++ "5.5" :: "food" :: "lunch" :: ["5"]) [])
  = (Ok tt,
     mkWorld
       (Some (appended_to (Some header_text)
                (row_text (new_expense "2025-09-15" (of_decimal false 55 (-1))
                             "food" "lunch"))))
       ["5"]
       ([] ++ [MsgAddTitle]
           ++ map (fun _ => MsgInvalidDate) ["2025-13-01"; "09-15-2025"]
           ++ map amount_message ["abc"; "-5"; "0"]
           ++ [MsgAdded])).
Proof.
  apply (add_expense_asks_again (Some header_text)
           ["2025-13-01"; "09-15-2025"] ["abc"; "-5"; "0"] ["5"] []
           "2025-09-15" "5.5" "food" "lunch" (of_decimal false 55 (-1))).
  - vm_compute. reflexivity.
  - vm_compute. discriminate.
  - vm_compute. reflexivity.
  - vm_compute. reflexivity.
  - vm_compute. reflexivity.
Defined.

Lemma read_date_fails (ins : list string) :
  forall out e ins' out',
    read_date ins out = (Raise e, ins', out') -> e = EOFError /\ ins' = [].
Proof.
  induction ins as [|l ins IH]; intros out e ins' out' H; cbn [read_date] in H.
  - injection H as <- <- _. auto.
  - destruct (strptime_ymd l); [discriminate|]. now apply IH in H.
Qed.

Lemma read_amount_fails (ins : list string) :
  forall out e ins' out',
    read_amount ins out = (Raise e, ins', out') -> e = EOFError /\ ins' = [].
Proof.
  induction ins as [|l ins IH]; intros out e ins' out' H; cbn [read_amount] in H.
  - injection H as <- <- _. auto.
  - destruct (float_of_string l) as [x|]; [|now apply IH in H].
    destruct (leb x zero); [now apply IH in H|discriminate].
Qed.

Lemma input_fails (w w' : world) (e : exn) :
  input w = (Raise e, w') -> e = EOFError /\ stdin w' = [] /\ file w' = file w.
Proof.
  unfold input. destruct (stdin w) eqn:E; [|discriminate].
  intros H. injection H as <- <-. auto.
Qed.

(** X6: [add_expense] can only fail by running out of input, with
    [EOFError]; it has then read every line that was left and has not
    touched the file: nothing is written before all four answers are
    in. *)
Theorem add_expense_fails_without_writing (w w' : world) (e : exn) :
  add_expense w = (Raise e, w') ->
  e = EOFError /\ stdin w' = [] /\ file w' = file w.
Proof.
  unfold add_expense. rewrite bind_print. unfold bind.
  destruct (input_loop read_date (say w [MsgAddTitle])) as [[d|e1] w1] eqn:E1.
  - pose proof (input_loop_read_date _ _ _ E1) as [_ F1].
    destruct (input_loop read_amount w1) as [[x|e2] w2] eqn:E2.
    + pose proof (input_loop_read_amount _ _ _ E2) as [_ F2].
      destruct (input w2) as [[c|e3] w3] eqn:E3.
      * pose proof (keeps_input w2) as F3. rewrite E3 in F3. cbn [snd] in F3.
        destruct (input w3) as [[t|e4] w4] eqn:E4.
        -- unfold append_to_file, print. discriminate.
        -- intros H. injection H as <- <-.
           destruct (input_fails _ _ _ E4) as (He & Hs & Hf).
           repeat split; auto. cbn [file say] in *. congruence.
      * intros H. injection H as <- <-.
        destruct (input_fails _ _ _ E3) as (He & Hs & Hf).
        repeat split; auto. cbn [file say] in *. congruence.
    + intros H. injection H as <- <-.
      unfold input_loop in E2.
      destruct (read_amount (stdin w1) (stdout w1)) as [[r ins] out] eqn:E.
      injection E2 as -> <-.
      destruct (read_amount_fails _ _ _ _ _ E) as [He Hs].
      cbn [stdin file say] in *. repeat split; auto.
  - intros H. injection H as <- <-.
    unfold input_loop in E1.
    destruct (read_date (stdin (say w [MsgAddTitle])) (stdout (say w [MsgAddTitle])))
      as [[r ins] out] eqn:E.
    injection E1 as -> <-.
    destruct (read_date_fails _ _ _ _ _ E) as [He Hs].
    cbn [stdin file say]. repeat split; auto.
Qed.

Lemma add_expense_fails_without_writing_witness :
  EOFError = EOFError
  /\ stdin (mkWorld (Some header_text) [] [MsgAddTitle; MsgInvalidDate]) = []
  /\ file (mkWorld (Some header_text) [] [MsgAddTitle; MsgInvalidDate])
     = file (mkWorld (Some header_text) ["2025-13-01"; "2025-09-15"; "5.5"] []).
Proof.
  apply (add_expense_fails_without_writing
           (mkWorld (Some header_text) ["2025-13-01"; "2025-09-15"; "5.5"] [])
           (mkWorld (Some header_text) [] [MsgAddTitle; MsgInvalidDate])
           EOFError).
  vm_compute. reflexivity.
Defined.

Lemma add_expense_writes_checked_record_witness :
  exists (d : string) (x : float) (c t : string),
    strptime_ymd d <> None
    /\ (ltb zero x = true \/ is_nan x = true)
    /\ file (snd (add_expense
                    (mkWorld (Some header_text)
                       ["2025-09-15"; "5.5"; "food"; "lunch"] [])))
       = Some (match file (mkWorld (Some header_text)
                             ["2025-09-15"; "5.5"; "food"; "lunch"] []) with
               | Some content => content ++ row_text (new_expense d x c t)
               | None => row_text (new_expense d x c t)
               end).
Proof.
  apply (add_expense_writes_checked_record
           (mkWorld (Some header_text) ["2025-09-15"; "5.5"; "food"; "lunch"] [])).
  vm_compute. reflexivity.
Defined.

(** ** Viewing *)

Lemma view_expenses_on_store_witness :
  view_expenses (mkWorld (Some (file_text example_records)) ["5"] [])
  = (Ok tt,
     mkWorld (Some (file_text example_records)) ["5"]
       ([] ++ MsgViewTitle
           :: match example_records with
              | [] => [MsgNoneFound]
              | _ => map shown (map read_back example_records)
              end)).
Proof.
  apply (view_expenses_on_store example_records ["5"] []).
  intros s Hin.
  repeat (destruct Hin as [<-|Hin]; [vm_compute; discriminate|]).
  destruct Hin.
Defined.

Lemma expense_line_bad_amount (s : stored) :
  float_of_string (sAmount s) = None ->
  expense_line (row_of s) = Raise ValueError.
Proof. intros H. unfold expense_line. cbn. now rewrite H. Qed.

Lemma print_expenses_stop (good rest : list stored) (bad : stored) :
  (forall s, In s good -> float_of_string (sAmount s) <> None) ->
  float_of_string (sAmount bad) = None ->
  forall w,
    for_each (map row_of (good ++ bad :: rest)) print_expense w
    = (Raise ValueError, say w (map shown good)).
Proof.
  intros Hgood Hbad. induction good as [|s good IH]; intros w; cbn [app map for_each].
  - unfold bind, print_expense at 1, bind, lift.
    rewrite (expense_line_bad_amount bad Hbad).
    unfold say. cbn [map]. rewrite app_nil_r. now destruct w.
  - unfold bind, print_expense at 1, bind, lift.
    rewrite (expense_line_stored s) by (apply Hgood; now left).
    cbn [print]. rewrite IH by (intros s' Hs'; apply Hgood; now right).
    unfold say. cbn [file stdin stdout]. now rewrite <- app_assoc.
Qed.

(** X7: when the amount of a stored line does not read as a float (the
    file was edited by hand), viewing prints the records before that
    line and then fails with [ValueError]; nothing catches it. *)
Theorem view_stops_at_bad_amount (good rest : list stored) (bad : stored)
    (ins : list string) (out : list message) :
  (forall s, In s good -> float_of_string (sAmount (read_back s)) <> None) ->
  float_of_string (sAmount (read_back bad)) = None ->
  view_expenses (mkWorld (Some (file_text (good ++ bad :: rest))) ins out)
  = (Raise ValueError,
     mkWorld (Some (file_text (good ++ bad :: rest))) ins
             (out ++ MsgViewTitle :: map shown (map read_back good))).
Proof.
  intros Hgood Hbad. unfold view_expenses. rewrite bind_print.
  unfold bind at 1. unfold say. cbn [file stdin stdout].
  rewrite missing_or_empty_on_store.
  unfold bind at 1. rewrite read_rows_on_store.
  rewrite map_app. cbn [map].
  assert (Hne : is_empty (map row_of (map read_back good ++ read_back bad :: map read_back rest))
                = false) by (now destruct good).
  rewrite Hne.
  rewrite (print_expenses_stop (map read_back good) (map read_back rest) (read_back bad)).
  - unfold say. cbn [file stdin stdout]. now rewrite <- app_assoc.
  - intros s Hs. apply in_map_iff in Hs. destruct Hs as (s0 & <- & Hs0). now apply Hgood.
  - exact Hbad.
Qed.

Lemma view_stops_at_bad_amount_witness :
  view_expenses
    (mkWorld (Some (file_text ([mkStored "2025-09-01" "Food" "10.0" "a"]
                               ++ mkStored "2025-09-02" "Food" "ten" "b"
                               :: [mkStored "2025-09-03" "Food" "3.0" "c"])))
             [] [])
  = (Raise ValueError,
     mkWorld (Some (file_text ([mkStored "2025-09-01" "Food" "10.0" "a"]
                               ++ mkStored "2025-09-02" "Food" "ten" "b"
                               :: [mkStored "2025-09-03" "Food" "3.0" "c"])))
             []
             ([] ++ MsgViewTitle
                 :: map shown (map read_back [mkStored "2025-09-01" "Food" "10.0" "a"]))).
Proof.
  apply (view_stops_at_bad_amount
           [mkStored "2025-09-01" "Food" "10.0" "a"]
           [mkStored "2025-09-03" "Food" "3.0" "c"]
           (mkStored "2025-09-02" "Food" "ten" "b") [] []).
  - intros s [<-|[]]. vm_compute. discriminate.
  - vm_compute. reflexivity.
Defined.

(** ** The summary and a bad amount *)

Lemma summary_loop_stops (month : string) (before rest : list stored) (bad : stored) :
  (forall s, In s before -> in_month month s = true ->
             float_of_string (sAmount s) <> None) ->
  in_month month bad = true ->
  float_of_string (sAmount bad) = None ->
  forall (total : float) (d : totals),
    summary_loop month (map row_of (before ++ bad :: rest)) total d = Raise ValueError.
Proof.
  intros Hok Hin Hbad.
  induction before as [|s before IH]; intros total d; cbn [app map].
  - cbn -[getitem float_of_string add add_to].
    change (getitem (row_of bad) "Date") with (@Ok cell (Some (sDate bad))).
    change (getitem (row_of bad) "Amount") with (@Ok cell (Some (sAmount bad))).
    cbn [obind cell_startswith].
    change (startswith (sDate bad) month) with (in_month month bad).
    rewrite Hin. cbn [obind float_of_cell]. now rewrite Hbad.
  - assert (Hrest : forall s', In s' before -> in_month month s' = true ->
                               float_of_string (sAmount s') <> None)
      by (intros s' Hs'; apply Hok; now right).
    cbn -[getitem float_of_string add add_to].
    change (getitem (row_of s) "Date") with (@Ok cell (Some (sDate s))).
    change (getitem (row_of s) "Amount") with (@Ok cell (Some (sAmount s))).
    change (getitem (row_of s) "Category") with (@Ok cell (Some (sCategory s))).
    cbn [obind cell_startswith].
    change (startswith (sDate s) month) with (in_month month s).
    destruct (in_month month s) eqn:Hs; [|now apply IH].
    specialize (Hok s (or_introl eq_refl) Hs). unfold float_of_cell.
    destruct (float_of_string (sAmount s)); [|congruence].
    cbn [obind]. now apply IH.
Qed.

(** X8: the summary converts the amounts of the records of the month
    only.  An amount of that month that does not read as a float makes
    the summary fail with [ValueError] after its title, before any total
    is printed; amounts of other months are never looked at. *)
Theorem summary_fails_on_bad_amount (month : string)
    (before rest : list stored) (bad : stored)
    (ins : list string) (out : list message) :
  strptime_ym month <> None ->
  (forall s, In s before -> in_month month (read_back s) = true ->
             float_of_string (sAmount (read_back s)) <> None) ->
  in_month month (read_back bad) = true ->
  float_of_string (sAmount (read_back bad)) = None ->
  get_monthly_summary
    (mkWorld (Some (file_text (before ++ bad :: rest))) (month :: ins) out)
  = (Raise ValueError,
     mkWorld (Some (file_text (before ++ bad :: rest))) ins
             (out ++ [MsgSummaryTitle])).
Proof.
  intros Hm Hok Hin Hbad.
  rewrite (get_monthly_summary_on_store _ month ins out Hm).
  rewrite map_app. cbn [map].
  rewrite (summary_loop_stops month (map read_back before) (map read_back rest)
             (read_back bad)); auto.
  intros s Hs. apply in_map_iff in Hs. destruct Hs as (s0 & <- & Hs0). now apply Hok.
Qed.

Lemma summary_fails_on_bad_amount_witness :
  get_monthly_summary
    (mkWorld (Some (file_text ([mkStored "2025-08-31" "Food" "none" "a"]
                               ++ mkStored "2025-09-02" "Food" "ten" "b"
                               :: [])))
             ("2025-09" :: []) [])
  = (Raise ValueError,
     mkWorld (Some (file_text ([mkStored "2025-08-31" "Food" "none" "a"]
                               ++ mkStored "2025-09-02" "Food" "ten" "b"
                               :: [])))
             [] ([] ++ [MsgSummaryTitle])).
Proof.
  apply (summary_fails_on_bad_amount "2025-09"
           [mkStored "2025-08-31" "Food" "none" "a"] []
           (mkStored "2025-09-02" "Food" "ten" "b") [] []).
  - vm_compute. discriminate.
  - intros s [<-|[]]. vm_compute. discriminate.
  - vm_compute. reflexivity.
  - vm_compute. reflexivity.
Defined.

(** ** A line with a single cell *)

Lemma read_rows_text_then (recs : list stored) (tail : string) :
  read_records fresh (lines (universal_newlines false (rows_text recs ++ tail)))
  = option_map (app (map (fun s => stored_cells (read_back s)) recs))
      (read_records fresh (lines (universal_newlines false tail))).
Proof.
  induction recs as [|s recs IH]; cbn [rows_text map append].
  - now destruct (read_records fresh (lines (universal_newlines false tail))).
  - unfold stored_cells at 1. rewrite string_app_assoc, read_written_row, IH.
    now destruct (read_records fresh (lines (universal_newlines false tail))).
Qed.

Lemma run_single_cell (d : string) :
  needs_quotes d = false -> d <> EmptyString ->
  run fresh (universal_newlines false (d ++ lineterminator)) = Some ([[d]], fresh).
Proof.
  intros Hq Hne. destruct d as [|c d]; [congruence|].
  cbn [needs_quotes] in Hq. apply orb_false_iff in Hq. destruct Hq as [Hc Hd].
  pose proof (special_false c Hc) as (_ & _ & Hcr & Hlf).
  cbn [append]. rewrite (decode_char false c) by assumption.
  unfold fresh.
  rewrite (run_char _ _ c _ (open_field START_RECORD [] c (or_intror eq_refl) Hc) Hlf).
  rewrite (run_plain d Hd). reflexivity.
Qed.

Lemma read_single_cell (d : string) :
  needs_quotes d = false -> d <> EmptyString ->
  read_records fresh (lines (universal_newlines false (d ++ lineterminator)))
  = Some [[d]].
Proof.
  intros Hq Hne. pose proof (run_single_cell d Hq Hne) as Hrun.
  unfold lineterminator in *. rewrite decode_crlf in *.
  cbn [universal_newlines] in *.
  now rewrite read_records_segment, Hrun.
Qed.

Lemma read_rows_with_single_cell (recs : list stored) (d : string)
    (ins : list string) (out : list message) :
  needs_quotes d = false -> d <> EmptyString ->
  read_rows (mkWorld (Some (file_text recs ++ d ++ lineterminator)) ins out)
  = (Ok (map row_of (map read_back recs) ++ [short_row d])%list,
     mkWorld (Some (file_text recs ++ d ++ lineterminator)) ins out).
Proof.
  intros Hq Hne.
  unfold read_rows, reader_of_file, file_text, header_text, FIELD_NAMES.
  cbn [file]. rewrite !string_app_assoc.
  rewrite read_written_row, read_rows_text_then, (read_single_cell d Hq Hne).
  cbn [option_map].
  change [decoded "Date"; decoded "Category"; decoded "Amount"; decoded "Description"]
    with FIELD_NAMES.
  f_equal. f_equal.
  unfold dict_rows. rewrite filter_app, map_app.
  rewrite <- (map_map read_back stored_cells).
  pose proof (dict_rows_stored (map read_back recs)) as H. unfold dict_rows in H.
  rewrite H. reflexivity.
Qed.

Lemma search_loop_meets_short_row (term d : string) (good : list stored)
    (rest : list row) :
  forall found,
    search_loop "category" term (map row_of good ++ short_row d :: rest) found
    = Raise AttributeError.
Proof.
  induction good as [|s good IH]; intros found; cbn [map app search_loop].
  - reflexivity.
  - rewrite row_matches_category. cbn [obind]. apply IH.
Qed.

Lemma print_expenses_meet_short_row (d : string) (good : list stored) (rest : list row) :
  (forall s, In s good -> float_of_string (sAmount s) <> None) ->
  forall w,
    for_each (map row_of good ++ short_row d :: rest) print_expense w
    = (Raise TypeError, say w (map shown good)).
Proof.
  intros Hgood. induction good as [|s good IH]; intros w; cbn [app map for_each].
  - unfold bind, print_expense at 1, bind, lift. cbn [expense_line].
    unfold say. cbn [map]. rewrite app_nil_r. now destruct w.
  - unfold bind, print_expense at 1, bind, lift.
    rewrite (expense_line_stored s) by (apply Hgood; now left).
    cbn [print]. rewrite IH by (intros s' Hs'; apply Hgood; now right).
    unfold say. cbn [file stdin stdout]. now rewrite <- app_assoc.
Qed.

(** X9: a last line of the file that holds one cell only (a line cut
    short by hand) is read as a row whose other cells are [None].
    Viewing then prints the records before it and fails with
    [TypeError] on [float(None)]; a search by category fails with
    [AttributeError] on [None.lower()] before printing any result. *)
Theorem line_cut_short (recs : list stored) (d mode term : string)
    (ins : list string) (out : list message) :
  needs_quotes d = false -> d <> EmptyString ->
  lower mode = "category" ->
  (forall s, In s recs -> float_of_string (sAmount (read_back s)) <> None) ->
  let content := file_text recs ++ d ++ lineterminator in
  view_expenses (mkWorld (Some content) ins out)
  = (Raise TypeError,
     mkWorld (Some content) ins
             (out ++ MsgViewTitle :: map shown (map read_back recs)))
  /\ search_expenses (mkWorld (Some content) (mode :: term :: ins) out)
     = (Raise AttributeError,
        mkWorld (Some content) ins (out ++ [MsgSearchTitle])).
Proof.
  intros Hq Hne Hmode Hok content.
  assert (Hm : forall i o, missing_or_empty (mkWorld (Some content) i o)
                           = (Ok false, mkWorld (Some content) i o)).
  { intros i o. unfold missing_or_empty, content. cbn [file].
    destruct (file_text_not_empty recs) as (c & r & ->). reflexivity. }
  split.
  - unfold view_expenses. rewrite bind_print.
    unfold bind at 1. unfold say. cbn [file stdin stdout]. rewrite Hm.
    unfold bind at 1. unfold content.
    rewrite (read_rows_with_single_cell recs d _ _ Hq Hne).
    assert (Hnon : is_empty (map row_of (map read_back recs) ++ [short_row d])%list = false)
      by (now destruct recs).
    rewrite Hnon.
    rewrite (print_expenses_meet_short_row d (map read_back recs) []).
    + unfold say. cbn [file stdin stdout]. now rewrite <- app_assoc.
    + intros s Hs. apply in_map_iff in Hs. destruct Hs as (s0 & <- & Hs0). now apply Hok.
  - unfold search_expenses. rewrite bind_print.
    unfold bind at 1. unfold say. cbn [file stdin stdout]. rewrite Hm.
    rewrite (bind_input_cons _ _ mode (term :: ins)) by reflexivity.
    rewrite (bind_input_cons _ _ term ins) by reflexivity.
    cbn [file stdin stdout]. unfold bind at 1. unfold content.
    rewrite (read_rows_with_single_cell recs d _ _ Hq Hne).
    unfold bind, lift. rewrite Hmode.
    now rewrite search_loop_meets_short_row.
Qed.

Lemma line_cut_short_witness :
  let content :=
    file_text [mkStored "2025-09-01" "Food" "10.0" "a"] ++ "2025-09-02" ++ lineterminator in
  view_expenses (mkWorld (Some content) [] [])
  = (Raise TypeError,
     mkWorld (Some content) []
             ([] ++ MsgViewTitle
                 :: map shown (map read_back [mkStored "2025-09-01" "Food" "10.0" "a"])))
  /\ search_expenses (mkWorld (Some content) ("Category" :: "food" :: []) [])
     = (Raise AttributeError,
        mkWorld (Some content) [] ([] ++ [MsgSearchTitle])).
Proof.
  apply (line_cut_short [mkStored "2025-09-01" "Food" "10.0" "a"]
           "2025-09-02" "Category" "food" [] []).
  - vm_compute. reflexivity.
  - discriminate.
  - vm_compute. reflexivity.
  - intros s [<-|[]]. vm_compute. discriminate.
Defined.

(** ** Searching a store *)

Lemma row_matches_selects (search_by term : string) (s : stored) :
  row_matches search_by term (row_of s) = Ok (selects search_by term s).
Proof.
  unfold selects.
  destruct (String.eqb search_by "date") eqn:Ed.
  - apply String.eqb_eq in Ed. subst search_by. apply row_matches_date.
  - destruct (String.eqb search_by "category") eqn:Ec.
    + apply String.eqb_eq in Ec. subst search_by. apply row_matches_category.
    + unfold row_matches. now rewrite Ed, Ec.
Qed.

(** X10: on a store built by the script, a search prints its title and
    then either the line saying that nothing matches or the heading of
    the results followed by the records selected, in file order.  The
    mode is compared after lower-casing, so Date and CATEGORY select the
    two modes as well, and any other mode selects nothing. *)
Theorem search_prints_matches (recs : list stored) (mode term : string)
    (ins : list string) (out : list message) :
  (forall s, In s recs -> float_of_string (sAmount (read_back s)) <> None) ->
  let found := filter (selects (lower mode) term) (map read_back recs) in
  search_expenses (mkWorld (Some (file_text recs)) (mode :: term :: ins) out)
  = (Ok tt,
     mkWorld (Some (file_text recs)) ins
       (out ++ MsgSearchTitle
            :: match found with
               | [] => [MsgNoMatching]
               | _ => MsgSearchResults :: map shown found
               end)).
Proof.
  intros Hok found. rewrite search_expenses_on_store.
  rewrite (search_loop_filter (lower mode) term (selects (lower mode) term))
    by (intros s; apply row_matches_selects).
  cbn [app]. fold found.
  assert (Hfound : forall s, In s found -> float_of_string (sAmount s) <> None).
  { intros s Hs. unfold found in Hs. apply filter_In in Hs. destruct Hs as [Hs _].
    apply in_map_iff in Hs. destruct Hs as (s0 & <- & Hs0). now apply Hok. }
  destruct found as [|s found'] eqn:E.
  - reflexivity.
  - cbn [map is_empty].
    rewrite (print_expenses_stored (s :: found') Hfound).
    unfold say. cbn [file stdin stdout]. now rewrite <- app_assoc.
Qed.

Lemma search_prints_matches_witness :
  let found := filter (selects (lower "Date") "2025-09-02") (map read_back example_records) in
  search_expenses
    (mkWorld (Some (file_text example_records)) ("Date" :: "2025-09-02" :: []) [])
  = (Ok tt,
     mkWorld (Some (file_text example_records)) []
       ([] ++ MsgSearchTitle
           :: match found with
              | [] => [MsgNoMatching]
              | _ => MsgSearchResults :: map shown found
              end)).
Proof.
  apply (search_prints_matches example_records "Date" "2025-09-02" [] []).
  intros s Hin.
  repeat (destruct Hin as [<-|Hin]; [vm_compute; discriminate|]).
  destruct Hin.
Defined.

(** ** Summarising a store *)

(** X11: on a store built by the script and for a well-formed month,
    the summary prints its title and then, when the total of the month
    is zero, the single line saying that the month has no expenses, and
    otherwise the total, the subtotal of every category in the order the
    categories were first met, and the top of their ranking.  The
    subtotals are taken to be numbers: a subtotal that is not a number
    has no place in a ranking. *)
Theorem summary_prints_report (recs : list stored) (month : string)
    (ins : list string) (out : list message) :
  strptime_ym month <> None ->
  (forall s, In s recs -> in_month month (read_back s) = true ->
             float_of_string (sAmount (read_back s)) <> None) ->
  let selected := filter (in_month month) (map read_back recs) in
  let total := fsum (map amount_of selected) in
  let cats := accumulate selected [] in
  Forall is_number cats ->
  exists ranking,
    ranks ranking cats
    /\ get_monthly_summary (mkWorld (Some (file_text recs)) (month :: ins) out)
       = (Ok tt,
          mkWorld (Some (file_text recs)) ins
            (out ++ MsgSummaryTitle
                 :: (if eqb total zero then [MsgNoExpensesFor month]
                     else full_report month total cats ranking))).
Proof.
  intros Hm Hok selected total cats Hnum.
  exists (sorted_categories cats).
  split; [now apply sorted_categories_ranks|].
  rewrite (get_monthly_summary_on_store recs month ins out Hm).
  rewrite (summary_loop_fold month (map read_back recs)).
  - cbn [fst snd]. fold selected. fold (fsum (map amount_of selected)).
    fold total. fold cats.
    destruct (eqb total zero) eqn:Ez.
    + rewrite (report_zero _ _ _ _ Ez). unfold say. cbn [file stdin stdout].
      now rewrite <- app_assoc.
    + rewrite (report_nonzero _ _ _ _ Ez). unfold say. cbn [file stdin stdout].
      now rewrite <- app_assoc.
  - intros s Hs. apply in_map_iff in Hs. destruct Hs as (s0 & <- & Hs0). now apply Hok.
Qed.

Lemma summary_prints_report_witness :
  let selected := filter (in_month "2025-09") (map read_back example_records) in
  let total := fsum (map amount_of selected) in
  let cats := accumulate selected [] in
  exists ranking,
    ranks ranking cats
    /\ get_monthly_summary
         (mkWorld (Some (file_text example_records)) ("2025-09" :: []) [])
       = (Ok tt,
          mkWorld (Some (file_text example_records)) []
            ([] ++ MsgSummaryTitle
                :: (if eqb total zero then [MsgNoExpensesFor "2025-09"]
                    else full_report "2025-09" total cats ranking))).
Proof.
  apply (summary_prints_report example_records "2025-09" [] []).
  - vm_compute. discriminate.
  - intros s Hin _.
    repeat (destruct Hin as [<-|Hin]; [vm_compute; discriminate|]).
    destruct Hin.
  - vm_compute. repeat constructor.
Defined.

(** ** A record is found by its category *)

Lemma code_range (c : ascii) : 0 <= code c < 256.
Proof.
  unfold code. pose proof (N_ascii_bounded c). lia.
Qed.

Lemma code_inj (a b : ascii) : code a = code b -> a = b.
Proof.
  unfold code. intros H. apply N2Z.inj in H.
  rewrite <- (ascii_N_embedding a), <- (ascii_N_embedding b). now rewrite H.
Qed.

Lemma is_upper_code (c : ascii) : is_upper c = true <-> 65 <= code c <= 90.
Proof. unfold is_upper. rewrite andb_true_iff, !Z.leb_le. tauto. Qed.

Lemma is_lower_code (c : ascii) : is_lower c = true <-> 97 <= code c <= 122.
Proof. unfold is_lower. rewrite andb_true_iff, !Z.leb_le. tauto. Qed.

Ltac case_codes :=
  repeat match goal with
  | |- context [is_upper ?c] =>
      let E := fresh "E" in
      destruct (is_upper c) eqn:E;
      [apply is_upper_code in E
      |assert (~ 65 <= code c <= 90) by (rewrite <- is_upper_code; congruence); clear E]
  | |- context [is_lower ?c] =>
      let E := fresh "E" in
      destruct (is_lower c) eqn:E;
      [apply is_lower_code in E
      |assert (~ 97 <= code c <= 122) by (rewrite <- is_lower_code; congruence); clear E]
  | H : context [is_upper ?c] |- _ =>
      let E := fresh "E" in
      destruct (is_upper c) eqn:E;
      [apply is_upper_code in E
      |assert (~ 65 <= code c <= 90) by (rewrite <- is_upper_code; congruence); clear E]
  | H : context [is_lower ?c] |- _ =>
      let E := fresh "E" in
      destruct (is_lower c) eqn:E;
      [apply is_lower_code in E
      |assert (~ 97 <= code c <= 122) by (rewrite <- is_lower_code; congruence); clear E]
  end.

Lemma lower_of_upper (c : ascii) : lower_char (upper_char c) = lower_char c.
Proof.
  apply code_inj. rewrite !lower_char_spec.
  pose proof (upper_char_spec c) as Hu.
  generalize dependent (upper_char c). intros u Hu.
  case_codes; lia.
Qed.

Lemma lower_char_idem (c : ascii) : lower_char (lower_char c) = lower_char c.
Proof.
  apply code_inj. rewrite (lower_char_spec (lower_char c)).
  pose proof (lower_char_spec c) as Hl.
  generalize dependent (lower_char c). intros l Hl.
  case_codes; lia.
Qed.

Lemma lower_idem (s : string) : lower (lower s) = lower s.
Proof.
  induction s as [|c s IH]; cbn [lower]; [reflexivity|].
  now rewrite lower_char_idem, IH.
Qed.

Lemma lower_capitalize (s : string) : lower (capitalize s) = lower s.
Proof.
  destruct s as [|c s]; cbn [capitalize lower]; [reflexivity|].
  now rewrite lower_of_upper, lower_idem.
Qed.

Lemma lower_char_cr (c : ascii) : Ascii.eqb (lower_char c) CR = Ascii.eqb c CR.
Proof. destruct c as [[] [] [] [] [] [] [] []]; reflexivity. Qed.

Lemma upper_char_cr (c : ascii) : Ascii.eqb (upper_char c) CR = Ascii.eqb c CR.
Proof. destruct c as [[] [] [] [] [] [] [] []]; reflexivity. Qed.

Lemma no_cr_lower (s : string) : no_cr (lower s) = no_cr s.
Proof.
  unfold no_cr. induction s as [|c s IH]; cbn [lower all_chars]; [reflexivity|].
  now rewrite lower_char_cr, IH.
Qed.

Lemma no_cr_capitalize (s : string) : no_cr (capitalize s) = no_cr s.
Proof.
  destruct s as [|c s]; [reflexivity|].
  pose proof (no_cr_lower s) as H. unfold no_cr in *.
  cbn [capitalize all_chars]. now rewrite upper_char_cr, H.
Qed.

(** X12: a record is found again by its category whatever the case of
    the letters, at entry and in the search.  After an accepted entry
    whose category holds no carriage return, a search by category for a
    text that differs from the category typed by the case of letters
    only lists the new record among its results (the results are the
    records whose category equals the term up to case, in file
    order).  A category with a carriage return is read back with a
    line feed in its place and is not covered. *)
Theorem category_found_in_any_case (recs : list stored) (e : typed)
    (mode term : string) (ins : list string) (out : list message) :
  typed_ok e ->
  no_cr (tCategory e) = true ->
  lower mode = "category" ->
  lower term = lower (tCategory e) ->
  let recs' := (recs ++ [typed_record e])%list in
  (forall s, In s recs' -> float_of_string (sAmount (read_back s)) <> None) ->
  let found := filter (selects "category" term) (map read_back recs') in
  In (read_back (typed_record e)) found
  /\ sCategory (read_back (typed_record e)) = capitalize (tCategory e)
  /\ (add_expense ;;; search_expenses)
       (mkWorld (Some (file_text recs))
          (tDate e :: tAmount e :: tCategory e :: tDescription e
             :: mode :: term :: ins) out)
     = (Ok tt,
        mkWorld (Some (file_text recs')) ins
          ((out ++ [MsgAddTitle; MsgAdded])
             ++ [MsgSearchTitle; MsgSearchResults] ++ map shown found)).
Proof.
  intros (Hd & x & Ha & Hx) Hcr Hmode Hterm recs' Hok found.
  assert (Hcat : sCategory (read_back (typed_record e)) = capitalize (tCategory e)).
  { cbn [read_back typed_record sCategory]. apply decode_no_cr.
    now rewrite no_cr_capitalize. }
  assert (Hin : In (read_back (typed_record e)) found).
  { unfold found. apply filter_In. split.
    - apply in_map. unfold recs'. apply in_or_app. right. now left.
    - unfold selects. cbn [String.eqb Ascii.eqb Bool.eqb].
      rewrite Hcat, lower_capitalize, Hterm. apply String.eqb_refl. }
  split; [exact Hin|]. split; [exact Hcat|].
  unfold bind.
  rewrite (add_expense_extends_store recs _ out _ _ _ _ x Hd Ha Hx).
  assert (Hrec : stored_of (new_expense (tDate e) x (tCategory e) (tDescription e))
                 = typed_record e).
  { unfold typed_record, stored_of. cbn. now rewrite Ha. }
  rewrite Hrec. fold recs'.
  rewrite search_expenses_on_store, Hmode.
  rewrite (search_loop_filter "category" term (selects "category" term))
    by (intros s; apply row_matches_selects).
  cbn [app]. fold found.
  assert (Hfound : forall s, In s found -> float_of_string (sAmount s) <> None).
  { intros s Hs. unfold found in Hs. apply filter_In in Hs. destruct Hs as [Hs _].
    apply in_map_iff in Hs. destruct Hs as (s0 & <- & Hs0). now apply Hok. }
  destruct found as [|s found'] eqn:E; [destruct Hin|].
  cbn [is_empty]. rewrite (print_expenses_stored (s :: found') Hfound).
  unfold say. cbn [file stdin stdout]. now rewrite <- !app_assoc.
Qed.

Lemma category_found_in_any_case_witness :
  let e := mkTyped "2025-11-03" "4.5" "fOOd" "tea" in
  let recs' := (example_records ++ [typed_record e])%list in
  let found := filter (selects "category" "FOOD") (map read_back recs') in
  In (read_back (typed_record e)) found
  /\ sCategory (read_back (typed_record e)) = capitalize (tCategory e)
  /\ (add_expense ;;; search_expenses)
       (mkWorld (Some (file_text example_records))
          (tDate e :: tAmount e :: tCategory e :: tDescription e
             :: "Category" :: "FOOD" :: ["5"]) [])
     = (Ok tt,
        mkWorld (Some (file_text recs')) ["5"]
          (([] ++ [MsgAddTitle; MsgAdded])
             ++ [MsgSearchTitle; MsgSearchResults] ++ map shown found)).
Proof.
  apply (category_found_in_any_case example_records
           (mkTyped "2025-11-03" "4.5" "fOOd" "tea") "Category" "FOOD" ["5"] []).
  - split; [vm_compute; discriminate|].
    exists (of_decimal false 45 (-1)). split; vm_compute; reflexivity.
  - reflexivity.
  - reflexivity.
  - reflexivity.
  - intros s Hin.
    repeat (destruct Hin as [<-|Hin]; [vm_compute; discriminate|]).
    destruct Hin.
Defined.

(** ** The menu loop *)

Lemma bind_ok_inv {A B} (m : io A) (k : A -> io B) (w w' : world) (b : B) :
  bind m k w = (Ok b, w') ->
  exists a w1, m w = (Ok a, w1) /\ k a w1 = (Ok b, w').
Proof.
  unfold bind. destruct (m w) as [[a|e] w1]; [|discriminate].
  intros H. now exists a, w1.
Qed.

Lemma main_loop_ends_with_goodbye (turns : nat) :
  forall w w', main_loop turns w = (Ok tt, w') -> ends_with MsgGoodbye (stdout w').
Proof.
  induction turns as [|turns IH]; intros w w' H; cbn [main_loop] in H.
  - discriminate.
  - unfold menu_turn in H. rewrite bind_print in H.
    apply bind_ok_inv in H. destruct H as (choice & w1 & _ & H).
    repeat match type of H with
    | (if String.eqb choice ?s then _ else _) _ = _ =>
        destruct (String.eqb choice s)
    end;
    try (apply bind_ok_inv in H; destruct H as (u & w2 & _ & H); now apply IH in H).
    unfold print in H. injection H as <-. cbn [stdout]. now exists (stdout w1).
Qed.

(** X13: the program can only end normally through the choice 5: when
    [main] returns, the last line printed is the farewell.  Every other
    way out of the loop is an exception. *)
Theorem main_ends_with_goodbye (w w' : world) :
  main w = (Ok tt, w') -> ends_with MsgGoodbye (stdout w').
Proof.
  unfold main. intros H.
  apply bind_ok_inv in H. destruct H as (u & w1 & _ & H).
  now apply main_loop_ends_with_goodbye in H.
Qed.

Lemma main_ends_with_goodbye_witness :
  ends_with MsgGoodbye
    (stdout (mkWorld (Some header_text) []
               [MsgInitialized; MsgMenu; MsgInvalidChoice; MsgMenu; MsgGoodbye])).
Proof.
  apply (main_ends_with_goodbye (mkWorld None ["9"; "5"] [])).
  vm_compute. reflexivity.
Defined.

Lemma add_expense_checked_effect (w : world) (content : string) :
  file w = Some content ->
  file (snd (add_expense w)) = Some content
  \/ exists e, checked e /\ file (snd (add_expense w)) = Some (content ++ row_text e).
Proof.
  intros Hf. unfold add_expense, bind. cbn [print].
  set (w1 := mkWorld (file w) (stdin w) (stdout w ++ [MsgAddTitle])).
  pose proof (input_loop_file read_date w1) as H1.
  change (file w1) with (file w) in H1.
  destruct (input_loop read_date w1) as [[d|e] w2] eqn:E1; cbn [snd] in *;
    [|left; congruence].
  apply input_loop_read_date in E1. destruct E1 as [Hd _].
  pose proof (input_loop_file read_amount w2) as H2.
  destruct (input_loop read_amount w2) as [[x|e] w3] eqn:E2; cbn [snd] in *;
    [|left; congruence].
  apply input_loop_read_amount in E2. destruct E2 as [Hx _].
  pose proof (keeps_input w3) as H3.
  destruct (input w3) as [[c|e] w4]; cbn [snd] in *; [|left; congruence].
  pose proof (keeps_input w4) as H4.
  destruct (input w4) as [[t|e] w5]; cbn [snd] in *; [|left; congruence].
  right. exists (new_expense d x c t). split.
  - repeat split; auto. now exists c.
  - unfold append_to_file. cbn [file snd].
    replace (file w5) with (file w) by congruence. now rewrite Hf.
Qed.

Lemma main_loop_only_appends (turns : nat) :
  forall w content,
    file w = Some content ->
    exists es, Forall checked es
               /\ file (snd (main_loop turns w))
                  = Some (content ++ rows_of_expenses es).
Proof.
  induction turns as [|turns IH]; intros w content Hf; cbn [main_loop].
  - exists []. split; [constructor|]. cbn. now rewrite string_app_nil_r.
  - assert (Hstop : forall w0, file w0 = Some content ->
              exists es, Forall checked es
                         /\ file w0 = Some (content ++ rows_of_expenses es)).
    { intros w0 H0. exists []. split; [constructor|].
      cbn. now rewrite string_app_nil_r. }
    assert (Hkeep : forall (op : io unit) w1,
              keeps_file op -> file w1 = Some content ->
              exists es, Forall checked es
                         /\ file (snd (bind op (fun _ => main_loop turns) w1))
                            = Some (content ++ rows_of_expenses es)).
    { intros op w1 Hop H1. unfold bind. specialize (Hop w1).
      destruct (op w1) as [[u|e] w2]; cbn [snd] in *.
      - apply IH. congruence.
      - apply Hstop. congruence. }
    unfold menu_turn. rewrite bind_print.
    destruct (stdin w) as [|choice rest] eqn:Es.
    { rewrite bind_input_nil by exact Es. apply Hstop. exact Hf. }
    rewrite (bind_input_cons _ _ choice rest) by exact Es.
    set (w1 := mkWorld (file (say w [MsgMenu])) rest (stdout (say w [MsgMenu]))).
    assert (H1 : file w1 = Some content) by exact Hf.
    destruct (String.eqb choice "1").
    { unfold bind.
      destruct (add_expense_checked_effect w1 content H1) as [Hsame|(e & He & Hnew)];
        destruct (add_expense w1) as [[u|x] w2]; cbn [snd] in *.
      - now apply IH.
      - now apply Hstop.
      - destruct (IH w2 _ Hnew) as (es & Hes & Hfile).
        exists (e :: es). split; [now constructor|].
        rewrite Hfile. cbn [rows_of_expenses]. now rewrite string_app_assoc.
      - exists [e]. split; [constructor; [exact He|constructor]|].
        rewrite Hnew. cbn [rows_of_expenses]. now rewrite string_app_nil_r. }
    destruct (String.eqb choice "2"); [apply Hkeep; [apply keeps_view_expenses|exact H1]|].
    destruct (String.eqb choice "3"); [apply Hkeep; [apply keeps_search_expenses|exact H1]|].
    destruct (String.eqb choice "4");
      [apply Hkeep; [apply keeps_get_monthly_summary|exact H1]|].
    destruct (String.eqb choice "5"); [apply Hstop; exact H1|].
    apply Hkeep; [apply keeps_print|exact H1].
Qed.

(** X14: whatever is typed and however the session ends, [main] leaves
    the file it found (or the header line, when there was no file)
    followed by the lines of the records entered: nothing that was in
    the file is changed or removed, and every line added is that of a
    record whose date and amount passed the checks of [add_expense]. *)
Theorem main_only_appends (w : world) :
  exists es,
    Forall checked es
    /\ file (snd (main w)) = Some (initial_content w ++ rows_of_expenses es).
Proof.
  unfold main, bind.
  pose proof (init_file_effect w) as Hinit.
  destruct (init_file w) as [[u|e] w1] eqn:E; cbn [snd] in Hinit.
  - apply main_loop_only_appends. exact Hinit.
  - exists []. split; [constructor|]. cbn [snd rows_of_expenses].
    rewrite string_app_nil_r. exact Hinit.
Qed.

Lemma bind_of_ok {A B} (m : io A) (k : A -> io B) (w : world) (a : A) (w1 : world) :
  m w = (Ok a, w1) -> bind m k w = k a w1.
Proof. intros H. unfold bind. now rewrite H. Qed.

Lemma typed_record_stored (e : typed) (x : float) :
  float_of_string (tAmount e) = Some x ->
  stored_of (new_expense (tDate e) x (tCategory e) (tDescription e)) = typed_record e.
Proof. intros H. unfold typed_record, stored_of. cbn. now rewrite H. Qed.

Lemma main_loop_entries (es : list typed) :
  Forall typed_ok es ->
  forall (recs : list stored) (out : list message) (turns : nat),
    (List.length (flat_map typed_lines es ++ ["5"]) < turns)%nat ->
    main_loop turns
      (mkWorld (Some (file_text recs)) (flat_map typed_lines es ++ ["5"]) out)
    = (Ok tt,
       mkWorld (Some (file_text (recs ++ map typed_record es))) []
               (out ++ flat_map entry_messages es ++ [MsgMenu; MsgGoodbye])).
Proof.
  induction 1 as [|e es He Hes IH]; intros recs out turns Hturns;
    (destruct turns as [|turns]; [cbn in Hturns; lia|]);
    cbn [main_loop]; unfold menu_turn; rewrite bind_print.
  - cbn [flat_map app map]. unfold say. cbn [file stdin stdout].
    rewrite (bind_input_cons _ _ "5" []) by reflexivity.
    cbn [String.eqb Ascii.eqb Bool.eqb]. unfold print. cbn [file stdin stdout].
    rewrite app_nil_r. now rewrite <- app_assoc.
  - destruct He as (Hd & x & Ha & Hx).
    cbn [flat_map typed_lines app] in *. unfold say. cbn [file stdin stdout].
    rewrite (bind_input_cons _ _ "1"
               (tDate e :: tAmount e :: tCategory e :: tDescription e
                  :: (flat_map typed_lines es ++ ["5"])))
      by reflexivity.
    cbn [String.eqb Ascii.eqb Bool.eqb file stdin stdout].
    unfold bind at 1.
    rewrite (add_expense_extends_store recs _ _ _ _ _ _ x Hd Ha Hx).
    rewrite (typed_record_stored e x Ha).
    rewrite IH by (cbn [List.length] in Hturns; lia).
    cbn [map flat_map entry_messages app].
    rewrite <- !app_assoc. reflexivity.
Qed.

(** X15: a session that enters any number of records whose dates and
    amounts are accepted and then leaves: [main] creates the file,
    appends one line per entry in the order of entry, prints one
    confirmation per entry and the farewell, and uses up the input; the
    file then reads back as that many records, in that order. *)
Theorem session_of_entries (es : list typed) (out : list message) :
  Forall typed_ok es ->
  let w' :=
    mkWorld (Some (file_text (map typed_record es))) []
            (out ++ [MsgInitialized] ++ flat_map entry_messages es
                 ++ [MsgMenu; MsgGoodbye]) in
  main (mkWorld None (flat_map typed_lines es ++ ["5"]) out) = (Ok tt, w')
  /\ read_rows w' = (Ok (map row_of (map read_back (map typed_record es))), w').
Proof.
  intros Hes w'. split; [|apply read_rows_on_store].
  unfold main. cbn [stdin].
  rewrite (bind_of_ok _ _ _ tt
             (mkWorld (Some (file_text [])) (flat_map typed_lines es ++ ["5"])
                      (out ++ [MsgInitialized]))) by reflexivity.
  rewrite (main_loop_entries es Hes [] _ _ (Nat.lt_succ_diag_r _)).
  unfold w'. cbn [app]. now rewrite <- app_assoc.
Qed.

Lemma session_of_entries_witness :
  let es := [mkTyped "2025-09-01" "10.00" "food" "groceries";
             mkTyped "2025-09-02" "5.00" "transport" "bus"] in
  let w' :=
    mkWorld (Some (file_text (map typed_record es))) []
            ([] ++ [MsgInitialized] ++ flat_map entry_messages es
                ++ [MsgMenu; MsgGoodbye]) in
  main (mkWorld None (flat_map typed_lines es ++ ["5"]) []) = (Ok tt, w')
  /\ read_rows w' = (Ok (map row_of (map read_back (map typed_record es))), w').
Proof.
  apply (session_of_entries
           [mkTyped "2025-09-01" "10.00" "food" "groceries";
            mkTyped "2025-09-02" "5.00" "transport" "bus"] []).
  repeat constructor; try (vm_compute; discriminate);
    eexists; split; vm_compute; reflexivity.
Defined.

(** ** An entry when the file is missing *)

Lemma writerow_not_empty (a b c d : string) :
  exists ch rest, writerow [a; b; c; d] = String ch rest.
Proof.
  destruct (writerow_ends [a; b; c; d]) as [body ->].
  unfold lineterminator. destruct body as [|ch body]; cbn [append]; eauto.
Qed.

Lemma reader_of_single_row (a b c d : string) :
  reader_of_file (writerow [a; b; c; d])
  = Some [[decoded a; decoded b; decoded c; decoded d]].
Proof.
  unfold reader_of_file.
  rewrite <- (string_app_nil_r (writerow [a; b; c; d])).
  now rewrite read_written_row.
Qed.

(** X16: [add_expense] does not write the header.  When the file is
    missing (it was removed after the start of the program) an accepted
    entry creates a file that holds the line of the record only; that
    line is then taken for the header, so viewing says that no expenses
    were found. *)
Theorem entry_without_header (ins : list string) (out : list message)
    (d a c t : string) (x : float) :
  strptime_ymd d <> None ->
  float_of_string a = Some x ->
  leb x zero = false ->
  let line := row_text (new_expense d x c t) in
  add_expense (mkWorld None (d :: a :: c :: t :: ins) out)
  = (Ok tt, mkWorld (Some line) ins (out ++ [MsgAddTitle; MsgAdded]))
  /\ view_expenses (mkWorld (Some line) ins out)
     = (Ok tt, mkWorld (Some line) ins (out ++ [MsgViewTitle; MsgNoneFound])).
Proof.
  intros Hd Ha Hx line. split.
  - now rewrite (add_expense_accepts None ins out d a c t x Hd Ha Hx).
  - unfold view_expenses. rewrite bind_print.
    unfold bind at 1. unfold missing_or_empty, say. cbn [file stdin stdout].
    unfold line, row_text, expense_cells.
    destruct (writerow_not_empty (Date (new_expense d x c t))
                (Category (new_expense d x c t))
                (float_repr (Amount (new_expense d x c t)))
                (Description (new_expense d x c t))) as (ch & rest & Hrow).
    rewrite Hrow. unfold bind at 1. unfold read_rows. cbn [file].
    rewrite <- Hrow. rewrite reader_of_single_row.
    cbn [dict_rows filter map is_empty].
    unfold print. cbn [file stdin stdout]. now rewrite <- app_assoc.
Qed.

Lemma entry_without_header_witness :
  let line := row_text (new_expense "2025-09-15" (of_decimal false 55 (-1))
                          "food" "lunch") in
  add_expense (mkWorld None ("2025-09-15" :: "5.5" :: "food" :: "lunch" :: []) [])
  = (Ok tt, mkWorld (Some line) [] ([] ++ [MsgAddTitle; MsgAdded]))
  /\ view_expenses (mkWorld (Some line) [] [])
     = (Ok tt, mkWorld (Some line) [] ([] ++ [MsgViewTitle; MsgNoneFound])).
Proof.
  apply (entry_without_header [] [] "2025-09-15" "5.5" "food" "lunch"
           (of_decimal false 55 (-1))).
  - vm_compute. discriminate.
  - vm_compute. reflexivity.
  - vm_compute. reflexivity.
Defined.

(** The month is only checked for its form and then used as a prefix of
    the date texts: the month typed without its zero takes in the
    records of October, too. *)
Example month_without_zero :
  get_monthly_summary
    (mkWorld (Some (file_text [mkStored "2025-10-03" "Food" "7.0" "lunch"]))
             ["2025-1"] [])
  = (Ok tt,
     mkWorld (Some (file_text [mkStored "2025-10-03" "Food" "7.0" "lunch"])) []
       [MsgSummaryTitle;
        MsgSummaryFor "2025-1"; MsgTotal (of_Z 7); MsgByCategoryTitle;
        MsgCategory (Some "Food") (of_Z 7);
        MsgTopTitle; MsgNotEnoughData; MsgTop 1 (Some "Food") (of_Z 7)]).
Proof. vm_compute. reflexivity. Qed.

(** ** A stored amount that is not a number *)

Lemma add_nan_l (y : float) : add nan y = nan.
Proof. reflexivity. Qed.

Lemma add_nan_r (x : float) : add x nan = nan.
Proof. now destruct x as [s|s| |s m e]. Qed.

Lemma fold_add_nan (l : list float) :
  forall acc, is_nan acc = true \/ Exists (fun x => is_nan x = true) l ->
              is_nan (fold_left add l acc) = true.
Proof.
  induction l as [|x l IH]; intros acc H; cbn [fold_left].
  - destruct H as [H|H]; [exact H|inversion H].
  - apply IH. destruct H as [H|H].
    + left. destruct acc; try discriminate. reflexivity.
    + inversion H as [? ? Hx|? ? Hl]; subst.
      * left. destruct x; try discriminate. now rewrite add_nan_r.
      * now right.
Qed.

(** X17: an amount stored as nan (the amount prompt lets it through)
    spoils the month it belongs to: the total of that month is not a
    number, it does not compare equal to zero, and so the summary
    prints the report with that total, the subtotals in first-seen
    order and a top section made of the categories in some order. *)
Theorem nan_spoils_the_month (recs : list stored) (month : string)
    (ins : list string) (out : list message) :
  strptime_ym month <> None ->
  (forall s, In s recs -> in_month month (read_back s) = true ->
             float_of_string (sAmount (read_back s)) <> None) ->
  (exists s, In s recs /\ in_month month (read_back s) = true
             /\ float_of_string (sAmount (read_back s)) = Some nan) ->
  let cats := accumulate (filter (in_month month) (map read_back recs)) [] in
  exists ranking,
    Permutation ranking cats
    /\ get_monthly_summary (mkWorld (Some (file_text recs)) (month :: ins) out)
       = (Ok tt,
          mkWorld (Some (file_text recs)) ins
            (out ++ MsgSummaryTitle :: full_report month nan cats ranking)).
Proof.
  intros Hm Hok (s & Hs & Hin & Hnan) cats.
  set (selected := filter (in_month month) (map read_back recs)) in *.
  assert (Htotal : fold_left add (map amount_of selected) zero = nan).
  { assert (H : is_nan (fold_left add (map amount_of selected) zero) = true).
    { apply fold_add_nan. right. apply Exists_exists. exists nan. split; [|reflexivity].
      apply in_map_iff. exists (read_back s). split.
      - unfold amount_of. now rewrite Hnan.
      - apply filter_In. split; [now apply in_map|exact Hin]. }
    now destruct (fold_left add (map amount_of selected) zero). }
  exists (sorted_categories cats).
  split; [apply sorted_reverse_perm|].
  rewrite (get_monthly_summary_on_store recs month ins out Hm).
  rewrite (summary_loop_fold month (map read_back recs)).
  - cbn [fst snd]. fold selected. rewrite Htotal. fold cats.
    rewrite (report_nonzero month nan cats _ eq_refl).
    unfold say. cbn [file stdin stdout]. now rewrite <- app_assoc.
  - intros s' Hs'. apply in_map_iff in Hs'.
    destruct Hs' as (s0 & <- & Hs0). now apply Hok.
Qed.

Lemma nan_spoils_the_month_witness :
  let cats :=
    accumulate (filter (in_month "2025-09") (map read_back nan_records)) [] in
  exists ranking,
    Permutation ranking cats
    /\ get_monthly_summary
         (mkWorld (Some (file_text nan_records)) ("2025-09" :: ["5"]) [MsgMenu])
       = (Ok tt,
          mkWorld (Some (file_text nan_records)) ["5"]
            ([MsgMenu] ++ MsgSummaryTitle :: full_report "2025-09" nan cats ranking)).
Proof.
  apply (nan_spoils_the_month nan_records "2025-09" ["5"] [MsgMenu]).
  - vm_compute. discriminate.
  - intros s Hin _.
    repeat (destruct Hin as [<-|Hin]; [vm_compute; discriminate|]).
    destruct Hin.
  - exists (mkStored "2025-09-02" "B" "nan" "y").
    split; [right; left; reflexivity|]. split; vm_compute; reflexivity.
Defined.
